(** * Data-protection core of the hospital records dashboard ([utils.py])

    A shallow embedding of the functions of [src/utils.py] that the
    specification's properties are about, followed by the properties
    themselves.

    Python values are embedded as the inductive type [pyval]; a call that can
    raise evaluates to a [result], [Raise e] standing for the exception [e]
    leaving the function.  A Python [str] is a Rocq [string] read as a
    sequence of code points below 256 (so [str.encode()] is UTF-8 on that
    range: one byte below 128, two bytes from 128 on); [bytes] is a list of
    [Byte.byte].  A record (a Python [dict] with string keys) is a
    [gmap string pyval].

    The standard-library functions the code calls ([hashlib.md5],
    [datetime.strptime], [re.sub] with the pattern of the source, the string
    methods) are written out and run; the two cryptographic packages
    ([bcrypt], [cryptography.fernet]) are taken through their interface, the
    primitive itself being a parameter. *)

From Stdlib Require Import ZArith NArith List Strings.String Strings.Ascii Strings.Byte Bool Lia.
From Stdlib Require Import DecimalString DecimalN.
From stdpp Require Import base option gmap strings.

Local Open Scope string_scope.
Local Open Scope Z_scope.

(* ===================================================================== *)
(** ** Python values, exceptions and results *)
(* ===================================================================== *)

Definition bytes := list byte.

(** A naive [datetime.datetime]: Python orders two of them field by field. *)
Record datetime := mkDatetime {
  dt_year : Z; dt_month : Z; dt_day : Z;
  dt_hour : Z; dt_minute : Z; dt_second : Z; dt_microsecond : Z
}.

Inductive pyval :=
| VNone
| VBool (b : bool)
| VInt (z : Z)
| VStr (s : string)
| VBytes (b : bytes)
| VDatetime (d : datetime).

(** The exceptions (all subclasses of [Exception]) the modelled code can see. *)
Inductive exn :=
| TypeError
| AttributeError
| IndexError
| ValueError
| UnicodeDecodeError
| InvalidToken.

Inductive result (A : Type) :=
| Ok (a : A)
| Raise (e : exn).
Arguments Ok {A} a.
Arguments Raise {A} e.

#[global] Instance result_ret : MRet result := fun A a => Ok a.
#[global] Instance result_bind : MBind result := fun A B f r =>
  match r with
  | Ok a => f a
  | Raise e => Raise e
  end.

Definition is_ok {A} (r : result A) : bool :=
  match r with Ok _ => true | Raise _ => false end.

(** [bool(v)], the truth value [not v] negates. *)
Definition truthy (v : pyval) : bool :=
  match v with
  | VNone => false
  | VBool b => b
  | VInt z => negb (z =? 0)
  | VStr s => negb (String.eqb s "")
  | VBytes b => match b with [] => false | _ => true end
  | VDatetime _ => true
  end.

(* ===================================================================== *)
(** ** String methods used by the source *)
(* ===================================================================== *)

Module Str.

Definition code (c : ascii) : Z := Z.of_N (N_of_ascii c).

Definition chr (z : Z) : ascii := ascii_of_N (Z.to_N z).

(** [c in s] for a one-character [c]. *)
Fixpoint contains (c : ascii) (s : string) : bool :=
  match s with
  | EmptyString => false
  | String d s' => Ascii.eqb d c || contains c s'
  end.

(** [s.split(sep)] for a one-character separator: always at least one part. *)
Fixpoint split (sep : ascii) (s : string) : list string :=
  match s with
  | EmptyString => [EmptyString]
  | String c s' =>
      if Ascii.eqb c sep then EmptyString :: split sep s'
      else match split sep s' with
           | p :: ps => String c p :: ps
           | [] => [String c EmptyString]
           end
  end.

(** [c * n]. *)
Fixpoint repeat (c : ascii) (n : nat) : string :=
  match n with
  | O => EmptyString
  | S n' => String c (repeat c n')
  end.

Fixpoint filter (p : ascii -> bool) (s : string) : string :=
  match s with
  | EmptyString => EmptyString
  | String c s' => if p c then String c (filter p s') else filter p s'
  end.

Fixpoint map (f : ascii -> ascii) (s : string) : string :=
  match s with
  | EmptyString => EmptyString
  | String c s' => String (f c) (map f s')
  end.

Fixpoint drop (n : nat) (s : string) : string :=
  match n, s with
  | O, _ => s
  | S n', String _ s' => drop n' s'
  | S _, EmptyString => EmptyString
  end.

Fixpoint take (n : nat) (s : string) : string :=
  match n, s with
  | S n', String c s' => String c (take n' s')
  | _, _ => EmptyString
  end.

(** [s[-n:]] for [n > 0]: the last [n] characters, all of [s] when shorter. *)
Definition last_n (n : nat) (s : string) : string :=
  drop (String.length s - n) s.

(** [s[i]] for [i >= 0]. *)
Definition index (s : string) (i : nat) : result ascii :=
  match String.get i s with
  | Some c => Ok c
  | None => Raise IndexError
  end.

(** [\d] on the model's characters: the decimal digits below code 256 are
    the ASCII ones. *)
Definition is_digit (c : ascii) : bool :=
  (48 <=? code c) && (code c <=? 57).

(** [str.isspace] on one character below code 256. *)
Definition is_space (c : ascii) : bool :=
  let n := code c in
  ((9 <=? n) && (n <=? 13)) || ((28 <=? n) && (n <=? 32))
  || (n =? 133) || (n =? 160).

Fixpoint lstrip (s : string) : string :=
  match s with
  | String c s' => if is_space c then lstrip s' else s
  | EmptyString => EmptyString
  end.

Fixpoint rev_onto (s acc : string) : string :=
  match s with
  | EmptyString => acc
  | String c s' => rev_onto s' (String c acc)
  end.

Definition rev (s : string) : string := rev_onto s EmptyString.

Definition rstrip (s : string) : string := rev (lstrip (rev s)).

(** [s.strip()]. *)
Definition strip (s : string) : string := lstrip (rstrip s).

(** [s.upper()] on ASCII text (the source applies it to a hex digest). *)
Definition upper_char (c : ascii) : ascii :=
  if (97 <=? code c) && (code c <=? 122) then chr (code c - 32) else c.

Definition upper (s : string) : string := map upper_char s.

End Str.

(** [l[i]] for [i >= 0] on a list. *)
Definition list_index {A} (l : list A) (i : nat) : result A :=
  match nth_error l i with
  | Some x => Ok x
  | None => Raise IndexError
  end.

(** [l[-1]] on a list. *)
Definition list_last {A} (l : list A) : result A :=
  match List.rev l with
  | x :: _ => Ok x
  | [] => Raise IndexError
  end.

(* ===================================================================== *)
(** ** DATA ANONYMIZATION / MASKING *)
(* ===================================================================== *)

(** [re.sub(r'\D', '', contact)]: a [str] keeps its digits; any other value
    is refused by [re] with a [TypeError]. *)
Definition re_sub_nondigits (v : pyval) : result string :=
  match v with
  | VStr s => Ok (Str.filter Str.is_digit s)
  | _ => Raise TypeError
  end.

Definition mask_contact (contact : pyval) : result pyval :=
  if negb (truthy contact) then Ok VNone
  else
    digits ← re_sub_nondigits contact;
    if (4 <=? String.length digits)%nat then
      let last_four := Str.last_n 4 digits in
      Ok (VStr ("XXX-XXX-" +:+ last_four))
    else Ok (VStr "XXX-XXX-XXXX").

(** ['@' not in email]: membership is a [TypeError] on a value that is not a
    container, and on [bytes] when the needle is a [str]. *)
Definition at_not_in (v : pyval) : result bool :=
  match v with
  | VStr s => Ok (negb (Str.contains "@" s))
  | _ => Raise TypeError
  end.

(** [email.split('@')]: only a [str] has a [split] taking a [str]. *)
Definition py_split (sep : ascii) (v : pyval) : result (list string) :=
  match v with
  | VStr s => Ok (Str.split sep s)
  | VBytes _ => Raise TypeError
  | _ => Raise AttributeError
  end.

Definition mask_email (email : pyval) : result pyval :=
  if negb (truthy email) then Ok VNone
  else
    absent ← at_not_in email;
    if (absent : bool) then Ok VNone
    else
      parts ← py_split "@" email;
      username ← list_index parts 0;
      domain ← list_index parts 1;
      masked_username ←
        (if (String.length username <=? 2)%nat then
           c ← Str.index username 0;
           Ok (String c "*")
         else
           c ← Str.index username 0;
           Ok (String c (Str.repeat "*" (String.length username - 1))));
      Ok (VStr (masked_username +:+ "@" +:+ domain)).

Definition anonymize_address (address : pyval) : result pyval :=
  if negb (truthy address) then Ok VNone
  else
    parts ← py_split "," address;
    if (1 <? List.length parts)%nat then
      last ← list_last parts;
      let city := Str.strip last in
      Ok (VStr ("*****, " +:+ city))
    else Ok (VStr "*****").

(* ===================================================================== *)
(** ** [str.encode()] and [bytes.decode()]: UTF-8 on code points below 256 *)
(* ===================================================================== *)

Module Utf8.

Definition byte_of_Z (z : Z) : byte := byte_of_ascii (Str.chr z).

Definition Z_of_byte (b : byte) : Z := Z.of_N (Byte.to_N b).

Definition encode_char (c : ascii) : bytes :=
  let n := Str.code c in
  if n <? 128 then [byte_of_Z n]
  else [byte_of_Z (Z.lor 192 (Z.shiftr n 6)); byte_of_Z (Z.lor 128 (Z.land n 63))].

(** [s.encode()] (also [s.encode('utf-8')]). *)
Fixpoint encode (s : string) : bytes :=
  match s with
  | EmptyString => []
  | String c s' => (encode_char c ++ encode s')%list
  end.

Definition is_continuation (b : byte) : bool :=
  (128 <=? Z_of_byte b) && (Z_of_byte b <=? 191).

(** [b.decode()] (also [b.decode('utf-8')]).  A lead byte 0xC2 or 0xC3 with
    its continuation byte is a code point in 128..255.  Every other
    sequence either is not UTF-8 or denotes a code point the model's [str]
    does not have; both are reported as [UnicodeDecodeError], and nothing
    below is stated about the second kind. *)
Fixpoint decode (b : bytes) : result string :=
  match b with
  | [] => Ok EmptyString
  | b1 :: rest =>
      let n1 := Z_of_byte b1 in
      if n1 <? 128 then
        s ← decode rest; Ok (String (Str.chr n1) s)
      else if (n1 =? 194) || (n1 =? 195) then
        match rest with
        | b2 :: rest' =>
            if is_continuation b2 then
              s ← decode rest';
              Ok (String (Str.chr (Z.lor (Z.shiftl (Z.land n1 31) 6)
                                         (Z.land (Z_of_byte b2) 63))) s)
            else Raise UnicodeDecodeError
        | [] => Raise UnicodeDecodeError
        end
      else Raise UnicodeDecodeError
  end.

Definition is_ascii (b : byte) : bool := Z_of_byte b <? 128.

End Utf8.

(** [v.encode()]: only a [str] has the method. *)
Definition py_encode (v : pyval) : result bytes :=
  match v with
  | VStr s => Ok (Utf8.encode s)
  | _ => Raise AttributeError
  end.

(* ===================================================================== *)
(** ** [hashlib.md5]: RFC 1321 on 32-bit words kept in [Z] *)
(* ===================================================================== *)

Module Md5.

Definition w32 (x : Z) : Z := x mod 2 ^ 32.

Definition not32 (x : Z) : Z := Z.lxor x (2 ^ 32 - 1).

Definition rotl32 (x : Z) (c : Z) : Z :=
  w32 (Z.lor (Z.shiftl x c) (Z.shiftr x (32 - c))).

Definition K : list Z :=
  [3614090360; 3905402710; 606105819; 3250441966; 4118548399; 1200080426;
   2821735955; 4249261313; 1770035416; 2336552879; 4294925233; 2304563134;
   1804603682; 4254626195; 2792965006; 1236535329; 4129170786; 3225465664;
   643717713; 3921069994; 3593408605; 38016083; 3634488961; 3889429448;
   568446438; 3275163606; 4107603335; 1163531501; 2850285829; 4243563512;
   1735328473; 2368359562; 4294588738; 2272392833; 1839030562; 4259657740;
   2763975236; 1272893353; 4139469664; 3200236656; 681279174; 3936430074;
   3572445317; 76029189; 3654602809; 3873151461; 530742520; 3299628645;
   4096336452; 1126891415; 2878612391; 4237533241; 1700485571; 2399980690;
   4293915773; 2240044497; 1873313359; 4264355552; 2734768916; 1309151649;
   4149444226; 3174756917; 718787259; 3951481745].

Definition shifts : list Z :=
  [7; 12; 17; 22; 7; 12; 17; 22; 7; 12; 17; 22; 7; 12; 17; 22;
   5; 9; 14; 20; 5; 9; 14; 20; 5; 9; 14; 20; 5; 9; 14; 20;
   4; 11; 16; 23; 4; 11; 16; 23; 4; 11; 16; 23; 4; 11; 16; 23;
   6; 10; 15; 21; 6; 10; 15; 21; 6; 10; 15; 21; 6; 10; 15; 21].

Record state := mkState { sA : Z; sB : Z; sC : Z; sD : Z }.

Definition init : state :=
  mkState 1732584193 4023233417 2562383102 271733878.

(** One of the 64 operations of a block; [M] holds its 16 words. *)
Definition step (M : list Z) (st : state) (i : nat) : state :=
  let '(mkState A B C D) := st in
  let zi := Z.of_nat i in
  let '(F, g) :=
    if (i <? 16)%nat then
      (Z.lor (Z.land B C) (Z.land (not32 B) D), zi)
    else if (i <? 32)%nat then
      (Z.lor (Z.land D B) (Z.land (not32 D) C), (5 * zi + 1) mod 16)
    else if (i <? 48)%nat then
      (Z.lxor B (Z.lxor C D), (3 * zi + 5) mod 16)
    else
      (Z.lxor C (Z.lor B (not32 D)), (7 * zi) mod 16) in
  let F' := w32 (F + A + nth i K 0 + nth (Z.to_nat g) M 0) in
  mkState D (w32 (B + rotl32 F' (nth i shifts 0))) B C.

(** A little-endian 32-bit word from four bytes. *)
Definition word_of (b : list Z) : Z :=
  nth 0 b 0 + 2 ^ 8 * nth 1 b 0 + 2 ^ 16 * nth 2 b 0 + 2 ^ 24 * nth 3 b 0.

Fixpoint words (n : nat) (b : list Z) : list Z :=
  match n with
  | O => []
  | S n' => word_of (firstn 4 b) :: words n' (skipn 4 b)
  end.

Definition block (st : state) (blk : list Z) : state :=
  let M := words 16 blk in
  let st' := fold_left (step M) (seq 0 64) st in
  mkState (w32 (sA st + sA st')) (w32 (sB st + sB st'))
          (w32 (sC st + sC st')) (w32 (sD st + sD st')).

Fixpoint blocks (n : nat) (st : state) (b : list Z) : state :=
  match n with
  | O => st
  | S n' => blocks n' (block st (firstn 64 b)) (skipn 64 b)
  end.

(** The [n] low bytes of [x], least significant first. *)
Fixpoint le_bytes (n : nat) (x : Z) : list Z :=
  match n with
  | O => []
  | S n' => x mod 256 :: le_bytes n' (x / 256)
  end.

(** The message, a 1 bit, zeros up to 56 modulo 64, then the length in bits. *)
Definition pad (msg : list Z) : list Z :=
  let len := Z.of_nat (List.length msg) in
  let zeros := Z.to_nat ((55 - len) mod 64) in
  (msg ++ [128] ++ List.repeat 0 zeros ++ le_bytes 8 ((8 * len) mod 2 ^ 64))%list.

Definition digest (msg : bytes) : list Z :=
  let padded := pad (List.map Utf8.Z_of_byte msg) in
  let st := blocks (List.length padded / 64) init padded in
  (le_bytes 4 (sA st) ++ le_bytes 4 (sB st) ++ le_bytes 4 (sC st) ++ le_bytes 4 (sD st))%list.

Definition hex_digit (z : Z) : ascii :=
  if z <? 10 then Str.chr (48 + z) else Str.chr (87 + z).

Fixpoint hex (b : list Z) : string :=
  match b with
  | [] => EmptyString
  | x :: b' => String (hex_digit (x / 16)) (String (hex_digit (x mod 16)) (hex b'))
  end.

(** [hashlib.md5(msg).hexdigest()]. *)
Definition hexdigest (msg : bytes) : string := hex (digest msg).

End Md5.

(* ===================================================================== *)
(** ** [anonymize_name] *)
(* ===================================================================== *)

(** The decimal digits of a natural number. *)
Definition decimal (n : N) : string := NilZero.string_of_uint (N.to_uint n).

(** [format(z, '04d')] on an [int]: the sign, then zeros up to a total width
    of four, then the digits. *)
Definition format_04d_int (z : Z) : string :=
  let digits := decimal (Z.abs_N z) in
  let sign := if z <? 0 then "-" else "" in
  let width := (String.length sign + String.length digits)%nat in
  sign +:+ Str.repeat "0" (4 - width) +:+ digits.

(** [f"{v:04d}"]: [bool] formats as the [int] it is, [str] rejects the code
    [d], [bytes] and [None] reject every format string, and a [datetime]
    hands the string to [strftime], which copies it. *)
Definition format_04d (v : pyval) : result string :=
  match v with
  | VInt z => Ok (format_04d_int z)
  | VBool b => Ok (format_04d_int (if b then 1 else 0))
  | VStr _ => Raise ValueError
  | VBytes _ => Raise TypeError
  | VNone => Raise TypeError
  | VDatetime _ => Ok "04d"
  end.

(** [patient_id] is [VNone] when the caller leaves the argument out. *)
Definition anonymize_name (name : pyval) (patient_id : pyval) : result pyval :=
  if negb (truthy name) then Ok VNone
  else if truthy patient_id then
    label ← format_04d patient_id;
    Ok (VStr ("ANON_" +:+ label))
  else
    encoded ← py_encode name;
    let hash_val := Str.take 8 (Md5.hexdigest encoded) in
    Ok (VStr ("ANON_" +:+ Str.upper hash_val)).

(* ===================================================================== *)
(** ** GDPR UTILITIES: [check_retention_expired] *)
(* ===================================================================== *)

(** [datetime.strptime(s, '%Y-%m-%d')].  The format compiles to the regular
    expression
    [(?P<Y>\d\d\d\d)-(?P<m>1[0-2]|0[1-9]|[1-9])-(?P<d>3[0-1]|[1-2]\d|0[1-9]|[1-9]| [1-9])],
    matched at the start of [s]; text left after the match, a year 0 and a
    day the month does not have are each a [ValueError]. *)
Module Strptime.

Definition digit (lo hi : Z) (c : ascii) : option Z :=
  let n := Str.code c - 48 in
  if (lo <=? n) && (n <=? hi) then Some n else None.

Definition year_field (s : string) : option (Z * string) :=
  match s with
  | String c1 (String c2 (String c3 (String c4 rest))) =>
      match digit 0 9 c1, digit 0 9 c2, digit 0 9 c3, digit 0 9 c4 with
      | Some a, Some b, Some c, Some d => Some (1000 * a + 100 * b + 10 * c + d, rest)
      | _, _, _, _ => None
      end
  | _ => None
  end.

(** Two characters [c1 c2] with [c1] a digit in [lo1..hi1] and [c2] one in
    [lo2..hi2]. *)
Definition two (lo1 hi1 lo2 hi2 : Z) (s : string) : list (Z * string) :=
  match s with
  | String c1 (String c2 rest) =>
      match digit lo1 hi1 c1, digit lo2 hi2 c2 with
      | Some a, Some b => [(10 * a + b, rest)]
      | _, _ => []
      end
  | _ => []
  end.

Definition one (lo hi : Z) (s : string) : list (Z * string) :=
  match s with
  | String c rest =>
      match digit lo hi c with
      | Some a => [(a, rest)]
      | None => []
      end
  | _ => []
  end.

Definition space_one (s : string) : list (Z * string) :=
  match s with
  | String " " rest => one 1 9 rest
  | _ => []
  end.

(** The alternatives of a group that match at the start of [s], in the
    order the expression lists them. *)
Definition month_field (s : string) : list (Z * string) :=
  (two 1 1 0 2 s ++ two 0 0 1 9 s ++ one 1 9 s)%list.

Definition day_field (s : string) : list (Z * string) :=
  (two 3 3 0 1 s ++ two 1 2 0 9 s ++ two 0 0 1 9 s ++ one 1 9 s ++ space_one s)%list.

Definition dash (s : string) : option string :=
  match s with
  | String "-" rest => Some rest
  | _ => None
  end.

(** After a month alternative: the dash and the first day alternative. *)
Definition after_month (alt : Z * string) : option (Z * Z * string) :=
  match dash (snd alt) with
  | Some s =>
      match day_field s with
      | (d, rest) :: _ => Some (fst alt, d, rest)
      | [] => None
      end
  | None => None
  end.

Fixpoint first_some {A B} (f : A -> option B) (l : list A) : option B :=
  match l with
  | [] => None
  | x :: l' => match f x with Some y => Some y | None => first_some f l' end
  end.

(** The match of the whole expression: year, month, day and the text left. *)
Definition regex_match (s : string) : option (Z * Z * Z * string) :=
  match year_field s with
  | Some (y, s1) =>
      match dash s1 with
      | Some s2 =>
          match first_some after_month (month_field s2) with
          | Some (m, d, rest) => Some (y, m, d, rest)
          | None => None
          end
      | None => None
      end
  | None => None
  end.

Definition is_leap (y : Z) : bool :=
  (y mod 4 =? 0) && (negb (y mod 100 =? 0) || (y mod 400 =? 0)).

Definition days_in_month (y m : Z) : Z :=
  if m =? 2 then (if is_leap y then 29 else 28)
  else if (m =? 4) || (m =? 6) || (m =? 9) || (m =? 11) then 30
  else 31.

Definition strptime (s : string) : result datetime :=
  match regex_match s with
  | Some (y, m, d, rest) =>
      if negb (String.eqb rest "") then Raise ValueError
      else if y <? 1 then Raise ValueError
      else if days_in_month y m <? d then Raise ValueError
      else Ok (mkDatetime y m d 0 0 0 0)
  | None => Raise ValueError
  end.

End Strptime.

Definition fields (d : datetime) : list Z :=
  [dt_year d; dt_month d; dt_day d; dt_hour d; dt_minute d; dt_second d; dt_microsecond d].

Fixpoint lex_ltb (a b : list Z) : bool :=
  match a, b with
  | x :: a', y :: b' => (x <? y) || ((x =? y) && lex_ltb a' b')
  | _, _ => false
  end.

(** [a < b] on two naive datetimes. *)
Definition dt_ltb (a b : datetime) : bool := lex_ltb (fields a) (fields b).

(** [a <= b] on two naive datetimes. *)
Definition dt_leb (a b : datetime) : bool := negb (dt_ltb b a).

(** [datetime.now() > v]: ordering a datetime against any other type is a
    [TypeError]. *)
Definition now_gt (now : datetime) (v : pyval) : result bool :=
  match v with
  | VDatetime d => Ok (dt_ltb d now)
  | _ => Raise TypeError
  end.

(** [now] is what [datetime.now()] reads from the clock during the call. *)
Definition check_retention_expired (now : datetime) (retention_date : pyval) : result bool :=
  if negb (truthy retention_date) then Ok false
  else
    retention_date' ←
      match retention_date with
      | VStr s => d ← Strptime.strptime s; Ok (VDatetime d)
      | _ => Ok retention_date
      end;
    now_gt now retention_date'.

(* ===================================================================== *)
(** ** HELPER FUNCTIONS: [mask_sensitive_data] *)
(* ===================================================================== *)

(** A record: the [dict] the application passes, keyed by field name. *)
Abbreviation record := (gmap string pyval).

(** [if key in masked: masked[key] = f(masked[key])]. *)
Definition update_if_present (key : string) (f : pyval -> result pyval)
    (masked : record) : result record :=
  match masked !! key with
  | Some v => v' ← f v; Ok (<[key := v']> masked)
  | None => Ok masked
  end.

(** [masked.get('anonymized_name', anonymize_name(name))]: the default is an
    argument of [get], so [anonymize_name] runs before the lookup. *)
Definition get_anonymized_name (masked : record) (name : pyval) : result pyval :=
  fallback ← anonymize_name name VNone;
  Ok (default fallback (masked !! "anonymized_name")).

(** For [admin] the result is the argument itself; every other role works on
    [data_dict.copy()], which as a value is the same map. *)
Definition mask_sensitive_data (data_dict : record) (role : string) : result record :=
  if String.eqb role "admin" then Ok data_dict
  else
    let masked := data_dict in
    if String.eqb role "doctor" then
      masked ← update_if_present "name" (get_anonymized_name masked) masked;
      masked ← update_if_present "contact" mask_contact masked;
      masked ← update_if_present "email" mask_email masked;
      Ok masked
    else if String.eqb role "receptionist" then
      masked ← update_if_present "diagnosis" (fun _ => Ok (VStr "***RESTRICTED***")) masked;
      masked ← update_if_present "address" anonymize_address masked;
      Ok masked
    else Ok masked.

Definition sample_patient : record :=
  <["name" := VStr "John Doe"]>
  (<["contact" := VStr "+923001234567"]>
  (<["email" := VStr "john.doe@email.com"]>
  (<["address" := VStr "123 Main St, Karachi"]>
  (<["diagnosis" := VStr "Hypertension"]>
  (<["blood_group" := VStr "O+"]>
  (<["patient_id" := VInt 1021]> ∅)))))).

(* ===================================================================== *)
(** ** What the functions print *)
(* ===================================================================== *)

(** One line written by [print]; the value or exception is the one the
    f-string interpolates. *)
Inductive printed :=
| PasswordBytes (v : pyval)          (* "Password bytes: {password}" *)
| HashBytes (v : pyval)              (* "Hash bytes: {hashed_password}" *)
| CheckpwResult (r : bool)           (* "bcrypt.checkpw result: {result}" *)
| VerificationError (e : exn)        (* "Password verification error: {e}" *)
| DecryptionError (e : exn).         (* "Decryption error: {e}" *)

(* ===================================================================== *)
(** ** PASSWORD HASHING *)
(* ===================================================================== *)

(** The interface of the [bcrypt] package (release 5.0.0): [gensalt],
    [hashpw], [checkpw] and the textual layout of a hash, ["$2b$"], the
    two-digit cost, ["$"], 22 characters of salt and 31 characters of
    digest, all in bcrypt's base-64 alphabet.  [hashpw] refuses a password
    of more than 72 bytes.  The key schedule that produces the digest is
    the parameter [eksblowfish]. *)
Module Bcrypt.

Definition alphabet : string :=
  "./ABCDEFGHIJKLMNOPQRSTUVWXYZabcdefghijklmnopqrstuvwxyz0123456789".

(** The character of a six-bit value. *)
Definition b64_char (n : Z) : byte :=
  match String.get (Z.to_nat (n mod 64)) alphabet with
  | Some c => byte_of_ascii c
  | None => byte_of_ascii "."
  end.

Definition in_alphabet (b : byte) : bool :=
  Str.contains (ascii_of_byte b) alphabet.

(** Three bytes to four six-bit values, most significant bits first; a
    last group of one or two bytes gives two or three values. *)
Fixpoint sextets (b : list Z) : list Z :=
  match b with
  | b0 :: b1 :: b2 :: rest =>
      b0 / 4 :: (b0 mod 4) * 16 + b1 / 16 :: (b1 mod 16) * 4 + b2 / 64
      :: b2 mod 64 :: sextets rest
  | [b0; b1] => [b0 / 4; (b0 mod 4) * 16 + b1 / 16; (b1 mod 16) * 4]
  | [b0] => [b0 / 4; (b0 mod 4) * 16]
  | [] => []
  end.

Definition encode_base64 (b : bytes) : bytes :=
  List.map b64_char (sextets (List.map Utf8.Z_of_byte b)).

(** The six-bit value of a character of the alphabet. *)
Fixpoint index_in (c : ascii) (s : string) : Z :=
  match s with
  | EmptyString => 0
  | String d s' => if Ascii.eqb d c then 0 else 1 + index_in c s'
  end.

Definition b64_index (b : byte) : Z := index_in (ascii_of_byte b) alphabet.

(** Four six-bit values back to three bytes. *)
Fixpoint unsextets (s : list Z) : list Z :=
  match s with
  | s0 :: s1 :: s2 :: s3 :: rest =>
      4 * s0 + s1 / 16 :: 16 * (s1 mod 16) + s2 / 4 :: 64 * (s2 mod 4) + s3
      :: unsextets rest
  | [s0; s1; s2] => [4 * s0 + s1 / 16; 16 * (s1 mod 16) + s2 / 4]
  | [s0; s1] => [4 * s0 + s1 / 16]
  | _ => []
  end.

Definition decode_base64 (b : bytes) : bytes :=
  List.map Utf8.byte_of_Z (unsextets (List.map b64_index b)).

Definition two_digits (n : Z) : bytes :=
  [Utf8.byte_of_Z (48 + n / 10); Utf8.byte_of_Z (48 + n mod 10)].

Definition dollar : byte := byte_of_ascii "$".

(** ["$2b$"], the cost, ["$"] and the salt text. *)
Definition setting (version : byte) (cost : Z) (salt : bytes) : bytes :=
  ([dollar; byte_of_ascii "2"; version; dollar] ++ two_digits cost ++ [dollar] ++ salt)%list.

(** [bcrypt.gensalt(rounds)]; [urandom] is the [os.urandom(16)] it draws. *)
Definition gensalt (rounds : Z) (urandom : bytes) : result bytes :=
  if (rounds <? 4) || (31 <? rounds) then Raise ValueError
  else Ok (setting (byte_of_ascii "b") rounds (encode_base64 (firstn 16 urandom))).

Definition digit_of (b : byte) : option Z :=
  let n := Utf8.Z_of_byte b - 48 in
  if (0 <=? n) && (n <=? 9) then Some n else None.

Definition is_version (b : byte) : bool :=
  let c := ascii_of_byte b in
  Ascii.eqb c "a" || Ascii.eqb c "b" || Ascii.eqb c "x" || Ascii.eqb c "y".

(** [salt.split(b"$")]: the parts between the dollar signs. *)
Fixpoint split_dollar (s : bytes) : list bytes :=
  match s with
  | [] => [[]]
  | x :: s' =>
      if Byte.eqb x dollar then [] :: split_dollar s'
      else
        match split_dollar s' with
        | part :: parts => (x :: part) :: parts
        | [] => [[x]]
        end
  end.

Definition nonempty (b : bytes) : bool :=
  match b with
  | [] => false
  | _ => true
  end.

(** The version field, [2a], [2b], [2x] or [2y]: its letter. *)
Definition version_of (raw : bytes) : option byte :=
  match raw with
  | [two; v] =>
      if Byte.eqb two (byte_of_ascii "2") && is_version v then Some v else None
  | _ => None
  end.

Fixpoint digits_from (acc : Z) (raw : bytes) : option Z :=
  match raw with
  | [] => Some acc
  | b :: raw' =>
      match digit_of b with
      | Some d => digits_from (10 * acc + d) raw'
      | None => None
      end
  end.

(** The cost field, read as an unsigned 32-bit number in decimal: one or
    more digits, a plus sign allowed in front. *)
Definition parse_cost (raw : bytes) : option Z :=
  let digits :=
    match raw with
    | b :: raw' => if Byte.eqb b (byte_of_ascii "+") then raw' else raw
    | [] => []
    end in
  match digits with
  | [] => None
  | _ =>
      match digits_from 0 digits with
      | Some n => if n <? 2 ^ 32 then Some n else None
      | None => None
      end
  end.

(** The 22 characters of salt to its 16 bytes: every character is of the
    alphabet, and the last one carries no bit beyond the sixteenth byte. *)
Definition decode_salt (text : bytes) : option bytes :=
  if forallb in_alphabet text && (b64_index (List.last text dollar) mod 16 =? 0)
  then Some (decode_base64 text)
  else None.

(** The version, cost and salt text of a salt or of a hash: the three
    non-empty parts between dollar signs, of which the last begins with the
    salt.  The salt text returned is the salt encoded again. *)
Definition parse_setting (s : bytes) : option (byte * Z * bytes) :=
  match List.filter nonempty (split_dollar s) with
  | [raw_version; raw_cost; remainder] =>
      match version_of raw_version, parse_cost raw_cost with
      | Some v, Some cost =>
          if (List.length remainder <? 22)%nat then None
          else
            match decode_salt (firstn 22 remainder) with
            | Some raw_salt =>
                if (4 <=? cost) && (cost <=? 31)
                then Some (v, cost, encode_base64 raw_salt)
                else None
            | None => None
            end
      | _, _ => None
      end
  | _ => None
  end.

Fixpoint bytes_eqb (a b : bytes) : bool :=
  match a, b with
  | [], [] => true
  | x :: a', y :: b' => Byte.eqb x y && bytes_eqb a' b'
  | _, _ => false
  end.

Section Primitive.

(** Password, cost and salt text to the digest, as six-bit values. *)
Variable eksblowfish : bytes -> Z -> bytes -> list Z.

Definition digest_text (password : bytes) (cost : Z) (salt : bytes) : bytes :=
  List.map (fun i => b64_char (nth i (eksblowfish password cost salt) 0)) (seq 0 31).

(** [bcrypt.hashpw(password, salt)] on two [bytes]; [salt] may be a whole
    hash, of which the setting is used.  A password of more than 72 bytes
    and a salt that cannot be read are both a [ValueError]. *)
Definition hashpw_bytes (password salt : bytes) : result bytes :=
  if (72 <? List.length password)%nat then Raise ValueError
  else
    match parse_setting salt with
    | Some (v, cost, salt22) =>
        Ok (setting v cost salt22 ++ digest_text password cost salt22)%list
    | None => Raise ValueError
    end.

(** [bcrypt.hashpw]: anything but [bytes] is a [TypeError]. *)
Definition hashpw (password salt : pyval) : result bytes :=
  match password, salt with
  | VBytes p, VBytes s => hashpw_bytes p s
  | _, _ => Raise TypeError
  end.

(** [bcrypt.checkpw]: hash again under the setting of [hashed_password]
    and compare. *)
Definition checkpw (password hashed_password : pyval) : result bool :=
  match hashed_password with
  | VBytes h => h' ← hashpw password hashed_password; Ok (bytes_eqb h' h)
  | _ => Raise TypeError
  end.

End Primitive.

End Bcrypt.

Section Hasher.

Variable eksblowfish : bytes -> Z -> bytes -> list Z.

(** [urandom] is the randomness [bcrypt.gensalt] draws during the call. *)
Definition hash_password (urandom : bytes) (password : pyval) : result pyval :=
  salt ← Bcrypt.gensalt 12 urandom;
  encoded ← py_encode password;
  hashed ← Bcrypt.hashpw eksblowfish (VBytes encoded) (VBytes salt);
  text ← Utf8.decode hashed;
  Ok (VStr text).

(** [if isinstance(v, str): v = v.encode('utf-8')]. *)
Definition encode_if_str (v : pyval) : pyval :=
  match v with
  | VStr s => VBytes (Utf8.encode s)
  | _ => v
  end.

(** The whole body is inside [try]; what is returned comes with the lines
    printed on the way. *)
Definition verify_password (password hashed_password : pyval) : bool * list printed :=
  let password := encode_if_str password in
  let hashed_password := encode_if_str hashed_password in
  let out := [PasswordBytes password; HashBytes hashed_password] in
  match Bcrypt.checkpw eksblowfish password hashed_password with
  | Ok r => (r, out ++ [CheckpwResult r])%list
  | Raise e => (false, out ++ [VerificationError e])%list
  end.

(** The bytes [bcrypt.hashpw] returns for [password] under the salt made
    from [urandom]: what the properties below compare a hash with. *)
Definition hashed_bytes (urandom : bytes) (password : string) : bytes :=
  let salt := Bcrypt.encode_base64 (firstn 16 urandom) in
  (Bcrypt.setting (byte_of_ascii "b") 12 salt
   ++ Bcrypt.digest_text eksblowfish (Utf8.encode password) 12 salt)%list.

End Hasher.

(* ===================================================================== *)
(** ** ENCRYPTION KEY MANAGEMENT *)
(* ===================================================================== *)

(** The interface of [cryptography.fernet.Fernet], each operation a field:
    the cipher object, its constructor (a [ValueError] on a key that is not
    32 url-safe base-64 encoded bytes), [generate_key], [encrypt] (with the
    timestamp and initialisation vector it draws) and [decrypt] (an
    [InvalidToken] on a token it does not accept). *)
Record FernetLib := {
  Fernet : Type;
  Fernet_new : bytes -> result Fernet;
  Fernet_generate_key : bytes -> bytes;
  Fernet_encrypt : Fernet -> bytes -> bytes -> bytes;
  Fernet_decrypt : Fernet -> bytes -> result bytes
}.

Module EncryptionManager.

Section Cipher.

Variable lib : FernetLib.

(** An instance: [self.key] and [self.cipher]. *)
Record t := mk { key : bytes; cipher : Fernet lib }.

(** [__init__(self, key=None)]; [urandom] feeds [Fernet.generate_key]. *)
Definition init (urandom : bytes) (key_arg : pyval) : result t :=
  k ← match key_arg with
      | VNone => Ok (Fernet_generate_key lib urandom)
      | VBytes b => Ok b
      | v => py_encode v
      end;
  c ← Fernet_new lib k;
  Ok (mk k c).

(** [get_key(self)]: [self.key.decode()]. *)
Definition get_key (self : t) : result pyval :=
  text ← Utf8.decode (key self);
  Ok (VStr text).

(** [v is None or v == ""]. *)
Definition none_or_empty (v : pyval) : bool :=
  match v with
  | VNone => true
  | VStr s => String.eqb s ""
  | _ => false
  end.

(** [nonce] is the time and initialisation vector [Fernet.encrypt] draws. *)
Definition encrypt (self : t) (nonce : bytes) (plaintext : pyval) : result pyval :=
  if none_or_empty plaintext then Ok VNone
  else
    encoded ← py_encode plaintext;
    text ← Utf8.decode (Fernet_encrypt lib (cipher self) nonce encoded);
    Ok (VStr text).

(** The body of the [try]. *)
Definition decrypt_body (self : t) (ciphertext : pyval) : result pyval :=
  encoded ← py_encode ciphertext;
  plain ← Fernet_decrypt lib (cipher self) encoded;
  text ← Utf8.decode plain;
  Ok (VStr text).

Definition decrypt (self : t) (ciphertext : pyval) : result pyval * list printed :=
  if none_or_empty ciphertext then (Ok VNone, [])
  else
    match decrypt_body self ciphertext with
    | Ok v => (Ok v, [])
    | Raise e => (Ok VNone, [DecryptionError e])
    end.

End Cipher.

End EncryptionManager.

(* ===================================================================== *)
(** ** [str(v)] *)
(* ===================================================================== *)

Definition newline : ascii := Str.chr 10.
Definition dquote : ascii := Str.chr 34.
Definition backslash : ascii := Str.chr 92.

Module PyStr.

(** [repr] of one byte inside a bytes literal delimited by [quote]. *)
Definition repr_byte (quote : ascii) (b : byte) : string :=
  let c := ascii_of_byte b in
  let n := Utf8.Z_of_byte b in
  if Ascii.eqb c quote || Ascii.eqb c backslash then String backslash (String c "")
  else if n =? 9 then String backslash "t"
  else if n =? 10 then String backslash "n"
  else if n =? 13 then String backslash "r"
  else if (n <? 32) || (127 <=? n) then
    String backslash
      (String "x" (String (Md5.hex_digit (n / 16)) (String (Md5.hex_digit (n mod 16)) "")))
  else String c "".

Fixpoint repr_bytes_body (quote : ascii) (b : bytes) : string :=
  match b with
  | [] => ""
  | x :: b' => repr_byte quote x +:+ repr_bytes_body quote b'
  end.

Definition has_byte (c : ascii) (b : bytes) : bool :=
  existsb (fun x => Ascii.eqb (ascii_of_byte x) c) b.

(** [repr(b)]: single quotes, unless the bytes hold a single quote and no
    double quote. *)
Definition repr_bytes (b : bytes) : string :=
  let quote := if has_byte "'" b && negb (has_byte dquote b) then dquote else "'"%char in
  String "b" (String quote (repr_bytes_body quote b +:+ String quote "")).

(** The digits of [n], padded with zeros on the left to [width]. *)
Definition zero_padded (width : nat) (n : Z) : string :=
  let digits := decimal (Z.abs_N n) in
  Str.repeat "0" (width - String.length digits) +:+ digits.

(** [str(d)] on a datetime: [isoformat(sep=' ')]. *)
Definition str_datetime (d : datetime) : string :=
  zero_padded 4 (dt_year d) +:+ "-" +:+ zero_padded 2 (dt_month d) +:+ "-"
  +:+ zero_padded 2 (dt_day d) +:+ " " +:+ zero_padded 2 (dt_hour d) +:+ ":"
  +:+ zero_padded 2 (dt_minute d) +:+ ":" +:+ zero_padded 2 (dt_second d)
  +:+ (if dt_microsecond d =? 0 then "" else "." +:+ zero_padded 6 (dt_microsecond d)).

(** [str(v)], which is also what an f-string puts for [{v}]. *)
Definition str (v : pyval) : string :=
  match v with
  | VNone => "None"
  | VBool b => if b then "True" else "False"
  | VInt z => (if z <? 0 then "-" else "") +:+ decimal (Z.abs_N z)
  | VStr s => s
  | VBytes b => repr_bytes b
  | VDatetime d => str_datetime d
  end.

(** [s[:n]] for an integer [n], negative counting from the end. *)
Definition slice_to (n : Z) (s : string) : string :=
  if 0 <=? n then Str.take (Z.to_nat n) s
  else Str.take (String.length s - Z.to_nat (- n)) s.

End PyStr.

(* ===================================================================== *)
(** ** Regular expressions, as far as the two patterns of the source go *)
(* ===================================================================== *)

Module Re.

Inductive regex :=
| Empty                                   (* matches nothing *)
| Eps                                     (* the empty string *)
| Class (p : ascii -> bool)               (* [...] or one character *)
| Seq (r1 r2 : regex)
| Alt (r1 r2 : regex)
| Star (r : regex).

(** [r?], [r+], [r{n}], [r{0,n}], [r{m,n}] and [r{m,}]. *)
Definition Opt (r : regex) : regex := Alt r Eps.
Definition Plus (r : regex) : regex := Seq r (Star r).

Fixpoint Times (n : nat) (r : regex) : regex :=
  match n with
  | O => Eps
  | S n' => Seq r (Times n' r)
  end.

Fixpoint UpTo (n : nat) (r : regex) : regex :=
  match n with
  | O => Eps
  | S n' => Opt (Seq r (UpTo n' r))
  end.

Definition Between (m n : nat) (r : regex) : regex := Seq (Times m r) (UpTo (n - m) r).
Definition AtLeast (m : nat) (r : regex) : regex := Seq (Times m r) (Star r).

Definition Chr (c : ascii) : regex := Class (Ascii.eqb c).

Fixpoint nullable (r : regex) : bool :=
  match r with
  | Empty => false
  | Eps => true
  | Class _ => false
  | Seq r1 r2 => nullable r1 && nullable r2
  | Alt r1 r2 => nullable r1 || nullable r2
  | Star _ => true
  end.

(** What is left of [r] to match after the character [c]. *)
Fixpoint deriv (c : ascii) (r : regex) : regex :=
  match r with
  | Empty => Empty
  | Eps => Empty
  | Class p => if p c then Eps else Empty
  | Seq r1 r2 =>
      if nullable r1 then Alt (Seq (deriv c r1) r2) (deriv c r2)
      else Seq (deriv c r1) r2
  | Alt r1 r2 => Alt (deriv c r1) (deriv c r2)
  | Star r1 => Seq (deriv c r1) (Star r1)
  end.

(** Where [$] matches: at the end, and just before a newline that ends the
    string. *)
Definition at_end (s : string) : bool :=
  String.eqb s "" || String.eqb s (String newline "").

(** [bool(re.match('^' + r + '$', s))]: some way of matching [r] from the
    start of [s] stops where [$] matches. *)
Fixpoint match_dollar (r : regex) (s : string) : bool :=
  (nullable r && at_end s)
  || match s with
     | EmptyString => false
     | String c s' => match_dollar (deriv c r) s'
     end.

Definition in_range (lo hi : ascii) (c : ascii) : bool :=
  (Str.code lo <=? Str.code c) && (Str.code c <=? Str.code hi).

Definition one_of (chars : string) (c : ascii) : bool := Str.contains c chars.

End Re.

(* ===================================================================== *)
(** ** DATA VALIDATION *)
(* ===================================================================== *)

(** [[0-9]] *)
Definition class_digit (c : ascii) : bool := Re.in_range "0" "9" c.

(** [[a-zA-Z]] *)
Definition class_letter (c : ascii) : bool :=
  Re.in_range "a" "z" c || Re.in_range "A" "Z" c.

(** [[a-zA-Z0-9._%+-]] *)
Definition class_local (c : ascii) : bool :=
  class_letter c || class_digit c || Re.one_of "._%+-" c.

(** [[a-zA-Z0-9.-]] *)
Definition class_domain (c : ascii) : bool :=
  class_letter c || class_digit c || Re.one_of ".-" c.

(** [^\+?[0-9]{10,15}$] *)
Definition contact_pattern : Re.regex :=
  Re.Seq (Re.Opt (Re.Chr "+")) (Re.Between 10 15 (Re.Class class_digit)).

(** [^[a-zA-Z0-9._%+-]+@[a-zA-Z0-9.-]+\.[a-zA-Z]{2,}$] *)
Definition email_pattern : Re.regex :=
  Re.Seq (Re.Plus (Re.Class class_local))
    (Re.Seq (Re.Chr "@")
       (Re.Seq (Re.Plus (Re.Class class_domain))
          (Re.Seq (Re.Chr ".") (Re.AtLeast 2 (Re.Class class_letter))))).

(** [bool(re.match(pattern, v))]: [re] takes a [str] for a [str] pattern
    and refuses everything else with a [TypeError]. *)
Definition re_match (pattern : Re.regex) (v : pyval) : result bool :=
  match v with
  | VStr s => Ok (Re.match_dollar pattern s)
  | _ => Raise TypeError
  end.

Definition validate_contact (contact : pyval) : result bool :=
  if negb (truthy contact) then Ok false
  else re_match contact_pattern contact.

Definition validate_email (email : pyval) : result bool :=
  if negb (truthy email) then Ok false
  else re_match email_pattern email.

(** The class of the pattern of [re.sub]: the semicolon, the single and
    the double quote, and the backslash. *)
Definition class_dangerous (c : ascii) : bool :=
  Re.one_of (String ";" (String "'" (String dquote (String backslash "")))) c.

(** [max_length] is 500 when the caller leaves it out. *)
Definition sanitize_input (text : pyval) (max_length : Z) : string :=
  if negb (truthy text) then ""
  else
    let sanitized := Str.filter (fun c => negb (class_dangerous c)) (PyStr.str text) in
    PyStr.slice_to max_length sanitized.

(* ===================================================================== *)
(** ** DATA MASKING UTILITIES *)
(* ===================================================================== *)

(** [s.split()]: the runs of characters that are not whitespace. *)
Fixpoint split_whitespace (space : ascii -> bool) (s : string) : list string :=
  match s with
  | EmptyString => []
  | String c s' =>
      if space c then split_whitespace space s'
      else match s' with
           | EmptyString => [String c ""]
           | String c' _ =>
               if space c' then String c "" :: split_whitespace space s'
               else match split_whitespace space s' with
                    | w :: ws => String c w :: ws
                    | [] => [String c ""]
                    end
           end
  end.

(** Whitespace for [bytes.split()]: the six ASCII ones. *)
Definition is_ascii_space (c : ascii) : bool :=
  let n := Str.code c in
  (n =? 32) || ((9 <=? n) && (n <=? 13)).

(** [diagnosis.split()], each word as the value it is. *)
Definition py_split_whitespace (v : pyval) : result (list pyval) :=
  match v with
  | VStr s => Ok (List.map VStr (split_whitespace Str.is_space s))
  | VBytes b =>
      Ok (List.map (fun w => VBytes (list_byte_of_string w))
            (split_whitespace is_ascii_space (string_of_list_byte b)))
  | _ => Raise AttributeError
  end.

(** [mask_level == 'full'] *)
Definition is_full (mask_level : pyval) : bool :=
  match mask_level with
  | VStr s => String.eqb s "full"
  | _ => false
  end.

(** [mask_level] is ['partial'] when the caller leaves it out. *)
Definition mask_diagnosis (diagnosis mask_level : pyval) : result pyval :=
  if negb (truthy diagnosis) then Ok VNone
  else if is_full mask_level then Ok (VStr "***CONFIDENTIAL***")
  else
    words ← py_split_whitespace diagnosis;
    if (1 <? List.length words)%nat then
      first ← list_index words 0;
      Ok (VStr (PyStr.str first +:+ " ***"))
    else Ok diagnosis.

(** [secrets.token_hex(n)] on the [n] bytes it draws. *)
Definition token_hex (token : bytes) : string := Md5.hex (List.map Utf8.Z_of_byte token).

(** [token] is the four bytes [secrets.token_hex(4)] draws; [prefix] is
    ["PATIENT"] when the caller leaves it out. *)
Definition generate_anonymous_id (token : bytes) (prefix : pyval) : string :=
  let random_suffix := Str.upper (token_hex token) in
  PyStr.str prefix +:+ "_" +:+ random_suffix.

(* ===================================================================== *)
(** ** GDPR UTILITIES: [calculate_retention_date] *)
(* ===================================================================== *)

(** [datetime.now() + timedelta(days=days)]: the calendar arithmetic of the
    [datetime] module, on the proleptic Gregorian ordinal of a day
    (1 January of year 1 is day 1). *)
Module Calendar.

Definition MAXORDINAL : Z := 3652059.

Definition DAYS_IN_MONTH : list Z := [-1; 31; 28; 31; 30; 31; 30; 31; 31; 30; 31; 30; 31].

Definition DAYS_BEFORE_MONTH : list Z :=
  [-1; 0; 31; 59; 90; 120; 151; 181; 212; 243; 273; 304; 334].

(** [table[i]] for an index the callers keep from 1 to 12. *)
Definition item (table : list Z) (i : Z) : Z := nth (Z.to_nat i) table 0.

Definition days_before_year (year : Z) : Z :=
  let y := year - 1 in
  y * 365 + y / 4 - y / 100 + y / 400.

(** A [bool] added to an [int]. *)
Definition int_of_bool (b : bool) : Z := if b then 1 else 0.

Definition days_before_month (year month : Z) : Z :=
  item DAYS_BEFORE_MONTH month + int_of_bool ((2 <? month) && Strptime.is_leap year).

Definition ymd2ord (year month day : Z) : Z :=
  days_before_year year + days_before_month year month + day.

Definition DI400Y : Z := 146097.
Definition DI100Y : Z := 36524.
Definition DI4Y : Z := 1461.

(** The end of [_ord2ymd]: month and day from the offset [n] in the year. *)
Definition month_and_day (leapyear : bool) (n : Z) : Z * Z :=
  let month := Z.shiftr (n + 50) 5 in
  let preceding := item DAYS_BEFORE_MONTH month + int_of_bool ((2 <? month) && leapyear) in
  if n <? preceding then
    let month' := month - 1 in
    let preceding' :=
      preceding - (item DAYS_IN_MONTH month' + int_of_bool ((month' =? 2) && leapyear)) in
    (month', n - preceding' + 1)
  else (month, n - preceding + 1).

Definition ord2ymd (ordinal : Z) : Z * Z * Z :=
  let n := ordinal - 1 in
  let n400 := n / DI400Y in
  let n := n mod DI400Y in
  let year := n400 * 400 + 1 in
  let n100 := n / DI100Y in
  let n := n mod DI100Y in
  let n4 := n / DI4Y in
  let n := n mod DI4Y in
  let n1 := n / 365 in
  let n := n mod 365 in
  let year := year + (n100 * 100 + n4 * 4 + n1) in
  if (n1 =? 4) || (n100 =? 4) then (year - 1, 12, 31)
  else
    let leapyear := (n1 =? 3) && (negb (n4 =? 24) || (n100 =? 3)) in
    let '(month, day) := month_and_day leapyear n in
    (year, month, day).

Definition toordinal (d : datetime) : Z :=
  ymd2ord (dt_year d) (dt_month d) (dt_day d).

(** A [timedelta] is normalised to days, seconds below 86400 and
    microseconds below a million. *)
Definition timedelta (days hours minutes seconds microseconds : Z) : Z * Z * Z :=
  let s := hours * 3600 + minutes * 60 + seconds + microseconds / 1000000 in
  (days + s / 86400, s mod 86400, microseconds mod 1000000).

(** What date arithmetic gives: a [datetime], or the [OverflowError] it
    raises when the result leaves the years 1 to 9999 (or [days] the range
    of a [timedelta]). *)
Inductive outcome :=
| InRange (d : datetime)
| OverflowError.

(** [self + timedelta(days=days)]. *)
Definition add_days (self : datetime) (days : Z) : outcome :=
  if 999999999 <? Z.abs days then OverflowError
  else
    let '(d, s, us) :=
      timedelta (toordinal self) (dt_hour self) (dt_minute self) (dt_second self)
        (dt_microsecond self) in
    let d := d + days in
    let hour := s / 3600 in
    let rem := s mod 3600 in
    let minute := rem / 60 in
    let second := rem mod 60 in
    if (0 <? d) && (d <=? MAXORDINAL) then
      let '(y, m, dd) := ord2ymd d in
      InRange (mkDatetime y m dd hour minute second us)
    else OverflowError.

End Calendar.

(** [now] is what [datetime.now()] reads from the clock; [days] is an
    [int] (365 when the caller passes nothing). *)
Definition calculate_retention_date (now : datetime) (days : Z) : Calendar.outcome :=
  Calendar.add_days now days.

(* ===================================================================== *)
(** ** Predicates the properties are stated with *)
(* ===================================================================== *)

(** A [str], or a value [not v] accepts ([None], [False], [0], [b""]): the
    values on which a field masker returns without calling a [str] method
    on something that has none. *)
Definition str_or_falsy (v : pyval) : bool :=
  match v with
  | VStr _ => true
  | _ => negb (truthy v)
  end.

(** [f] returns (does not raise) on the field [key] of [rec], if present. *)
Definition returns_on (rec : record) (key : string) (f : pyval -> result pyval) : Prop :=
  ∀ v, rec !! key = Some v → is_ok (f v) = true.

(** A byte as a number. *)
Definition is_octet (z : Z) : Prop := 0 <= z < 256.

(** The field [key] of the result [r'] is what [f] returns on the field of
    the input [rec]; a field the input lacks is still missing. *)
Definition replaced_by (rec r' : record) (key : string) (f : pyval -> result pyval) : Prop :=
  match rec !! key with
  | Some v => ∃ v', f v = Ok v' ∧ r' !! key = Some v'
  | None => r' !! key = None
  end.

(** What a doctor sees in place of the name, in the words of the
    specification: the record's [anonymized_name] if it has one, otherwise
    [anonymize_name(name)]. *)
Definition name_for_doctor (rec : record) (name : pyval) : result pyval :=
  match rec !! "anonymized_name" with
  | Some a => Ok a
  | None => anonymize_name name VNone
  end.

(** A stand-in for the key schedule, to run the hasher on concrete input:
    the digest is drawn from the password bytes. *)
Definition sample_eksblowfish (password : bytes) (cost : Z) (salt : bytes) : list Z :=
  List.map Utf8.Z_of_byte (password ++ salt)%list.

Definition sample_urandom_1 : bytes := List.repeat (Utf8.byte_of_Z 0) 16.
Definition sample_urandom_2 : bytes := List.repeat (Utf8.byte_of_Z 255) 16.

(** A password of 73 bytes. *)
Definition sample_long_password : string := Str.repeat "a" 73.

(** What the documentation of [Fernet] promises and the properties below
    rely on: a token decrypts to its message under the key that made it;
    tokens are url-safe base-64 text, so ASCII and never empty; a token made
    under another key is refused. *)
Record FernetLaws (lib : FernetLib) : Prop := {
  fernet_roundtrip : ∀ f nonce m,
    Fernet_decrypt lib f (Fernet_encrypt lib f nonce m) = Ok m;
  fernet_token_ascii : ∀ f nonce m,
    forallb Utf8.is_ascii (Fernet_encrypt lib f nonce m) = true;
  fernet_token_nonempty : ∀ f nonce m,
    Fernet_encrypt lib f nonce m ≠ [];
  fernet_wrong_key : ∀ f f' nonce m, f ≠ f' →
    Fernet_decrypt lib f' (Fernet_encrypt lib f nonce m) = Raise InvalidToken
}.

(** An instance of the interface that satisfies the laws, to run the
    manager on concrete input: two keys, a token being the key's letter
    followed by the message, two letters per byte. *)
Module SampleFernet.

Definition letter (z : Z) : byte := Utf8.byte_of_Z (65 + z).

Definition value (b : byte) : Z := Utf8.Z_of_byte b - 65.

Fixpoint armour (m : bytes) : bytes :=
  match m with
  | [] => []
  | x :: m' =>
      letter (Utf8.Z_of_byte x / 16) :: letter (Utf8.Z_of_byte x mod 16) :: armour m'
  end.

Fixpoint unarmour (t : bytes) : result bytes :=
  match t with
  | [] => Ok []
  | h :: l :: t' =>
      m ← unarmour t'; Ok (Utf8.byte_of_Z (16 * value h + value l) :: m)
  | [_] => Raise InvalidToken
  end.

Definition tag (f : bool) : byte := if f then letter 0 else letter 1.

Definition new (k : bytes) : result bool :=
  match k with
  | [] => Raise ValueError
  | b :: _ => Ok (Utf8.is_ascii b)
  end.

Definition enc (f : bool) (nonce m : bytes) : bytes := tag f :: armour m.

Definition dec (f : bool) (t : bytes) : result bytes :=
  match t with
  | b :: t' => if Byte.eqb b (tag f) then unarmour t' else Raise InvalidToken
  | [] => Raise InvalidToken
  end.

Definition lib : FernetLib :=
  {| Fernet := bool; Fernet_new := new; Fernet_generate_key := fun u => u;
     Fernet_encrypt := enc; Fernet_decrypt := dec |}.

Definition manager (f : bool) : EncryptionManager.t lib :=
  EncryptionManager.mk lib [tag f] f.

End SampleFernet.

(* ===================================================================== *)
(** ** Predicates on strings *)
(* ===================================================================== *)

(** The string of one newline. *)
Definition nl : string := String newline "".

(** The strings a regular expression matches in full. *)
Inductive lang : Re.regex -> string -> Prop :=
| lang_eps : lang Re.Eps ""
| lang_class p c : p c = true → lang (Re.Class p) (String c "")
| lang_seq r1 r2 s1 s2 : lang r1 s1 → lang r2 s2 → lang (Re.Seq r1 r2) (s1 +:+ s2)
| lang_alt_l r1 r2 s : lang r1 s → lang (Re.Alt r1 r2) s
| lang_alt_r r1 r2 s : lang r2 s → lang (Re.Alt r1 r2) s
| lang_star_nil r : lang (Re.Star r) ""
| lang_star_cons r s1 s2 : lang r s1 → lang (Re.Star r) s2 → lang (Re.Star r) (s1 +:+ s2).

(** A digit of upper-case hexadecimal. *)
Definition is_upper_hex (c : ascii) : bool := Re.one_of "0123456789ABCDEF" c.

(** The bytes an upper-case hexadecimal text stands for. *)
Fixpoint hex_values (s : string) : list Z :=
  match s with
  | String h (String l s') =>
      16 * Bcrypt.index_in h "0123456789ABCDEF" + Bcrypt.index_in l "0123456789ABCDEF"
      :: hex_values s'
  | _ => []
  end.

(** The number a string of decimal digits stands for. *)
Fixpoint digits_value_from (acc : Z) (s : string) : Z :=
  match s with
  | EmptyString => acc
  | String c s' => digits_value_from (10 * acc + (Str.code c - 48)) s'
  end.

Definition digits_value (s : string) : Z := digits_value_from 0 s.

(** A calendar date at midnight, as [datetime] accepts it. *)
Definition valid_midnight (d : datetime) : Prop :=
  1 <= dt_year d <= 9999 ∧ 1 <= dt_month d <= 12
  ∧ 1 <= dt_day d <= Strptime.days_in_month (dt_year d) (dt_month d)
  ∧ dt_hour d = 0 ∧ dt_minute d = 0 ∧ dt_second d = 0 ∧ dt_microsecond d = 0.

(** The decimal digits, and a test run on every number from 0 to 9999,
    taken digit by digit. *)
Definition decimal_digits : list Z := [0; 1; 2; 3; 4; 5; 6; 7; 8; 9].

Definition all_four_digits (f : Z -> bool) : bool :=
  forallb (fun a =>
    forallb (fun b =>
      forallb (fun c =>
        forallb (fun d => f (1000 * a + 100 * b + 10 * c + d)) decimal_digits)
        decimal_digits)
      decimal_digits)
    decimal_digits.

(** [d.strftime('%Y-%m-%d')] for a date whose year has four digits: the
    text [strptime] is given to read back. *)
Definition two_decimals (n : Z) : string :=
  String (Str.chr (48 + n / 10)) (String (Str.chr (48 + n mod 10)) "").

Definition iso_date (y m d : Z) : string :=
  format_04d_int y +:+ "-" +:+ two_decimals m +:+ "-" +:+ two_decimals d.

(** Midnight of a day. *)
Definition midnight (y m d : Z) : datetime := mkDatetime y m d 0 0 0 0.

(** The integers [lo], [lo + 1], ..., [lo + n - 1]. *)
Definition Z_range (lo : Z) (n : nat) : list Z :=
  List.map (fun i => lo + Z.of_nat i) (seq 0 n).

(** A [datetime] that exists: a day of the calendar and a time of day. *)
Definition valid_date (y m d : Z) : Prop :=
  1 <= y <= 9999 ∧ 1 <= m <= 12 ∧ 1 <= d <= Strptime.days_in_month y m.

Definition valid_datetime (d : datetime) : Prop :=
  valid_date (dt_year d) (dt_month d) (dt_day d)
  ∧ 0 <= dt_hour d < 24 ∧ 0 <= dt_minute d < 60 ∧ 0 <= dt_second d < 60
  ∧ 0 <= dt_microsecond d < 1000000.

(** The time of day of a [datetime]. *)
Definition time_of_day (d : datetime) : list Z :=
  [dt_hour d; dt_minute d; dt_second d; dt_microsecond d].

(** Every character of [s] satisfies [p]. *)
Fixpoint str_all (p : ascii -> bool) (s : string) : bool :=
  match s with
  | EmptyString => true
  | String c s' => p c && str_all p s'
  end.

(** [s] has no character [c]. *)
Definition str_lacks (c : ascii) (s : string) : Prop := Str.contains c s = false.

(* ===================================================================== *)
(** * Properties *)
(* ===================================================================== *)

(** ** The examples of the docstrings and of the specification, run *)

Example mask_contact_ex1 : mask_contact (VStr "+923001234567") = Ok (VStr "XXX-XXX-4567").
Proof. reflexivity. Qed.
Example mask_contact_ex2 : mask_contact (VStr "12") = Ok (VStr "XXX-XXX-XXXX").
Proof. reflexivity. Qed.
Example mask_email_ex1 : mask_email (VStr "john.doe@email.com") = Ok (VStr "j*******@email.com").
Proof. reflexivity. Qed.
Example mask_email_ex2 : mask_email (VStr "jo@x.com") = Ok (VStr "j*@x.com").
Proof. reflexivity. Qed.
Example mask_email_ex3 : mask_email (VStr "no-at-sign") = Ok VNone.
Proof. reflexivity. Qed.
Example anonymize_address_ex1 : anonymize_address (VStr "123 Main St, Karachi") = Ok (VStr "*****, Karachi").
Proof. reflexivity. Qed.
Example anonymize_address_ex2 : anonymize_address (VStr "NoCommaHere") = Ok (VStr "*****").
Proof. reflexivity. Qed.
Example md5_empty : Md5.hexdigest [] = "d41d8cd98f00b204e9800998ecf8427e".
Proof. vm_compute. reflexivity. Qed.
Example md5_abc : Md5.hexdigest (Utf8.encode "abc") = "900150983cd24fb0d6963f7d28e17f72".
Proof. vm_compute. reflexivity. Qed.
Example md5_john : Md5.hexdigest (Utf8.encode "John Doe") = "4c2a904bafba06591225113ad17b5cec".
Proof. vm_compute. reflexivity. Qed.
Example md5_x55 : Md5.hexdigest (Utf8.encode (Str.repeat "x" 55)) = "04364420e25c512fd958a70738aa8f72".
Proof. vm_compute. reflexivity. Qed.
Example md5_x56 : Md5.hexdigest (Utf8.encode (Str.repeat "x" 56)) = "668a72d5ba17f08e62dabcafad6db14b".
Proof. vm_compute. reflexivity. Qed.
Example md5_x120 : Md5.hexdigest (Utf8.encode (Str.repeat "x" 120)) = "fb98667f98096de92620b64f46e1c5b5".
Proof. vm_compute. reflexivity. Qed.
Example md5_e_acute : Md5.hexdigest (Utf8.encode (String (Str.chr 233) "")) = "66ddcd97cfdeabb2f6fb8a999b4bc76f".
Proof. vm_compute. reflexivity. Qed.
Example anonymize_name_ex1 : anonymize_name (VStr "John Doe") (VInt 1021) = Ok (VStr "ANON_1021").
Proof. reflexivity. Qed.
Example anonymize_name_ex2 : anonymize_name (VStr "John Doe") (VInt 7) = Ok (VStr "ANON_0007").
Proof. reflexivity. Qed.
Example anonymize_name_ex3 : anonymize_name (VStr "John Doe") VNone = Ok (VStr "ANON_4C2A904B").
Proof. vm_compute. reflexivity. Qed.
Example format_04d_int_neg : format_04d_int (-5) = "-005".
Proof. reflexivity. Qed.
Example format_04d_int_wide : format_04d_int 12345 = "12345".
Proof. reflexivity. Qed.
Example strptime_ex1 : Strptime.strptime "2024-01-05" = Ok (mkDatetime 2024 1 5 0 0 0 0).
Proof. reflexivity. Qed.
Example strptime_ex2 : Strptime.strptime "2024-1-5" = Ok (mkDatetime 2024 1 5 0 0 0 0).
Proof. reflexivity. Qed.
Example strptime_ex3 : Strptime.strptime "2024-01- 5" = Ok (mkDatetime 2024 1 5 0 0 0 0).
Proof. reflexivity. Qed.
Example strptime_ex4 : Strptime.strptime "2024-10-1" = Ok (mkDatetime 2024 10 1 0 0 0 0).
Proof. reflexivity. Qed.
Example strptime_ex5 : Strptime.strptime "2024-02-29" = Ok (mkDatetime 2024 2 29 0 0 0 0).
Proof. reflexivity. Qed.
Example strptime_ex6 :
  List.map Strptime.strptime
    ["2024-13-01"; "2024-02-30"; "2023-02-29"; "0000-01-01"; "2024-01-32";
     "2024-01-311"; " 2024-01-01"; "2024-01-01 "; "2024-00-01"; "2024-01-00";
     "2024-001-01"; "24-01-01"; "2024-4-31"; "1900-02-29"; "2024-01-5x"; ""]
  = List.repeat (Raise ValueError) 16.
Proof. reflexivity. Qed.

(* ===================================================================== *)
(** ** Results and truth values *)
(* ===================================================================== *)

(** Case analysis on the condition of the first [if] of the goal. *)
Ltac case_if :=
  match goal with
  | |- context [if ?b then _ else _] => destruct b eqn:?
  end.

Lemma bind_Ok {A B} (f : A -> result B) (a : A) : (Ok a ≫= f) = f a.
Proof. reflexivity. Qed.

Lemma bind_Raise {A B} (f : A -> result B) (e : exn) : (Raise e ≫= f) = Raise e.
Proof. reflexivity. Qed.

Lemma is_ok_true {A} (r : result A) : is_ok r = true ↔ ∃ a, r = Ok a.
Proof.
  destruct r as [a|e]; simpl; split.
  - intros _. by exists a.
  - done.
  - done.
  - intros [a Ha]. discriminate.
Qed.

Lemma truthy_VStr (s : string) : truthy (VStr s) = true ↔ s ≠ "".
Proof.
  simpl. destruct (String.eqb_spec s ""); simpl; split; congruence.
Qed.

(* ===================================================================== *)
(** ** When the field maskers return *)
(* ===================================================================== *)

Lemma split_not_nil (sep : ascii) (s : string) : Str.split sep s ≠ [].
Proof.
  induction s as [|c s IH]; simpl; [done|].
  destruct (Ascii.eqb c sep); [done|].
  destruct (Str.split sep s); done.
Qed.

Lemma split_head_sep (sep : ascii) (s : string) :
  Str.split sep (String sep s) = EmptyString :: Str.split sep s.
Proof. simpl. by rewrite Ascii.eqb_refl. Qed.

(** [mask_contact] returns on a [str] and on every falsy value. *)
Lemma mask_contact_returns (v : pyval) :
  is_ok (mask_contact v) = str_or_falsy v.
Proof.
  unfold mask_contact, str_or_falsy.
  destruct v as [|b|z|s|b|d]; simpl; try done.
  - by destruct b.
  - by destruct (z =? 0).
  - destruct (String.eqb s ""); simpl; [done|].
    by case_if.
  - by destruct b.
Qed.

Lemma list_last_not_nil {A} (l : list A) : l ≠ [] → ∃ x, list_last l = Ok x.
Proof.
  intros Hl. unfold list_last.
  destruct (List.rev l) as [|x r] eqn:E.
  - apply (f_equal (@List.rev A)) in E. rewrite List.rev_involutive in E. done.
  - by exists x.
Qed.

(** [anonymize_address] returns on a [str] and on every falsy value. *)
Lemma anonymize_address_returns (v : pyval) :
  is_ok (anonymize_address v) = str_or_falsy v.
Proof.
  unfold anonymize_address, str_or_falsy.
  destruct v as [|b|z|s|b|d]; simpl; try done.
  - by destruct b.
  - by destruct (z =? 0).
  - destruct (String.eqb s ""); simpl; [done|].
    case_if; [|done].
    destruct (list_last_not_nil (Str.split "," s) (split_not_nil _ _)) as [x ->].
    done.
  - by destruct b.
Qed.

(** [anonymize_name] without an identifier returns on a [str] and on every
    falsy value. *)
Lemma anonymize_name_returns (v : pyval) :
  is_ok (anonymize_name v VNone) = str_or_falsy v.
Proof.
  unfold anonymize_name, str_or_falsy.
  destruct v as [|b|z|s|b|d]; simpl; try done.
  - by destruct b.
  - by destruct (z =? 0).
  - by destruct (String.eqb s "").
  - by destruct b.
Qed.

(** An address with an empty local part: [username[0]] is out of range. *)
Lemma mask_email_empty_local_part (domain : string) :
  mask_email (VStr (String "@" domain)) = Raise IndexError.
Proof.
  unfold mask_email. simpl.
  destruct (Str.split "@" domain) as [|p ps] eqn:E.
  - by destruct (split_not_nil "@" domain).
  - reflexivity.
Qed.

(* ===================================================================== *)
(** ** Role-based masking *)
(* ===================================================================== *)

Lemma update_if_present_frame key f (m m' : record) :
  update_if_present key f m = Ok m' → ∀ k, k ≠ key → m' !! k = m !! k.
Proof.
  unfold update_if_present. intros H k Hk.
  destruct (m !! key) as [v|]; [|congruence].
  destruct (f v) as [v'|e]; simpl in H; [|discriminate].
  injection H as <-. by rewrite lookup_insert_ne.
Qed.

Lemma update_if_present_field key f (m m' : record) :
  update_if_present key f m = Ok m' → replaced_by m m' key f.
Proof.
  unfold update_if_present, replaced_by. intros H.
  destruct (m !! key) as [v|] eqn:E; [|congruence].
  destruct (f v) as [v'|e]; simpl in H; [|discriminate].
  injection H as <-. exists v'. by rewrite lookup_insert_eq.
Qed.

Lemma update_if_present_returns key f (m : record) :
  returns_on m key f → ∃ m', update_if_present key f m = Ok m'.
Proof.
  unfold update_if_present, returns_on. intros H.
  destruct (m !! key) as [v|]; [|by eexists].
  destruct (proj1 (is_ok_true (f v)) (H v eq_refl)) as [v' ->]. by eexists.
Qed.

Lemma returns_on_frame key f (m m' : record) :
  m' !! key = m !! key → returns_on m key f → returns_on m' key f.
Proof. unfold returns_on. intros ->. done. Qed.

Lemma get_anonymized_name_spec (rec : record) (name v : pyval) :
  get_anonymized_name rec name = Ok v → name_for_doctor rec name = Ok v.
Proof.
  unfold get_anonymized_name, name_for_doctor.
  destruct (anonymize_name name VNone) as [fb|e]; simpl; [|discriminate].
  by destruct (rec !! "anonymized_name").
Qed.

Lemma get_anonymized_name_returns (rec : record) (name : pyval) :
  is_ok (get_anonymized_name rec name) = is_ok (anonymize_name name VNone).
Proof.
  unfold get_anonymized_name. by destruct (anonymize_name name VNone).
Qed.

Lemma mask_sensitive_data_doctor (rec : record) :
  mask_sensitive_data rec "doctor" =
    (m1 ← update_if_present "name" (get_anonymized_name rec) rec;
     m2 ← update_if_present "contact" mask_contact m1;
     m3 ← update_if_present "email" mask_email m2;
     Ok m3).
Proof. reflexivity. Qed.

Lemma mask_sensitive_data_receptionist (rec : record) :
  mask_sensitive_data rec "receptionist" =
    (m1 ← update_if_present "diagnosis" (fun _ => Ok (VStr "***RESTRICTED***")) rec;
     m2 ← update_if_present "address" anonymize_address m1;
     Ok m2).
Proof. reflexivity. Qed.

(** C1. For the role [admin] the record comes back as it went in.  For the
    role [receptionist] and a record with a [diagnosis] field, the record
    that comes back holds the constant ["***RESTRICTED***"] there, whatever
    the diagnosis was; and the call does come back with a record whenever
    [anonymize_address] returns on the record's [address], that is whenever
    the address is a [str] or falsy ([anonymize_address_returns]). *)
Theorem mask_admin_unchanged_receptionist_redacts (rec : record) :
  mask_sensitive_data rec "admin" = Ok rec
  ∧ (is_Some (rec !! "diagnosis") →
       (∀ r', mask_sensitive_data rec "receptionist" = Ok r' →
              r' !! "diagnosis" = Some (VStr "***RESTRICTED***"))
       ∧ (returns_on rec "address" anonymize_address →
          ∃ r', mask_sensitive_data rec "receptionist" = Ok r'
                ∧ r' !! "diagnosis" = Some (VStr "***RESTRICTED***"))).
Proof.
  split; [reflexivity|].
  intros [d Hd].
  assert (Hfirst : ∀ r', mask_sensitive_data rec "receptionist" = Ok r' →
                         r' !! "diagnosis" = Some (VStr "***RESTRICTED***")).
  { intros r'. rewrite mask_sensitive_data_receptionist.
    destruct (update_if_present "diagnosis" _ rec) as [m1|e] eqn:E1; simpl; [|discriminate].
    destruct (update_if_present "address" _ m1) as [m2|e] eqn:E2; simpl; [|discriminate].
    intros [= <-].
    rewrite (update_if_present_frame _ _ _ _ E2) by done.
    apply update_if_present_field in E1. unfold replaced_by in E1.
    rewrite Hd in E1. destruct E1 as (v' & [= <-] & ->). done. }
  split; [exact Hfirst|].
  intros Haddr.
  destruct (update_if_present_returns "diagnosis" (fun _ => Ok (VStr "***RESTRICTED***")) rec)
    as [m1 E1]; [by intros v _|].
  destruct (update_if_present_returns "address" anonymize_address m1) as [m2 E2].
  { eapply returns_on_frame; [|exact Haddr].
    by apply (update_if_present_frame _ _ _ _ E1). }
  assert (E : mask_sensitive_data rec "receptionist" = Ok m2).
  { rewrite mask_sensitive_data_receptionist, E1. simpl. by rewrite E2. }
  exists m2. split; [exact E|]. by apply Hfirst.
Qed.

Lemma mask_admin_unchanged_receptionist_redacts_witness :
  is_Some (sample_patient !! "diagnosis")
  ∧ ∃ r', mask_sensitive_data sample_patient "receptionist" = Ok r'
          ∧ r' !! "diagnosis" = Some (VStr "***RESTRICTED***").
Proof.
  assert (Hd : is_Some (sample_patient !! "diagnosis")).
  { exists (VStr "Hypertension"). reflexivity. }
  split; [exact Hd|].
  apply (proj2 (proj2 (mask_admin_unchanged_receptionist_redacts sample_patient) Hd)).
  intros v Hv. vm_compute in Hv. injection Hv as <-. reflexivity.
Defined.

(** C9. For the role [doctor], the record that comes back agrees with the
    input on every field other than [name], [contact] and [email] (so on
    [diagnosis] and [blood_group]); its [name] is the input's
    [anonymized_name] if the input has that field and [anonymize_name(name)]
    otherwise, its [contact] is [mask_contact(contact)] and its [email] is
    [mask_email(email)].  The call comes back with a record whenever the
    three maskers return on the fields the record has. *)
Theorem mask_doctor_frame_and_fields (rec : record) :
  (∀ r', mask_sensitive_data rec "doctor" = Ok r' →
     (∀ k, k ≠ "name" → k ≠ "contact" → k ≠ "email" → r' !! k = rec !! k)
     ∧ r' !! "diagnosis" = rec !! "diagnosis"
     ∧ r' !! "blood_group" = rec !! "blood_group"
     ∧ replaced_by rec r' "name" (name_for_doctor rec)
     ∧ replaced_by rec r' "contact" mask_contact
     ∧ replaced_by rec r' "email" mask_email)
  ∧ (returns_on rec "name" (fun n => anonymize_name n VNone) →
     returns_on rec "contact" mask_contact →
     returns_on rec "email" mask_email →
     ∃ r', mask_sensitive_data rec "doctor" = Ok r').
Proof.
  split.
  - intros r'. rewrite mask_sensitive_data_doctor.
    destruct (update_if_present "name" _ rec) as [m1|e] eqn:E1; simpl; [|discriminate].
    destruct (update_if_present "contact" _ m1) as [m2|e] eqn:E2; simpl; [|discriminate].
    destruct (update_if_present "email" _ m2) as [m3|e] eqn:E3; simpl; [|discriminate].
    intros [= <-].
    pose proof (update_if_present_frame _ _ _ _ E1) as F1.
    pose proof (update_if_present_frame _ _ _ _ E2) as F2.
    pose proof (update_if_present_frame _ _ _ _ E3) as F3.
    assert (Hframe : ∀ k, k ≠ "name" → k ≠ "contact" → k ≠ "email" → m3 !! k = rec !! k).
    { intros k Hn Hc He. by rewrite F3, F2, F1. }
    split; [exact Hframe|].
    split; [by apply Hframe|].
    split; [by apply Hframe|].
    split; [|split].
    + apply update_if_present_field in E1. unfold replaced_by in *.
      rewrite F3, F2 by done.
      destruct (rec !! "name") as [n|]; [|done].
      destruct E1 as (v' & Hv' & ->). exists v'. split; [|done].
      by apply get_anonymized_name_spec.
    + apply update_if_present_field in E2. unfold replaced_by in *.
      rewrite F3 by done. by rewrite F1 in E2.
    + apply update_if_present_field in E3. unfold replaced_by in *.
      by rewrite F2, F1 in E3.
  - intros Hn Hc He. rewrite mask_sensitive_data_doctor.
    destruct (update_if_present_returns "name" (get_anonymized_name rec) rec) as [m1 E1].
    { intros v Hv. rewrite get_anonymized_name_returns. by apply Hn. }
    pose proof (update_if_present_frame _ _ _ _ E1) as F1.
    destruct (update_if_present_returns "contact" mask_contact m1) as [m2 E2].
    { eapply returns_on_frame; [|exact Hc]. by apply F1. }
    pose proof (update_if_present_frame _ _ _ _ E2) as F2.
    destruct (update_if_present_returns "email" mask_email m2) as [m3 E3].
    { eapply returns_on_frame; [|exact He]. by rewrite F2, F1. }
    exists m3. rewrite E1. simpl. rewrite E2. simpl. by rewrite E3.
Qed.

Lemma mask_doctor_frame_and_fields_witness :
  ∃ r', mask_sensitive_data sample_patient "doctor" = Ok r'.
Proof.
  apply (proj2 (mask_doctor_frame_and_fields sample_patient)).
  - intros v Hv. vm_compute in Hv. injection Hv as <-. vm_compute. reflexivity.
  - intros v Hv. vm_compute in Hv. injection Hv as <-. reflexivity.
  - intros v Hv. vm_compute in Hv. injection Hv as <-. reflexivity.
Defined.

(** C10. A role other than [admin], [doctor] and [receptionist] (["nurse"],
    the empty string) gets the record with every field as it was: nothing is
    masked. *)
Theorem mask_unrecognized_role_unmasked (rec : record) (role : string) :
  role ≠ "admin" → role ≠ "doctor" → role ≠ "receptionist" →
  mask_sensitive_data rec role = Ok rec.
Proof.
  intros Ha Hd Hr. unfold mask_sensitive_data.
  destruct (String.eqb_spec role "admin"); [done|].
  destruct (String.eqb_spec role "doctor"); [done|].
  destruct (String.eqb_spec role "receptionist"); [done|].
  reflexivity.
Qed.

Lemma mask_unrecognized_role_unmasked_witness :
  mask_sensitive_data sample_patient "nurse" = Ok sample_patient
  ∧ mask_sensitive_data sample_patient "" = Ok sample_patient.
Proof.
  split; apply mask_unrecognized_role_unmasked; discriminate.
Defined.

(* ===================================================================== *)
(** ** Retention expiry *)
(* ===================================================================== *)

Lemma lex_ltb_irrefl (l : list Z) : lex_ltb l l = false.
Proof.
  induction l as [|x l IH]; simpl; [done|].
  by rewrite Z.ltb_irrefl, Z.eqb_refl, IH.
Qed.

Lemma dt_ltb_irrefl (d : datetime) : dt_ltb d d = false.
Proof. apply lex_ltb_irrefl. Qed.

Lemma dt_leb_refl (d : datetime) : dt_leb d d = true.
Proof. unfold dt_leb. by rewrite dt_ltb_irrefl. Qed.

(** On a [datetime] the check is the strict comparison [now > deadline]. *)
Lemma check_retention_expired_datetime (now d : datetime) :
  check_retention_expired now (VDatetime d) = Ok (dt_ltb d now).
Proof. reflexivity. Qed.

(** A date string that [strptime] rejects leaves the function as a
    [ValueError]. *)
Lemma check_retention_expired_malformed (now : datetime) :
  check_retention_expired now (VStr "not-a-date") = Raise ValueError.
Proof. reflexivity. Qed.

(** C2. A deadline equal to the current time is reported as not expired:
    the check computes [now > deadline], which is false at [deadline = now],
    where the claim ([deadline <= now]) asks for expired. *)
Theorem retention_deadline_now_not_expired (now : datetime) :
  dt_leb now now = true
  ∧ check_retention_expired now (VDatetime now) = Ok false.
Proof.
  split; [apply dt_leb_refl|].
  by rewrite check_retention_expired_datetime, dt_ltb_irrefl.
Qed.

(* ===================================================================== *)
(** ** Malformed input *)
(* ===================================================================== *)

(** C3. [mask_email] on ["@domain.com"] does not return: the local part is
    empty, and [username[0]] raises [IndexError] out of the function. *)
Theorem mask_email_at_domain_raises :
  mask_email (VStr "@domain.com") = Raise IndexError.
Proof. apply mask_email_empty_local_part. Qed.

(* ===================================================================== *)
(** ** Name anonymization *)
(* ===================================================================== *)

(** The identifier 0 is falsy, so the function takes the branch it takes
    when no identifier is passed. *)
Lemma anonymize_name_zero_id (name : pyval) :
  anonymize_name name (VInt 0) = anonymize_name name VNone.
Proof. reflexivity. Qed.

(** With the identifier 0 the label is not ["ANON_0000"] but the one
    derived from the hash of the name, so two patients passed with the same
    identifier 0 get different labels. *)
Example anonymize_name_id_zero_uses_hash :
  anonymize_name (VStr "John Doe") (VInt 0) = Ok (VStr "ANON_4C2A904B")
  ∧ anonymize_name (VStr "Jane Roe") (VInt 0) = Ok (VStr "ANON_0417BA3C")
  ∧ format_04d_int 0 = "0000".
Proof. vm_compute. done. Qed.

(* ===================================================================== *)
(** ** UTF-8 *)
(* ===================================================================== *)

Lemma decode_encode_char (c : ascii) (rest : bytes) :
  Utf8.decode (Utf8.encode_char c ++ rest)%list = (s ← Utf8.decode rest; Ok (String c s)).
Proof.
  destruct c as [[] [] [] [] [] [] [] []]; reflexivity.
Qed.

(** Decoding what [encode] produced gives the string back. *)
Lemma decode_encode (s : string) : Utf8.decode (Utf8.encode s) = Ok s.
Proof.
  induction s as [|c s IH]; [reflexivity|].
  simpl Utf8.encode. by rewrite decode_encode_char, IH.
Qed.

Lemma decode_ascii_byte (b : byte) (rest : bytes) :
  Utf8.is_ascii b = true →
  Utf8.decode (b :: rest) = (s ← Utf8.decode rest; Ok (String (ascii_of_byte b) s))
  ∧ Utf8.encode_char (ascii_of_byte b) = [b].
Proof.
  destruct b; intros H; try discriminate H; split; reflexivity.
Qed.

(** ASCII bytes decode, and the text encodes back to the same bytes. *)
Lemma decode_ascii (b : bytes) :
  forallb Utf8.is_ascii b = true →
  ∃ s, Utf8.decode b = Ok s ∧ Utf8.encode s = b.
Proof.
  induction b as [|x b IH]; simpl forallb.
  - intros _. by exists EmptyString.
  - intros [Hx Hb]%andb_prop. destruct (IH Hb) as (s & Hs & Es).
    destruct (decode_ascii_byte x b Hx) as [Hd He].
    exists (String (ascii_of_byte x) s). split.
    + by rewrite Hd, Hs.
    + simpl Utf8.encode. by rewrite He, Es.
Qed.

(* ===================================================================== *)
(** ** bcrypt's base-64 text *)
(* ===================================================================== *)

Lemma Z_of_byte_range (b : byte) : 0 <= Utf8.Z_of_byte b < 256.
Proof. destruct b; vm_compute; split; congruence. Qed.

Lemma byte_of_Z_of_byte (b : byte) : Utf8.byte_of_Z (Utf8.Z_of_byte b) = b.
Proof. destruct b; reflexivity. Qed.

(** Every character [b64_char] produces is ASCII, is in the alphabet, and
    gives back the six bits it stands for. *)
Lemma b64_char_spec (n : Z) :
  Utf8.is_ascii (Bcrypt.b64_char n) = true
  ∧ Bcrypt.in_alphabet (Bcrypt.b64_char n) = true
  ∧ Bcrypt.b64_index (Bcrypt.b64_char n) = n mod 64.
Proof.
  unfold Bcrypt.b64_char.
  assert (Hm : 0 <= n mod 64 < 64) by (apply Z.mod_pos_bound; lia).
  set (m := n mod 64) in *.
  assert (Hk : (Z.to_nat m < 64)%nat) by lia.
  replace m with (Z.of_nat (Z.to_nat m)) by lia.
  generalize dependent (Z.to_nat m). intros k Hk.
  do 64 (destruct k as [|k]; [vm_compute; done|]).
  lia.
Qed.

Lemma list_ind3 {A} (P : list A → Prop) :
  P [] → (∀ a, P [a]) → (∀ a b, P [a; b]) →
  (∀ a b c l, P l → P (a :: b :: c :: l)) →
  ∀ l, P l.
Proof.
  intros H0 H1 H2 H3 l.
  enough (P l ∧ (∀ a, P (a :: l)) ∧ (∀ a b, P (a :: b :: l))) by tauto.
  induction l as [|x l (IH0 & IH1 & IH2)]; [by auto|].
  repeat split; auto.
Qed.

Lemma unsextets_sextets (l : list Z) :
  Forall is_octet l → Bcrypt.unsextets (Bcrypt.sextets l) = l.
Proof.
  unfold is_octet.
  induction l as [|a|a b|a b c l IH] using list_ind3; intros H.
  - reflexivity.
  - apply Forall_cons_1 in H as [Ha _]. simpl.
    f_equal. (Z.div_mod_to_equations; lia).
  - apply Forall_cons_1 in H as [Ha H]. apply Forall_cons_1 in H as [Hb _]. simpl.
    f_equal; [|f_equal]; (Z.div_mod_to_equations; lia).
  - apply Forall_cons_1 in H as [Ha H]. apply Forall_cons_1 in H as [Hb H].
    apply Forall_cons_1 in H as [Hc H].
    change (Bcrypt.sextets (a :: b :: c :: l))
      with (a / 4 :: (a mod 4) * 16 + b / 16 :: (b mod 16) * 4 + c / 64
            :: c mod 64 :: Bcrypt.sextets l).
    change (Bcrypt.unsextets (?s0 :: ?s1 :: ?s2 :: ?s3 :: ?r))
      with (4 * s0 + s1 / 16 :: 16 * (s1 mod 16) + s2 / 4 :: 64 * (s2 mod 4) + s3
            :: Bcrypt.unsextets r).
    rewrite (IH H). f_equal; [|f_equal; [|f_equal]]; (Z.div_mod_to_equations; lia).
Qed.

Lemma sextets_range (l : list Z) :
  Forall is_octet l → Forall (fun s => s mod 64 = s) (Bcrypt.sextets l).
Proof.
  unfold is_octet.
  induction l as [|a|a b|a b c l IH] using list_ind3; intros H.
  - constructor.
  - apply Forall_cons_1 in H as [Ha _]. simpl.
    repeat constructor; (Z.div_mod_to_equations; lia).
  - apply Forall_cons_1 in H as [Ha H]. apply Forall_cons_1 in H as [Hb _]. simpl.
    repeat constructor; (Z.div_mod_to_equations; lia).
  - apply Forall_cons_1 in H as [Ha H]. apply Forall_cons_1 in H as [Hb H].
    apply Forall_cons_1 in H as [Hc H].
    change (Bcrypt.sextets (a :: b :: c :: l))
      with (a / 4 :: (a mod 4) * 16 + b / 16 :: (b mod 16) * 4 + c / 64
            :: c mod 64 :: Bcrypt.sextets l).
    repeat (constructor; [Z.div_mod_to_equations; lia|]). by apply IH.
Qed.

Lemma octets_of_bytes (b : bytes) : Forall is_octet (List.map Utf8.Z_of_byte b).
Proof.
  induction b as [|x b IH]; simpl; constructor; [apply Z_of_byte_range|done].
Qed.

(** The salt text determines the bytes it was made from. *)
Lemma decode_encode_base64 (b : bytes) :
  Bcrypt.decode_base64 (Bcrypt.encode_base64 b) = b.
Proof.
  unfold Bcrypt.decode_base64, Bcrypt.encode_base64.
  rewrite List.map_map.
  rewrite (List.map_ext_Forall _ id (l := Bcrypt.sextets (List.map Utf8.Z_of_byte b))).
  - rewrite List.map_id, unsextets_sextets by apply octets_of_bytes.
    rewrite List.map_map. rewrite <- (List.map_id b) at 2.
    apply List.map_ext. intros x. apply byte_of_Z_of_byte.
  - eapply Forall_impl; [apply sextets_range, octets_of_bytes|].
    intros s Hs. simpl. destruct (b64_char_spec s) as (_ & _ & ->). exact Hs.
Qed.

Lemma encode_base64_inj (a b : bytes) :
  Bcrypt.encode_base64 a = Bcrypt.encode_base64 b → a = b.
Proof.
  intros H. apply (f_equal Bcrypt.decode_base64) in H.
  by rewrite !decode_encode_base64 in H.
Qed.

Lemma encode_base64_chars (b : bytes) :
  forallb Utf8.is_ascii (Bcrypt.encode_base64 b) = true
  ∧ forallb Bcrypt.in_alphabet (Bcrypt.encode_base64 b) = true.
Proof.
  unfold Bcrypt.encode_base64.
  induction (Bcrypt.sextets (List.map Utf8.Z_of_byte b)) as [|s l [IH1 IH2]]; [done|].
  simpl. destruct (b64_char_spec s) as (-> & -> & _). by rewrite IH1, IH2.
Qed.

Lemma encode_base64_length_16 (b : bytes) :
  List.length b = 16%nat → List.length (Bcrypt.encode_base64 b) = 22%nat.
Proof.
  intros H. unfold Bcrypt.encode_base64. rewrite List.length_map.
  do 17 (destruct b as [|? b]; [discriminate H || reflexivity|]).
  discriminate H.
Qed.

(* ===================================================================== *)
(** ** Password hashing *)
(* ===================================================================== *)

Lemma bytes_eqb_refl (b : bytes) : Bcrypt.bytes_eqb b b = true.
Proof.
  induction b as [|x b IH]; simpl; [done|].
  rewrite IH, andb_true_r. by apply Byte.byte_dec_lb.
Qed.

(** The salt the source asks for: version [2b], cost 12. *)
Lemma gensalt_12 (urandom : bytes) :
  Bcrypt.gensalt 12 urandom
  = Ok (Bcrypt.setting (byte_of_ascii "b") 12 (Bcrypt.encode_base64 (firstn 16 urandom))).
Proof. reflexivity. Qed.

Lemma setting_length (v : byte) (cost : Z) (salt : bytes) :
  List.length (Bcrypt.setting v cost salt) = (7 + List.length salt)%nat.
Proof. reflexivity. Qed.

(** No character of the alphabet is a dollar sign. *)
Lemma in_alphabet_not_dollar (b : byte) :
  Bcrypt.in_alphabet b = true → Byte.eqb b Bcrypt.dollar = false.
Proof. destruct b; intros H; first [reflexivity | discriminate H]. Qed.

(** Bytes without a dollar sign are one part. *)
Lemma split_dollar_free (s : bytes) :
  forallb (fun b => negb (Byte.eqb b Bcrypt.dollar)) s = true → Bcrypt.split_dollar s = [s].
Proof.
  induction s as [|x s IH]; [reflexivity|].
  intros H. apply andb_prop in H as [Hx Hs]. apply negb_true_iff in Hx.
  change (Bcrypt.split_dollar (x :: s))
    with (if Byte.eqb x Bcrypt.dollar then [] :: Bcrypt.split_dollar s
          else match Bcrypt.split_dollar s with
               | part :: parts => (x :: part) :: parts
               | [] => [[x]]
               end).
  by rewrite Hx, (IH Hs).
Qed.

Lemma alphabet_free (s : bytes) :
  forallb Bcrypt.in_alphabet s = true →
  forallb (fun b => negb (Byte.eqb b Bcrypt.dollar)) s = true.
Proof.
  induction s as [|x s IH]; [done|].
  intros H. apply andb_prop in H as [Hx Hs]. simpl.
  by rewrite (in_alphabet_not_dollar x Hx), (IH Hs).
Qed.

(** The last character of the text of 16 bytes carries two bits of them. *)
Lemma encode_base64_last (b : bytes) :
  List.length b = 16%nat →
  Bcrypt.b64_index (List.last (Bcrypt.encode_base64 b) Bcrypt.dollar) mod 16 = 0.
Proof.
  intros H. unfold Bcrypt.encode_base64.
  do 17 (destruct b as [|? b]; [discriminate H || idtac|]); [|discriminate H].
  cbn [List.map Bcrypt.sextets List.last].
  destruct (b64_char_spec (Utf8.Z_of_byte b15 mod 4 * 16)) as (_ & _ & ->).
  Z.div_mod_to_equations. lia.
Qed.

(** A version-[2b], cost-12 setting made from 16 bytes is read back from
    the head of the text of a digest that follows it. *)
Lemma parse_setting_12 (u rest : bytes) :
  List.length u = 16%nat → forallb Bcrypt.in_alphabet rest = true →
  Bcrypt.parse_setting
    (Bcrypt.setting (byte_of_ascii "b") 12 (Bcrypt.encode_base64 u) ++ rest)%list
  = Some (byte_of_ascii "b", 12, Bcrypt.encode_base64 u).
Proof.
  intros Hlen Hrest.
  pose proof (encode_base64_length_16 u Hlen) as Hsalt.
  destruct (encode_base64_chars u) as [_ Hchars].
  set (salt := Bcrypt.encode_base64 u) in *.
  assert (Hfree : Bcrypt.split_dollar (salt ++ rest)%list = [(salt ++ rest)%list]).
  { apply split_dollar_free, alphabet_free. by rewrite List.forallb_app, Hchars, Hrest. }
  unfold Bcrypt.parse_setting, Bcrypt.setting.
  change (Bcrypt.split_dollar _)
    with ([] :: [byte_of_ascii "2"; byte_of_ascii "b"]
          :: [byte_of_ascii "1"; byte_of_ascii "2"]
          :: Bcrypt.split_dollar (salt ++ rest)%list).
  rewrite Hfree.
  assert (Hne : Bcrypt.nonempty (salt ++ rest)%list = true).
  { destruct salt; [discriminate Hsalt|reflexivity]. }
  cbn [List.filter]. rewrite Hne.
  change (Bcrypt.nonempty []) with false.
  change (Bcrypt.nonempty [byte_of_ascii "2"; byte_of_ascii "b"]) with true.
  change (Bcrypt.nonempty [byte_of_ascii "1"; byte_of_ascii "2"]) with true.
  cbv iota.
  change (Bcrypt.version_of [byte_of_ascii "2"; byte_of_ascii "b"])
    with (Some (byte_of_ascii "b")).
  change (Bcrypt.parse_cost [byte_of_ascii "1"; byte_of_ascii "2"]) with (Some 12).
  cbv iota.
  rewrite List.length_app, Hsalt.
  destruct (Nat.ltb_spec (22 + List.length rest) 22); [lia|].
  rewrite List.firstn_app, Hsalt, Nat.sub_diag, List.firstn_O, List.app_nil_r.
  rewrite <- Hsalt, List.firstn_all.
  unfold Bcrypt.decode_salt. rewrite Hchars.
  subst salt. rewrite (encode_base64_last u Hlen), decode_encode_base64.
  reflexivity.
Qed.

Lemma firstn_16 (u : bytes) : List.length u = 16%nat → firstn 16 u = u.
Proof. intros H. apply List.firstn_all2. lia. Qed.

Lemma digest_text_ascii eks (password : bytes) (cost : Z) (salt : bytes) :
  forallb Utf8.is_ascii (Bcrypt.digest_text eks password cost salt) = true.
Proof.
  unfold Bcrypt.digest_text.
  induction (seq 0 31) as [|i l IH]; [done|].
  simpl. destruct (b64_char_spec (nth i (eks password cost salt) 0)) as (-> & _). exact IH.
Qed.

Lemma digest_text_alphabet eks (password : bytes) (cost : Z) (salt : bytes) :
  forallb Bcrypt.in_alphabet (Bcrypt.digest_text eks password cost salt) = true.
Proof.
  unfold Bcrypt.digest_text.
  induction (seq 0 31) as [|i l IH]; [done|].
  simpl. destruct (b64_char_spec (nth i (eks password cost salt) 0)) as (_ & -> & _).
  exact IH.
Qed.

Lemma setting_12_ascii (salt : bytes) :
  forallb Utf8.is_ascii salt = true →
  forallb Utf8.is_ascii (Bcrypt.setting (byte_of_ascii "b") 12 salt) = true.
Proof. intros H. unfold Bcrypt.setting. simpl. exact H. Qed.

Section HasherFacts.

Variable eksblowfish : bytes -> Z -> bytes -> list Z.

Local Abbreviation hashed_bytes := (hashed_bytes eksblowfish).

(** [hashpw] refuses a password of more than 72 bytes, whatever the salt. *)
Lemma hashpw_long_password (password salt : bytes) :
  (72 < List.length password)%nat →
  Bcrypt.hashpw_bytes eksblowfish password salt = Raise ValueError.
Proof.
  intros H. unfold Bcrypt.hashpw_bytes.
  by destruct (Nat.ltb_spec 72 (List.length password)); [|lia].
Qed.

Lemma hashpw_generated_salt (urandom : bytes) (password : string) :
  List.length urandom = 16%nat → (List.length (Utf8.encode password) <= 72)%nat →
  Bcrypt.hashpw_bytes eksblowfish (Utf8.encode password)
    (Bcrypt.setting (byte_of_ascii "b") 12 (Bcrypt.encode_base64 (firstn 16 urandom)))
  = Ok (hashed_bytes urandom password).
Proof.
  intros Hu Hp. unfold Bcrypt.hashpw_bytes.
  destruct (Nat.ltb_spec 72 (List.length (Utf8.encode password))); [lia|].
  rewrite <- (List.app_nil_r (Bcrypt.setting _ _ _)).
  rewrite firstn_16 by done.
  rewrite parse_setting_12 by done.
  unfold hashed_bytes. by rewrite firstn_16.
Qed.

Lemma hashpw_own_hash (urandom : bytes) (password : string) :
  List.length urandom = 16%nat → (List.length (Utf8.encode password) <= 72)%nat →
  Bcrypt.hashpw_bytes eksblowfish (Utf8.encode password) (hashed_bytes urandom password)
  = Ok (hashed_bytes urandom password).
Proof.
  intros Hu Hp. unfold Bcrypt.hashpw_bytes, hashed_bytes.
  destruct (Nat.ltb_spec 72 (List.length (Utf8.encode password))); [lia|].
  rewrite firstn_16 by done.
  by rewrite parse_setting_12; [|done|apply digest_text_alphabet].
Qed.

Lemma hashed_bytes_ascii (urandom : bytes) (password : string) :
  forallb Utf8.is_ascii (hashed_bytes urandom password) = true.
Proof.
  unfold hashed_bytes. rewrite List.forallb_app, digest_text_ascii, andb_true_r.
  apply setting_12_ascii, encode_base64_chars.
Qed.

(** [hash_password] returns, for a password of at most 72 bytes, the text
    of the hash, and [verify_password] accepts the password against it. *)
Lemma hash_password_verifies (urandom : bytes) (password : string) :
  List.length urandom = 16%nat → (List.length (Utf8.encode password) <= 72)%nat →
  ∃ h, hash_password eksblowfish urandom (VStr password) = Ok (VStr h)
       ∧ Utf8.encode h = hashed_bytes urandom password
       ∧ verify_password eksblowfish (VStr password) (VStr h)
         = (true, [PasswordBytes (VBytes (Utf8.encode password));
                   HashBytes (VBytes (hashed_bytes urandom password));
                   CheckpwResult true]).
Proof.
  intros Hu Hp.
  destruct (decode_ascii _ (hashed_bytes_ascii urandom password)) as (h & Hh & Eh).
  exists h. split; [|split].
  - unfold hash_password. rewrite gensalt_12, bind_Ok.
    simpl py_encode. rewrite bind_Ok.
    unfold Bcrypt.hashpw. rewrite (hashpw_generated_salt _ _ Hu Hp), bind_Ok.
    by rewrite Hh.
  - exact Eh.
  - unfold verify_password, encode_if_str. rewrite Eh.
    unfold Bcrypt.checkpw, Bcrypt.hashpw.
    rewrite (hashpw_own_hash _ _ Hu Hp), bind_Ok, bytes_eqb_refl.
    reflexivity.
Qed.

(** On a password of more than 72 bytes [hash_password] raises the
    [ValueError] of [bcrypt.hashpw]: there is no hash to verify against. *)
Lemma hash_password_long (urandom : bytes) (password : string) :
  (72 < List.length (Utf8.encode password))%nat →
  hash_password eksblowfish urandom (VStr password) = Raise ValueError.
Proof.
  intros Hp. unfold hash_password. rewrite gensalt_12, bind_Ok.
  simpl py_encode. rewrite bind_Ok.
  unfold Bcrypt.hashpw. by rewrite (hashpw_long_password _ _ Hp).
Qed.

(** Two draws of randomness that differ give hashes that differ. *)
Lemma hashed_bytes_inj (u1 u2 : bytes) (p1 p2 : string) :
  List.length u1 = 16%nat → List.length u2 = 16%nat →
  hashed_bytes u1 p1 = hashed_bytes u2 p2 → u1 = u2.
Proof.
  intros H1 H2 E. unfold hashed_bytes in E.
  rewrite !firstn_16 in E by done.
  apply app_inj_1 in E as [E _].
  - unfold Bcrypt.setting in E.
    apply List.app_inv_head in E. apply List.app_inv_head in E.
    apply List.app_inv_head in E. by apply encode_base64_inj.
  - by rewrite !setting_length, !encode_base64_length_16.
Qed.

End HasherFacts.

(** C5, as the code has it. For every password [p] of at most 72 bytes in
    UTF-8 (the empty one included) [verify_password(p, hash_password(p))]
    is true; two calls of [hash_password(p)] that draw different randomness
    for the salt return different hash strings, and [verify_password]
    accepts [p] against both.  On a longer password [hash_password] raises
    the [ValueError] of [bcrypt.hashpw] and returns no hash. *)
Theorem hash_password_verifies_and_salts_differ
    (eksblowfish : bytes -> Z -> bytes -> list Z) (u1 u2 : bytes) (p : string) :
  List.length u1 = 16%nat → List.length u2 = 16%nat →
  ((List.length (Utf8.encode p) <= 72)%nat →
   ∃ h1 h2,
     hash_password eksblowfish u1 (VStr p) = Ok (VStr h1)
     ∧ hash_password eksblowfish u2 (VStr p) = Ok (VStr h2)
     ∧ fst (verify_password eksblowfish (VStr p) (VStr h1)) = true
     ∧ fst (verify_password eksblowfish (VStr p) (VStr h2)) = true
     ∧ (u1 ≠ u2 → h1 ≠ h2))
  ∧ ((72 < List.length (Utf8.encode p))%nat →
     hash_password eksblowfish u1 (VStr p) = Raise ValueError
     ∧ hash_password eksblowfish u2 (VStr p) = Raise ValueError).
Proof.
  intros H1 H2. split.
  - intros Hp.
    destruct (hash_password_verifies eksblowfish u1 p H1 Hp) as (h1 & E1 & B1 & V1).
    destruct (hash_password_verifies eksblowfish u2 p H2 Hp) as (h2 & E2 & B2 & V2).
    exists h1, h2. rewrite V1, V2. repeat split; try done.
    intros Hne Heq. apply Hne. subst h2.
    rewrite B1 in B2. by apply (hashed_bytes_inj eksblowfish u1 u2 p p).
  - intros Hp. split; by apply hash_password_long.
Qed.

Lemma hash_password_verifies_and_salts_differ_witness :
  (∃ h1 h2,
     hash_password sample_eksblowfish sample_urandom_1 (VStr "admin123") = Ok (VStr h1)
     ∧ hash_password sample_eksblowfish sample_urandom_2 (VStr "admin123") = Ok (VStr h2)
     ∧ fst (verify_password sample_eksblowfish (VStr "admin123") (VStr h1)) = true
     ∧ fst (verify_password sample_eksblowfish (VStr "admin123") (VStr h2)) = true
     ∧ (sample_urandom_1 ≠ sample_urandom_2 → h1 ≠ h2))
  ∧ hash_password sample_eksblowfish sample_urandom_1 (VStr sample_long_password)
    = Raise ValueError.
Proof.
  split.
  - apply (hash_password_verifies_and_salts_differ sample_eksblowfish
             sample_urandom_1 sample_urandom_2 "admin123"); [reflexivity|reflexivity|].
    vm_compute. lia.
  - apply (hash_password_verifies_and_salts_differ sample_eksblowfish
             sample_urandom_1 sample_urandom_2 sample_long_password);
      [reflexivity|reflexivity|].
    vm_compute. lia.
Defined.

(** C5, as stated, fails: it is not the case that every non-empty password
    gets a hash against which it verifies.  A password of 73 bytes gets
    none. *)
Lemma hash_password_long_password_not_hashed :
  ¬ (∀ (eksblowfish : bytes -> Z -> bytes -> list Z) (urandom : bytes) (p : string),
       List.length urandom = 16%nat → p ≠ "" →
       ∃ h, hash_password eksblowfish urandom (VStr p) = Ok (VStr h)
            ∧ fst (verify_password eksblowfish (VStr p) (VStr h)) = true).
Proof.
  intros H.
  destruct (H sample_eksblowfish sample_urandom_1 sample_long_password eq_refl)
    as (h & Hh & _); [discriminate|].
  rewrite (hash_password_long sample_eksblowfish sample_urandom_1 sample_long_password)
    in Hh; [discriminate Hh|].
  vm_compute. lia.
Qed.

(** C6, as the code has it. [hash_password] does not reject the empty
    password: it returns a hash string like for any other password, and
    [verify_password] accepts the empty password against it. *)
Theorem hash_password_empty_returns_hash
    (eksblowfish : bytes -> Z -> bytes -> list Z) (urandom : bytes) :
  List.length urandom = 16%nat →
  ∃ h, hash_password eksblowfish urandom (VStr "") = Ok (VStr h)
       ∧ fst (verify_password eksblowfish (VStr "") (VStr h)) = true.
Proof.
  intros Hu.
  destruct (hash_password_verifies eksblowfish urandom "" Hu ltac:(simpl; lia))
    as (h & E & _ & V).
  exists h. by rewrite V.
Qed.

Lemma hash_password_empty_returns_hash_witness :
  ∃ h, hash_password sample_eksblowfish sample_urandom_1 (VStr "") = Ok (VStr h)
       ∧ fst (verify_password sample_eksblowfish (VStr "") (VStr h)) = true.
Proof.
  apply (hash_password_empty_returns_hash sample_eksblowfish sample_urandom_1).
  reflexivity.
Defined.

(** C6, as stated, fails: it is not the case that [hash_password] raises on
    the empty password. *)
Lemma hash_password_empty_not_rejected :
  ¬ (∀ (eksblowfish : bytes -> Z -> bytes -> list Z) (urandom : bytes),
       List.length urandom = 16%nat →
       ∃ e, hash_password eksblowfish urandom (VStr "") = Raise e).
Proof.
  intros H.
  destruct (H sample_eksblowfish sample_urandom_1 eq_refl) as [e He].
  destruct (hash_password_verifies sample_eksblowfish sample_urandom_1 "" eq_refl
              ltac:(simpl; lia)) as (h & E & _).
  rewrite E in He. discriminate He.
Qed.

Example hash_password_empty_run :
  hash_password sample_eksblowfish sample_urandom_1 (VStr "")
  = Ok (VStr "$2b$12$......................ssssssssssssssssssssss.........").
Proof. vm_compute. reflexivity. Qed.

(* ===================================================================== *)
(** ** Reversible encryption *)
(* ===================================================================== *)

Lemma unarmour_armour_byte (x : byte) (t : bytes) :
  SampleFernet.unarmour
    (SampleFernet.letter (Utf8.Z_of_byte x / 16)
     :: SampleFernet.letter (Utf8.Z_of_byte x mod 16) :: t)
  = (m ← SampleFernet.unarmour t; Ok (x :: m))
  ∧ Utf8.is_ascii (SampleFernet.letter (Utf8.Z_of_byte x / 16)) = true
  ∧ Utf8.is_ascii (SampleFernet.letter (Utf8.Z_of_byte x mod 16)) = true.
Proof. destruct x; repeat split; reflexivity. Qed.

Lemma unarmour_armour (m : bytes) :
  SampleFernet.unarmour (SampleFernet.armour m) = Ok m.
Proof.
  induction m as [|x m IH]; [reflexivity|].
  simpl SampleFernet.armour.
  destruct (unarmour_armour_byte x (SampleFernet.armour m)) as (-> & _).
  by rewrite IH.
Qed.

Lemma armour_ascii (m : bytes) :
  forallb Utf8.is_ascii (SampleFernet.armour m) = true.
Proof.
  induction m as [|x m IH]; [reflexivity|].
  simpl. destruct (unarmour_armour_byte x []) as (_ & -> & ->). exact IH.
Qed.

(** The sample instance satisfies the laws. *)
Lemma sample_fernet_laws : FernetLaws SampleFernet.lib.
Proof.
  split; simpl.
  - intros f nonce m. unfold SampleFernet.dec, SampleFernet.enc.
    rewrite (Byte.byte_dec_lb eq_refl). apply unarmour_armour.
  - intros f nonce m. unfold SampleFernet.enc. simpl.
    rewrite armour_ascii. by destruct f.
  - intros f nonce m. unfold SampleFernet.enc. done.
  - intros f f' nonce m Hne. unfold SampleFernet.dec, SampleFernet.enc.
    destruct f, f'; try done.
Qed.

Section CipherFacts.

Variable lib : FernetLib.
Hypothesis laws : FernetLaws lib.

Lemma none_or_empty_VStr (s : string) :
  s ≠ "" → EncryptionManager.none_or_empty (VStr s) = false.
Proof. intros H. simpl. by destruct (String.eqb_spec s ""). Qed.

(** [encrypt] on a non-empty [str] returns the token as text. *)
Lemma encrypt_returns_token (em : EncryptionManager.t lib) (nonce : bytes) (x : string) :
  x ≠ "" →
  ∃ c, EncryptionManager.encrypt lib em nonce (VStr x) = Ok (VStr c)
       ∧ c ≠ ""
       ∧ Utf8.encode c
         = Fernet_encrypt lib (EncryptionManager.cipher lib em) nonce (Utf8.encode x).
Proof.
  intros Hx.
  destruct (decode_ascii _ (fernet_token_ascii lib laws
              (EncryptionManager.cipher lib em) nonce (Utf8.encode x))) as (c & Hc & Ec).
  exists c. split; [|split].
  - unfold EncryptionManager.encrypt. rewrite none_or_empty_VStr by done.
    simpl py_encode. rewrite bind_Ok, Hc. reflexivity.
  - intros ->. simpl in Ec. symmetry in Ec.
    by apply (fernet_token_nonempty lib laws) in Ec.
  - exact Ec.
Qed.

(** Whatever is passed, [decrypt] returns: an exception raised in its
    [try] is printed and turned into [None]. *)
Lemma decrypt_cases (em : EncryptionManager.t lib) (ciphertext : pyval) :
  (EncryptionManager.none_or_empty ciphertext = true
     ∧ EncryptionManager.decrypt lib em ciphertext = (Ok VNone, []))
  ∨ (∃ v, EncryptionManager.decrypt_body lib em ciphertext = Ok v
          ∧ EncryptionManager.decrypt lib em ciphertext = (Ok v, []))
  ∨ (∃ e, EncryptionManager.decrypt_body lib em ciphertext = Raise e
          ∧ EncryptionManager.decrypt lib em ciphertext
            = (Ok VNone, [DecryptionError e])).
Proof.
  unfold EncryptionManager.decrypt.
  destruct (EncryptionManager.none_or_empty ciphertext); [by left|right].
  destruct (EncryptionManager.decrypt_body lib em ciphertext) as [v|e];
    [left; by exists v | right; by exists e].
Qed.

End CipherFacts.





(* ===================================================================== *)
(** ** Name anonymization: the branches apart from the identifier 0 *)
(* ===================================================================== *)

(** With a non-zero integer identifier the label is ["ANON_"] and the
    identifier padded with zeros to four digits: it does not depend on the
    name. *)
Lemma anonymize_name_with_id (name : pyval) (id : Z) :
  truthy name = true → id ≠ 0 →
  anonymize_name name (VInt id) = Ok (VStr ("ANON_" +:+ format_04d_int id)).
Proof.
  intros Hn Hid. unfold anonymize_name. rewrite Hn. simpl.
  destruct (Z.eqb_spec id 0); [done|]. reflexivity.
Qed.

Lemma decimal_digit_In (a : Z) : 0 <= a <= 9 → In a decimal_digits.
Proof.
  intros H.
  assert (a = 0 ∨ a = 1 ∨ a = 2 ∨ a = 3 ∨ a = 4 ∨ a = 5 ∨ a = 6 ∨ a = 7 ∨ a = 8 ∨ a = 9)
    as Ha by lia.
  unfold decimal_digits. simpl. intuition.
Qed.

Lemma all_four_digits_spec (f : Z -> bool) :
  all_four_digits f = true → ∀ z, 0 <= z <= 9999 → f z = true.
Proof.
  unfold all_four_digits. intros H z Hz.
  assert (Ha : In (z / 1000) decimal_digits)
    by (apply decimal_digit_In; Z.div_mod_to_equations; lia).
  assert (Hb : In (z / 100 mod 10) decimal_digits)
    by (apply decimal_digit_In; Z.div_mod_to_equations; lia).
  assert (Hc : In (z / 10 mod 10) decimal_digits)
    by (apply decimal_digit_In; Z.div_mod_to_equations; lia).
  assert (Hd : In (z mod 10) decimal_digits)
    by (apply decimal_digit_In; Z.div_mod_to_equations; lia).
  rewrite List.forallb_forall in H. specialize (H _ Ha).
  rewrite List.forallb_forall in H. specialize (H _ Hb).
  rewrite List.forallb_forall in H. specialize (H _ Hc).
  rewrite List.forallb_forall in H. specialize (H _ Hd).
  replace (1000 * (z / 1000) + 100 * (z / 100 mod 10) + 10 * (z / 10 mod 10) + z mod 10)
    with z in H by (Z.div_mod_to_equations; lia).
  exact H.
Qed.

(** From 0 to 9999 the padded identifier is four decimal digits that read
    back as the identifier. *)
Lemma format_04d_int_digits (id : Z) :
  0 <= id <= 9999 →
  String.length (format_04d_int id) = 4%nat
  ∧ str_all Str.is_digit (format_04d_int id) = true
  ∧ digits_value (format_04d_int id) = id.
Proof.
  intros H.
  assert (Hall : all_four_digits (fun i =>
                    (String.length (format_04d_int i) =? 4)%nat
                    && str_all Str.is_digit (format_04d_int i)
                    && (digits_value (format_04d_int i) =? i)) = true)
    by (vm_compute; reflexivity).
  pose proof (all_four_digits_spec _ Hall id H) as Hid. cbv beta in Hid.
  apply andb_prop in Hid as [Hid H3]. apply andb_prop in Hid as [H1 H2].
  apply Nat.eqb_eq in H1. apply Z.eqb_eq in H3.
  split; [exact H1|split; [exact H2|exact H3]].
Qed.

(** From 1 to 9999 the padded identifier has exactly four characters. *)
Lemma format_04d_int_four_digits (id : Z) :
  1 <= id <= 9999 → String.length (format_04d_int id) = 4%nat.
Proof. intros H. exact (proj1 (format_04d_int_digits id ltac:(lia))). Qed.

Lemma str_map_length (f : ascii -> ascii) (s : string) :
  String.length (Str.map f s) = String.length s.
Proof. induction s as [|c s IH]; simpl; [done|by rewrite IH]. Qed.

Lemma str_take_length (n : nat) (s : string) :
  (n <= String.length s)%nat → String.length (Str.take n s) = n.
Proof.
  revert s. induction n as [|n IH]; intros s H; [done|].
  destruct s as [|c s]; simpl in *; [lia|]. rewrite IH; [done|lia].
Qed.

Lemma hex_length (b : list Z) : String.length (Md5.hex b) = (2 * List.length b)%nat.
Proof. induction b as [|x b IH]; simpl; [done|]. rewrite IH. lia. Qed.

(** A digest is 16 bytes, so 32 hexadecimal characters. *)
Lemma hexdigest_length (msg : bytes) : String.length (Md5.hexdigest msg) = 32%nat.
Proof.
  unfold Md5.hexdigest, Md5.digest. rewrite hex_length.
  rewrite !List.length_app. reflexivity.
Qed.

(** Without an identifier the label is ["ANON_"] and eight characters taken
    from the MD5 digest of the name: a function of the name alone. *)
Lemma anonymize_name_by_hash (name : string) :
  name ≠ "" →
  ∃ label, anonymize_name (VStr name) VNone = Ok (VStr ("ANON_" +:+ label))
           ∧ label = Str.upper (Str.take 8 (Md5.hexdigest (Utf8.encode name)))
           ∧ String.length label = 8%nat.
Proof.
  intros Hn. eexists. split; [|split; [reflexivity|]].
  - unfold anonymize_name.
    rewrite (proj2 (truthy_VStr name) Hn). reflexivity.
  - unfold Str.upper. rewrite str_map_length, str_take_length; [done|].
    rewrite hexdigest_length. lia.
Qed.

(** An empty name, or [None], gives [None] whatever the identifier. *)
Lemma anonymize_name_empty (patient_id : pyval) :
  anonymize_name (VStr "") patient_id = Ok VNone
  ∧ anonymize_name VNone patient_id = Ok VNone.
Proof. split; reflexivity. Qed.

(* ===================================================================== *)
(** ** Strings *)
(* ===================================================================== *)

Lemma str_app_cons (c : ascii) (a b : string) : String c a +:+ b = String c (a +:+ b).
Proof. reflexivity. Qed.

Lemma str_app_nil_l (s : string) : "" +:+ s = s.
Proof. reflexivity. Qed.

Lemma str_app_nil_r (s : string) : s +:+ "" = s.
Proof. induction s as [|c s IH]; [done|]. by rewrite str_app_cons, IH. Qed.

Lemma str_app_assoc (a b c : string) : (a +:+ b) +:+ c = a +:+ (b +:+ c).
Proof. induction a as [|x a IH]; [done|]. by rewrite !str_app_cons, IH. Qed.

Lemma str_app_length (a b : string) :
  String.length (a +:+ b) = (String.length a + String.length b)%nat.
Proof. induction a as [|x a IH]; [done|]. rewrite str_app_cons. simpl. by rewrite IH. Qed.

Lemma str_repeat_length (c : ascii) (n : nat) : String.length (Str.repeat c n) = n.
Proof. induction n as [|n IH]; simpl; [done|by rewrite IH]. Qed.

Lemma str_drop_length (n : nat) (s : string) :
  String.length (Str.drop n s) = (String.length s - n)%nat.
Proof.
  revert s. induction n as [|n IH]; intros s; simpl; [lia|].
  destruct s as [|c s]; simpl; [done|apply IH].
Qed.

Lemma str_all_drop (p : ascii -> bool) (n : nat) (s : string) :
  str_all p s = true → str_all p (Str.drop n s) = true.
Proof.
  revert s. induction n as [|n IH]; intros s H; simpl; [done|].
  destruct s as [|c s]; simpl in *; [done|].
  apply andb_prop in H as [_ H]. by apply IH.
Qed.

Lemma str_all_filter (p : ascii -> bool) (s : string) :
  str_all p (Str.filter p s) = true.
Proof.
  induction s as [|c s IH]; simpl; [done|].
  destruct (p c) eqn:E; simpl; [by rewrite E|done].
Qed.

Lemma str_filter_all (p : ascii -> bool) (s : string) :
  str_all p s = true → Str.filter p s = s.
Proof.
  induction s as [|c s IH]; simpl; [done|].
  intros [-> H]%andb_prop. by rewrite IH.
Qed.

Lemma str_take_all (n : nat) (s : string) :
  (String.length s <= n)%nat → Str.take n s = s.
Proof.
  revert s. induction n as [|n IH]; intros [|c s] H; simpl in *; try done; [lia|].
  rewrite IH; [done|lia].
Qed.

Lemma str_all_take (p : ascii -> bool) (n : nat) (s : string) :
  str_all p s = true → str_all p (Str.take n s) = true.
Proof.
  revert s. induction n as [|n IH]; intros [|c s] H; simpl in *; try done.
  apply andb_prop in H as [-> H]. by apply IH.
Qed.

(* ===================================================================== *)
(** ** [mask_contact] *)
(* ===================================================================== *)

(** The value on a non-empty string: the digits are kept, and the last four
    shown when there are at least four. *)
Lemma mask_contact_str (s : string) :
  s ≠ "" →
  mask_contact (VStr s)
  = Ok (VStr (if (4 <=? String.length (Str.filter Str.is_digit s))%nat
              then "XXX-XXX-" +:+ Str.last_n 4 (Str.filter Str.is_digit s)
              else "XXX-XXX-XXXX")).
Proof.
  intros Hs. unfold mask_contact.
  rewrite (proj2 (truthy_VStr s) Hs). simpl negb. cbv iota.
  unfold re_sub_nondigits. rewrite bind_Ok. by case_if.
Qed.

Lemma mask_contact_str_cases (s : string) :
  s ≠ "" →
  ∃ t, mask_contact (VStr s) = Ok (VStr ("XXX-XXX-" +:+ t))
       ∧ String.length t = 4%nat
       ∧ (t = "XXXX" ∨ str_all Str.is_digit t = true).
Proof.
  intros Hs. rewrite (mask_contact_str s Hs).
  destruct (4 <=? String.length (Str.filter Str.is_digit s))%nat eqn:E.
  - apply Nat.leb_le in E.
    exists (Str.last_n 4 (Str.filter Str.is_digit s)). split; [done|]. split.
    + unfold Str.last_n. rewrite str_drop_length. lia.
    + right. unfold Str.last_n. apply str_all_drop, str_all_filter.
  - exists "XXXX". repeat split. by left.
Qed.

(** Whatever non-empty string comes in, the mask is ["XXX-XXX-"] and four
    more characters, twelve in all; the four are ["XXXX"] when the input
    has fewer than four digits and its last four digits otherwise, so two
    inputs with the same digits get the same mask. *)
Theorem mask_contact_shape (s : string) :
  s ≠ "" →
  (∃ t, mask_contact (VStr s) = Ok (VStr ("XXX-XXX-" +:+ t))
        ∧ String.length t = 4%nat
        ∧ (t = "XXXX" ∨ str_all Str.is_digit t = true))
  ∧ (∀ s', s' ≠ "" → Str.filter Str.is_digit s' = Str.filter Str.is_digit s →
           mask_contact (VStr s') = mask_contact (VStr s)).
Proof.
  intros Hs. split; [by apply mask_contact_str_cases|].
  intros s' Hs' E. by rewrite (mask_contact_str s Hs), (mask_contact_str s' Hs'), E.
Qed.

Lemma mask_contact_shape_witness :
  mask_contact (VStr "(92) 300-123-4567") = mask_contact (VStr "+92 300 1234567").
Proof.
  apply (proj2 (mask_contact_shape "+92 300 1234567" ltac:(discriminate)));
    [discriminate | reflexivity].
Defined.

(** Masking a mask changes nothing: whatever [mask_contact] returns, it
    returns again when given that value. *)
Theorem mask_contact_idempotent (contact v : pyval) :
  mask_contact contact = Ok v → mask_contact v = Ok v.
Proof.
  intros H.
  assert (Hcases : v = VNone
                   ∨ ∃ t, v = VStr ("XXX-XXX-" +:+ t) ∧ String.length t = 4%nat
                          ∧ (t = "XXXX" ∨ str_all Str.is_digit t = true)).
  { destruct (truthy contact) eqn:Ht.
    - destruct contact as [|b|z|s|b|d];
        try (unfold mask_contact in H; rewrite Ht in H; discriminate H).
      destruct (mask_contact_str_cases s (proj1 (truthy_VStr s) Ht)) as (t & E & Ht4 & Hd).
      rewrite E in H. injection H as <-. right. by exists t.
    - unfold mask_contact in H. rewrite Ht in H. injection H as <-. by left. }
  destruct Hcases as [-> | (t & -> & Hlen & [-> | Hd])]; [reflexivity..|].
  unfold mask_contact. simpl truthy. simpl negb. cbv iota.
  unfold re_sub_nondigits. rewrite bind_Ok.
  change (Str.filter Str.is_digit ("XXX-XXX-" +:+ t)) with (Str.filter Str.is_digit t).
  rewrite (str_filter_all _ _ Hd), Hlen. simpl Nat.leb. cbv iota.
  unfold Str.last_n. rewrite Hlen. reflexivity.
Qed.

Lemma mask_contact_idempotent_witness :
  mask_contact (VStr "XXX-XXX-4567") = Ok (VStr "XXX-XXX-4567").
Proof.
  apply (mask_contact_idempotent (VStr "+923001234567")). reflexivity.
Defined.

(* ===================================================================== *)
(** ** [mask_email] *)
(* ===================================================================== *)

Lemma str_lacks_cons (sep c : ascii) (s : string) :
  str_lacks sep (String c s) ↔ c ≠ sep ∧ str_lacks sep s.
Proof.
  unfold str_lacks. simpl. destruct (Ascii.eqb_spec c sep); simpl; split.
  - done.
  - by intros [? _].
  - done.
  - by intros [_ ?].
Qed.

Lemma split_lacks (sep : ascii) (s : string) :
  str_lacks sep s → Str.split sep s = [s].
Proof.
  induction s as [|c s IH]; [done|].
  intros [Hc Hs]%str_lacks_cons. simpl.
  destruct (Ascii.eqb_spec c sep); [done|]. by rewrite (IH Hs).
Qed.

Lemma split_app_sep (sep : ascii) (u r : string) :
  str_lacks sep u →
  Str.split sep (u +:+ String sep r) = u :: Str.split sep r.
Proof.
  induction u as [|c u IH]; intros Hu.
  - apply split_head_sep.
  - apply str_lacks_cons in Hu as [Hc Hu]. rewrite str_app_cons. simpl.
    destruct (Ascii.eqb_spec c sep); [done|]. by rewrite (IH Hu).
Qed.

Lemma contains_app_sep (sep : ascii) (u r : string) :
  Str.contains sep (u +:+ String sep r) = true.
Proof.
  induction u as [|c u IH].
  - simpl. by rewrite Ascii.eqb_refl.
  - rewrite str_app_cons. simpl. by rewrite IH, orb_true_r.
Qed.

(** A string with the character [sep] is cut at its first [sep]. *)
Lemma str_cut (sep : ascii) (s : string) :
  Str.contains sep s = true →
  ∃ u r, s = u +:+ String sep r ∧ str_lacks sep u.
Proof.
  induction s as [|c s IH]; [done|]. simpl.
  destruct (Ascii.eqb_spec c sep) as [->|Hc]; simpl.
  - intros _. by exists "", s.
  - intros H. destruct (IH H) as (u & r & -> & Hu).
    exists (String c u), r. split; [done|]. by apply str_lacks_cons.
Qed.

Lemma str_lacks_dec (sep : ascii) (s : string) :
  str_lacks sep s ∨ Str.contains sep s = true.
Proof. unfold str_lacks. destruct (Str.contains sep s); auto. Qed.

Lemma str_lacks_repeat (sep c : ascii) (n : nat) :
  c ≠ sep → str_lacks sep (Str.repeat c n).
Proof.
  intros Hc. induction n as [|n IH]; [done|]. by apply str_lacks_cons.
Qed.

(** The masked local part: the first character and the stars. *)
Lemma mask_email_parts (c : ascii) (u d : string) (rest : list string) :
  (username ← list_index (String c u :: d :: rest) 0;
   domain ← list_index (String c u :: d :: rest) 1;
   masked_username ←
     (if (String.length username <=? 2)%nat then
        c ← Str.index username 0; Ok (String c "*")
      else
        c ← Str.index username 0;
        Ok (String c (Str.repeat "*" (String.length username - 1))));
   Ok (VStr (masked_username +:+ "@" +:+ domain)))
  = Ok (VStr (String c (Str.repeat "*" (Nat.max 1 (String.length u))) +:+ "@" +:+ d)).
Proof.
  destruct u as [|x [|y u]]; reflexivity.
Qed.

(** The value once the string is cut at its first ["@"]: [d] is the text up
    to the next ["@"], or to the end. *)
Lemma mask_email_split (c : ascii) (u r d : string) (rest : list string) :
  str_lacks "@" u → c ≠ "@"%char → Str.split "@" r = d :: rest →
  mask_email (VStr (String c u +:+ String "@" r))
  = Ok (VStr (String c (Str.repeat "*" (Nat.max 1 (String.length u))) +:+ "@" +:+ d)).
Proof.
  intros Hu Hc Hr.
  assert (Hcu : str_lacks "@" (String c u)) by by apply str_lacks_cons.
  unfold mask_email.
  change (truthy (VStr (String c u +:+ String "@" r))) with true.
  simpl negb. cbv iota.
  unfold at_not_in. rewrite contains_app_sep, bind_Ok. simpl negb. cbv iota.
  unfold py_split.
  rewrite (split_app_sep "@" (String c u) r Hcu), Hr, bind_Ok.
  apply mask_email_parts.
Qed.

(** What [mask_email] shows of an address: the first character, one star
    for every other character of the local part (one star when there is no
    other), the ["@"] and the text up to a second ["@"]; a second ["@"] and
    what follows it are dropped. *)
Theorem mask_email_visible_parts (c : ascii) (u d tail : string) :
  c ≠ "@"%char → str_lacks "@" u → str_lacks "@" d →
  mask_email (VStr (String c u +:+ "@" +:+ d))
  = Ok (VStr (String c (Str.repeat "*" (Nat.max 1 (String.length u))) +:+ "@" +:+ d))
  ∧ mask_email (VStr (String c u +:+ "@" +:+ d +:+ "@" +:+ tail))
    = Ok (VStr (String c (Str.repeat "*" (Nat.max 1 (String.length u))) +:+ "@" +:+ d)).
Proof.
  intros Hc Hu Hd.
  change (String c u +:+ "@" +:+ d +:+ "@" +:+ tail)
    with (String c u +:+ String "@" (d +:+ String "@" tail)).
  change (String c u +:+ "@" +:+ d) with (String c u +:+ String "@" d) at 1.
  split.
  - apply (mask_email_split c u d d [] Hu Hc). by apply split_lacks.
  - apply (mask_email_split c u _ d (Str.split "@" tail) Hu Hc).
    by apply split_app_sep.
Qed.

Lemma mask_email_visible_parts_witness :
  mask_email (VStr "john.doe@email.com") = Ok (VStr "j*******@email.com")
  ∧ mask_email (VStr "john.doe@email.com@evil.org") = Ok (VStr "j*******@email.com").
Proof.
  apply (mask_email_visible_parts "j" "ohn.doe" "email.com" "evil.org");
    [discriminate | reflexivity | reflexivity].
Defined.

(** A string with an ["@"] that does not start with it is masked to a
    string. *)
Lemma mask_email_masks (s : string) :
  Str.contains "@" s = true → (∀ rest, s ≠ String "@" rest) →
  ∃ c u d, mask_email (VStr s)
           = Ok (VStr (String c (Str.repeat "*" (Nat.max 1 (String.length u))) +:+ "@" +:+ d))
           ∧ c ≠ "@"%char ∧ str_lacks "@" d.
Proof.
  intros Hat Hstart.
  destruct (str_cut "@" s Hat) as (u & r & -> & Hu).
  destruct u as [|c u]; [by destruct (Hstart r)|].
  apply str_lacks_cons in Hu as [Hc Hu].
  destruct (str_lacks_dec "@" r) as [Hr|Hr].
  - exists c, u, r. split; [|done].
    apply (mask_email_split c u r r [] Hu Hc). by apply split_lacks.
  - destruct (str_cut "@" r Hr) as (d & tail & -> & Hd).
    exists c, u, d. split; [|done].
    apply (mask_email_split c u _ d (Str.split "@" tail) Hu Hc).
    by apply split_app_sep.
Qed.

Lemma mask_email_no_at (s : string) :
  str_lacks "@" s → mask_email (VStr s) = Ok VNone.
Proof.
  intros Hs. unfold mask_email. simpl truthy.
  destruct (String.eqb s ""); simpl negb; cbv iota; [done|].
  unfold at_not_in. rewrite Hs. reflexivity.
Qed.

(** On a string, [mask_email] returns [None] when there is no ["@"], and
    raises exactly when the string starts with ["@"]. *)
Theorem mask_email_outcome (s : string) :
  (str_lacks "@" s → mask_email (VStr s) = Ok VNone)
  ∧ ((∃ e, mask_email (VStr s) = Raise e) ↔ ∃ rest, s = String "@" rest).
Proof.
  split; [apply mask_email_no_at|]. split.
  - intros [e He].
    destruct (str_lacks_dec "@" s) as [Hs|Hs].
    + rewrite (mask_email_no_at s Hs) in He. discriminate He.
    + destruct s as [|c s]; [done|].
      destruct (Ascii.eqb_spec c "@") as [->|Hc]; [by exists s|].
      destruct (mask_email_masks (String c s) Hs) as (c' & u & d & E & _).
      { intros rest [= -> _]. done. }
      rewrite E in He. discriminate He.
  - intros [rest ->]. exists IndexError. apply mask_email_empty_local_part.
Qed.

Lemma mask_email_outcome_witness :
  mask_email (VStr "no-at-sign") = Ok VNone.
Proof. apply (proj1 (mask_email_outcome "no-at-sign")). reflexivity. Defined.

(** Masking a masked address changes nothing. *)
Theorem mask_email_idempotent (email v : pyval) :
  mask_email email = Ok v → mask_email v = Ok v.
Proof.
  intros H.
  destruct (truthy email) eqn:Ht.
  - destruct email as [|b|z|s|b|d];
      try (unfold mask_email in H; rewrite Ht in H; discriminate H).
    destruct (str_lacks_dec "@" s) as [Hs|Hs].
    + rewrite (mask_email_no_at s Hs) in H. by injection H as <-.
    + destruct (mask_email_masks s Hs) as (c & u & d' & E & Hc & Hd).
      { intros rest ->.
        rewrite mask_email_empty_local_part in H. discriminate H. }
      rewrite E in H. injection H as <-.
      pose proof (mask_email_split c
                    (Str.repeat "*" (Nat.max 1 (String.length u))) d' d' []
                    (str_lacks_repeat "@" "*" _ ltac:(discriminate)) Hc
                    (split_lacks "@" d' Hd)) as E'.
      change (String c (Str.repeat "*" (Nat.max 1 (String.length u))) +:+ String "@" d')
        with (String c (Str.repeat "*" (Nat.max 1 (String.length u))) +:+ "@" +:+ d') in E'.
      rewrite E', str_repeat_length. do 4 f_equal. f_equal. lia.
  - unfold mask_email in H. rewrite Ht in H. by injection H as <-.
Qed.

Lemma mask_email_idempotent_witness :
  mask_email (VStr "j*******@email.com") = Ok (VStr "j*******@email.com").
Proof.
  apply (mask_email_idempotent (VStr "john.doe@email.com")). reflexivity.
Defined.

(* ===================================================================== *)
(** ** [anonymize_address] *)
(* ===================================================================== *)

Lemma split_app_last (sep : ascii) (a city : string) :
  str_lacks sep city →
  Str.split sep (a +:+ String sep city) = (Str.split sep a ++ [city])%list.
Proof.
  intros Hc. induction a as [|c a IH].
  - change ("" +:+ String sep city) with (String sep city).
    by rewrite split_head_sep, (split_lacks sep city Hc).
  - rewrite str_app_cons. simpl. rewrite IH.
    destruct (Ascii.eqb c sep); [done|].
    destruct (Str.split sep a) as [|p ps] eqn:E; [by destruct (split_not_nil sep a)|].
    done.
Qed.

Lemma list_last_snoc {A} (l : list A) (x : A) : list_last (l ++ [x]) = Ok x.
Proof. unfold list_last. by rewrite List.rev_app_distr. Qed.

(** The value on a string cut at its last comma. *)
Lemma anonymize_address_cut (street city : string) :
  str_lacks "," city →
  anonymize_address (VStr (street +:+ String "," city))
  = Ok (VStr ("*****, " +:+ Str.strip city)).
Proof.
  intros Hc. unfold anonymize_address.
  assert (Ht : truthy (VStr (street +:+ String "," city)) = true).
  { apply truthy_VStr. by destruct street. }
  rewrite Ht. simpl negb. cbv iota.
  unfold py_split. rewrite bind_Ok, (split_app_last "," street city Hc).
  rewrite List.length_app, list_last_snoc, bind_Ok.
  destruct (Str.split "," street) as [|p ps] eqn:E;
    [by destruct (split_not_nil "," street)|].
  simpl List.length.
  replace (1 <? S (List.length ps) + 1)%nat with true
    by (symmetry; apply Nat.ltb_lt; lia).
  reflexivity.
Qed.

(** Nothing before the last comma reaches the result: it is ["*****, "] and
    the text after the last comma, stripped of surrounding whitespace.  A
    non-empty address without a comma gives exactly ["*****"]. *)
Theorem anonymize_address_keeps_city_only (street city : string) :
  str_lacks "," city →
  anonymize_address (VStr (street +:+ "," +:+ city))
  = Ok (VStr ("*****, " +:+ Str.strip city))
  ∧ (city ≠ "" → anonymize_address (VStr city) = Ok (VStr "*****")).
Proof.
  intros Hc. split; [by apply anonymize_address_cut|].
  intros Hne. unfold anonymize_address.
  rewrite (proj2 (truthy_VStr city) Hne). simpl negb. cbv iota.
  unfold py_split. by rewrite bind_Ok, (split_lacks "," city Hc).
Qed.

Lemma anonymize_address_keeps_city_only_witness :
  anonymize_address (VStr ("Flat 4, 123 Main St" +:+ "," +:+ " Karachi "))
  = Ok (VStr ("*****, " +:+ Str.strip " Karachi ")).
Proof.
  apply (anonymize_address_keeps_city_only "Flat 4, 123 Main St" " Karachi ").
  reflexivity.
Defined.

Lemma rev_onto_app (s acc : string) : Str.rev_onto s acc = Str.rev s +:+ acc.
Proof.
  unfold Str.rev. revert acc. induction s as [|c s IH]; intros acc; [done|].
  simpl. rewrite (IH (String c acc)), (IH (String c "")).
  by rewrite str_app_assoc.
Qed.

Lemma rev_cons (c : ascii) (s : string) : Str.rev (String c s) = Str.rev s +:+ String c "".
Proof. unfold Str.rev at 1. simpl. apply rev_onto_app. Qed.

Lemma rev_app (a b : string) : Str.rev (a +:+ b) = Str.rev b +:+ Str.rev a.
Proof.
  induction a as [|c a IH].
  - by rewrite str_app_nil_r.
  - by rewrite str_app_cons, !rev_cons, IH, str_app_assoc.
Qed.

Lemma rev_involutive (s : string) : Str.rev (Str.rev s) = s.
Proof.
  induction s as [|c s IH]; [done|].
  by rewrite rev_cons, rev_app, IH.
Qed.

Lemma str_all_app (p : ascii -> bool) (a b : string) :
  str_all p (a +:+ b) = str_all p a && str_all p b.
Proof.
  induction a as [|c a IH]; [done|].
  rewrite str_app_cons. simpl. by rewrite IH, andb_assoc.
Qed.

Lemma str_all_rev (p : ascii -> bool) (s : string) : str_all p (Str.rev s) = str_all p s.
Proof.
  induction s as [|c s IH]; [done|].
  rewrite rev_cons, str_all_app, IH. simpl. by rewrite andb_true_r, andb_comm.
Qed.

Lemma lstrip_nil (s : string) : Str.lstrip s = "" ↔ str_all Str.is_space s = true.
Proof.
  induction s as [|c s IH]; [done|]. simpl.
  destruct (Str.is_space c); simpl; [exact IH|]. split; discriminate.
Qed.

(** What [lstrip] leaves is empty or starts with a character that is not
    whitespace, and [lstrip] leaves such a string alone. *)
Lemma lstrip_idempotent (s : string) : Str.lstrip (Str.lstrip s) = Str.lstrip s.
Proof.
  induction s as [|c s IH]; [done|]. simpl.
  destruct (Str.is_space c) eqn:E; [exact IH|]. simpl. by rewrite E.
Qed.

Lemma lstrip_decompose (s : string) :
  ∃ ws, s = ws +:+ Str.lstrip s ∧ str_all Str.is_space ws = true.
Proof.
  induction s as [|c s (ws & IH & Hws)]; [by exists ""|]. simpl.
  destruct (Str.is_space c) eqn:E.
  - exists (String c ws). rewrite str_app_cons, <- IH. simpl. by rewrite E, Hws.
  - by exists "".
Qed.

Lemma lstrip_app_l (a b : string) :
  Str.lstrip a ≠ "" → Str.lstrip (a +:+ b) = Str.lstrip a +:+ b.
Proof.
  induction a as [|c a IH]; [done|]. rewrite str_app_cons. simpl.
  destruct (Str.is_space c); [exact IH|done].
Qed.

Lemma rstrip_idempotent (s : string) : Str.rstrip (Str.rstrip s) = Str.rstrip s.
Proof.
  unfold Str.rstrip. by rewrite rev_involutive, lstrip_idempotent.
Qed.

Lemma rev_nil (s : string) : Str.rev s = "" → s = "".
Proof. intros H. apply (f_equal Str.rev) in H. by rewrite rev_involutive in H. Qed.

Lemma rstrip_nil (s : string) : Str.rstrip s = "" → str_all Str.is_space s = true.
Proof.
  unfold Str.rstrip. intros H%rev_nil%lstrip_nil. by rewrite str_all_rev in H.
Qed.

Lemma rstrip_app_r (a b : string) :
  Str.rstrip b ≠ "" → Str.rstrip (a +:+ b) = a +:+ Str.rstrip b.
Proof.
  unfold Str.rstrip. intros H.
  rewrite rev_app, lstrip_app_l, rev_app, rev_involutive; [done|].
  intros E. apply H. by rewrite E.
Qed.

(** A stripped string has no whitespace left to strip at either end. *)
Lemma strip_fixed (s : string) :
  Str.lstrip (Str.strip s) = Str.strip s ∧ Str.rstrip (Str.strip s) = Str.strip s.
Proof.
  unfold Str.strip. split; [apply lstrip_idempotent|].
  set (r := Str.rstrip s).
  assert (Hr : Str.rstrip r = r) by apply rstrip_idempotent.
  destruct (lstrip_decompose r) as (ws & Hdec & Hws).
  destruct (Str.lstrip r) as [|c t] eqn:Ec; [done|].
  assert (Hne : Str.rstrip (String c t) ≠ "").
  { intros E%rstrip_nil. apply lstrip_nil in E.
    rewrite <- Ec, lstrip_idempotent, Ec in E. discriminate E. }
  rewrite Hdec, (rstrip_app_r ws _ Hne) in Hr.
  by apply (inj (String.app ws)) in Hr.
Qed.

Lemma strip_after_space (s : string) :
  Str.strip (String " " (Str.strip s)) = Str.strip s.
Proof.
  destruct (strip_fixed s) as [Hl Hr].
  destruct (Str.strip s) as [|c t] eqn:E; [reflexivity|].
  unfold Str.strip at 1.
  change (String " " (String c t)) with (" " +:+ String c t).
  rewrite rstrip_app_r by (rewrite Hr; discriminate).
  rewrite Hr. exact Hl.
Qed.

Lemma str_lacks_app (sep : ascii) (a b : string) :
  str_lacks sep (a +:+ b) ↔ str_lacks sep a ∧ str_lacks sep b.
Proof.
  induction a as [|c a IH]; [by split; [|intros [_ ?]]|].
  rewrite str_app_cons, !str_lacks_cons, IH. tauto.
Qed.

Lemma str_lacks_rev (sep : ascii) (s : string) : str_lacks sep (Str.rev s) ↔ str_lacks sep s.
Proof.
  induction s as [|c s IH]; [done|].
  rewrite rev_cons, str_lacks_app, IH, !str_lacks_cons. unfold str_lacks at 2. simpl. tauto.
Qed.

Lemma str_lacks_lstrip (sep : ascii) (s : string) :
  str_lacks sep s → str_lacks sep (Str.lstrip s).
Proof.
  intros H. destruct (lstrip_decompose s) as (ws & E & _).
  rewrite E in H. by apply str_lacks_app in H as [_ H].
Qed.

Lemma str_lacks_strip (sep : ascii) (s : string) :
  str_lacks sep s → str_lacks sep (Str.strip s).
Proof.
  intros H. unfold Str.strip, Str.rstrip.
  by apply str_lacks_lstrip, str_lacks_rev, str_lacks_lstrip, str_lacks_rev.
Qed.

Lemma split_parts_lack (sep : ascii) (s : string) :
  List.Forall (str_lacks sep) (Str.split sep s).
Proof.
  induction s as [|c s IH]; [by repeat constructor|]. simpl.
  destruct (Ascii.eqb_spec c sep) as [->|Hc]; [by constructor|].
  destruct (Str.split sep s) as [|p ps];
    [constructor; [by apply str_lacks_cons|constructor]|].
  apply Forall_cons_1 in IH as [Hp Hps].
  constructor; [by apply str_lacks_cons|done].
Qed.

Lemma list_last_In {A} (l : list A) (x : A) : list_last l = Ok x → List.In x l.
Proof.
  unfold list_last. destruct (List.rev l) as [|y r] eqn:E; [done|].
  intros [= ->]. apply List.in_rev. rewrite E. by left.
Qed.

Lemma list_last_lacks (sep : ascii) (s last : string) :
  list_last (Str.split sep s) = Ok last → str_lacks sep last.
Proof.
  intros H%list_last_In.
  by apply (proj1 (List.Forall_forall _ _) (split_parts_lack sep s)).
Qed.

(** What [anonymize_address] can return: [None], ["*****"], or ["*****, "]
    and a stripped, comma-free city. *)
Lemma anonymize_address_values (address v : pyval) :
  anonymize_address address = Ok v →
  v = VNone ∨ v = VStr "*****"
  ∨ ∃ last, v = VStr ("*****, " +:+ Str.strip last) ∧ str_lacks "," last.
Proof.
  intros H. unfold anonymize_address in H.
  destruct (truthy address) eqn:Ht; simpl negb in H; cbv iota in H;
    [|injection H as <-; by left].
  destruct address as [|b|z|s|b|d]; try discriminate H.
  unfold py_split in H. rewrite bind_Ok in H.
  destruct (1 <? List.length (Str.split "," s))%nat;
    [|injection H as <-; right; by left].
  destruct (list_last (Str.split "," s)) as [last|e] eqn:El; [|discriminate H].
  rewrite bind_Ok in H. injection H as <-.
  right. right. exists last. split; [done|]. by apply (list_last_lacks "," s).
Qed.

Lemma anonymize_address_again (address v : pyval) :
  anonymize_address address = Ok v → anonymize_address v = Ok v.
Proof.
  intros [-> | [-> | (last & -> & Hl)]]%anonymize_address_values; [done..|].
  pose proof (anonymize_address_cut "*****" (String " " (Str.strip last))) as E.
  rewrite strip_after_space in E. apply E.
  apply str_lacks_cons. split; [done|]. by apply str_lacks_strip.
Qed.

(** Anonymizing an anonymized address changes nothing, and what comes back
    is [None] or starts with the five stars. *)
Theorem anonymize_address_idempotent (address v : pyval) :
  anonymize_address address = Ok v →
  anonymize_address v = Ok v
  ∧ (v = VNone ∨ ∃ t, v = VStr ("*****" +:+ t)).
Proof.
  intros H. split; [by apply (anonymize_address_again address)|].
  apply anonymize_address_values in H as [-> | [-> | (last & -> & _)]].
  - by left.
  - right. by exists "".
  - right. by exists (", " +:+ Str.strip last).
Qed.

Lemma anonymize_address_idempotent_witness :
  anonymize_address (VStr "*****, Karachi") = Ok (VStr "*****, Karachi").
Proof.
  apply (proj1 (anonymize_address_idempotent (VStr "123 Main St, Karachi") _ eq_refl)).
Defined.

(* ===================================================================== *)
(** ** Role-based masking: fields, frame and repeated masking *)
(* ===================================================================== *)

Lemma update_if_present_dom key f (m m' : record) :
  update_if_present key f m = Ok m' → dom m' = dom m.
Proof.
  unfold update_if_present. intros H.
  destruct (m !! key) as [v|] eqn:E; [|congruence].
  destruct (f v) as [v'|e]; simpl in H; [|discriminate].
  injection H as <-. by apply dom_insert_lookup_L.
Qed.

Lemma sample_receptionist_view :
  ∃ r', mask_sensitive_data sample_patient "receptionist" = Ok r'.
Proof.
  rewrite mask_sensitive_data_receptionist.
  destruct (update_if_present_returns "diagnosis"
              (fun _ => Ok (VStr "***RESTRICTED***")) sample_patient) as [m1 E1];
    [by intros v _|].
  destruct (update_if_present_returns "address" anonymize_address m1) as [m2 E2].
  { intros v Hv. rewrite (update_if_present_frame _ _ _ _ E1) in Hv by done.
    vm_compute in Hv. by injection Hv as <-. }
  exists m2. rewrite E1. simpl. by rewrite E2.
Defined.

(** Whatever the role, the record that comes back has exactly the fields of
    the input: masking adds no field and removes none. *)
Theorem mask_sensitive_data_keeps_fields (rec r' : record) (role : string) :
  mask_sensitive_data rec role = Ok r' → dom r' = dom rec.
Proof.
  unfold mask_sensitive_data.
  destruct (String.eqb role "admin"); [by intros [= <-]|].
  destruct (String.eqb role "doctor").
  - destruct (update_if_present "name" _ rec) as [m1|e] eqn:E1; simpl; [|discriminate].
    destruct (update_if_present "contact" _ m1) as [m2|e] eqn:E2; simpl; [|discriminate].
    destruct (update_if_present "email" _ m2) as [m3|e] eqn:E3; simpl; [|discriminate].
    intros [= <-].
    by rewrite (update_if_present_dom _ _ _ _ E3), (update_if_present_dom _ _ _ _ E2),
      (update_if_present_dom _ _ _ _ E1).
  - destruct (String.eqb role "receptionist"); [|by intros [= <-]].
    destruct (update_if_present "diagnosis" _ rec) as [m1|e] eqn:E1; simpl; [|discriminate].
    destruct (update_if_present "address" _ m1) as [m2|e] eqn:E2; simpl; [|discriminate].
    intros [= <-].
    by rewrite (update_if_present_dom _ _ _ _ E2), (update_if_present_dom _ _ _ _ E1).
Qed.

Lemma mask_sensitive_data_keeps_fields_witness :
  ∃ r', mask_sensitive_data sample_patient "receptionist" = Ok r'
        ∧ dom r' = dom sample_patient.
Proof.
  destruct sample_receptionist_view as [r' E].
  exists r'. split; [exact E|].
  exact (mask_sensitive_data_keeps_fields sample_patient r' "receptionist" E).
Defined.

(** For the role [receptionist], the record that comes back agrees with the
    input on every field other than [diagnosis] and [address] (so on
    [name], [contact] and [email]), and its [address] is
    [anonymize_address(address)]. *)
Theorem mask_receptionist_frame_and_address (rec r' : record) :
  mask_sensitive_data rec "receptionist" = Ok r' →
  (∀ k, k ≠ "diagnosis" → k ≠ "address" → r' !! k = rec !! k)
  ∧ r' !! "name" = rec !! "name"
  ∧ r' !! "contact" = rec !! "contact"
  ∧ r' !! "email" = rec !! "email"
  ∧ replaced_by rec r' "address" anonymize_address.
Proof.
  rewrite mask_sensitive_data_receptionist.
  destruct (update_if_present "diagnosis" _ rec) as [m1|e] eqn:E1; simpl; [|discriminate].
  destruct (update_if_present "address" _ m1) as [m2|e] eqn:E2; simpl; [|discriminate].
  intros [= <-].
  pose proof (update_if_present_frame _ _ _ _ E1) as F1.
  pose proof (update_if_present_frame _ _ _ _ E2) as F2.
  assert (Hframe : ∀ k, k ≠ "diagnosis" → k ≠ "address" → m2 !! k = rec !! k).
  { intros k Hd Ha. by rewrite F2, F1. }
  split; [exact Hframe|].
  repeat (split; [by apply Hframe|]).
  apply update_if_present_field in E2. unfold replaced_by in *.
  by rewrite F1 in E2.
Qed.

Lemma mask_receptionist_frame_and_address_witness :
  ∃ r', mask_sensitive_data sample_patient "receptionist" = Ok r'
        ∧ r' !! "name" = sample_patient !! "name".
Proof.
  destruct sample_receptionist_view as [r' E].
  exists r'. split; [exact E|].
  apply (mask_receptionist_frame_and_address sample_patient r' E).
Defined.

Lemma update_if_present_fixed key f (m : record) :
  (∀ v, m !! key = Some v → f v = Ok v) → update_if_present key f m = Ok m.
Proof.
  unfold update_if_present. intros H.
  destruct (m !! key) as [v|] eqn:E; [|done].
  rewrite (H v eq_refl). simpl. by rewrite insert_id.
Qed.

(** Masking for the receptionist a record already masked for the
    receptionist gives the same record again. *)
Theorem mask_receptionist_idempotent (rec r' : record) :
  mask_sensitive_data rec "receptionist" = Ok r' →
  mask_sensitive_data r' "receptionist" = Ok r'.
Proof.
  intros H. pose proof H as H0. revert H.
  rewrite !mask_sensitive_data_receptionist.
  destruct (update_if_present "diagnosis" _ rec) as [m1|e] eqn:E1; simpl; [|discriminate].
  destruct (update_if_present "address" _ m1) as [m2|e] eqn:E2; simpl; [|discriminate].
  intros [= <-].
  pose proof (update_if_present_frame _ _ _ _ E2) as F2.
  pose proof (update_if_present_field _ _ _ _ E1) as D1.
  pose proof (update_if_present_field _ _ _ _ E2) as A2.
  unfold replaced_by in *.
  rewrite (update_if_present_fixed "diagnosis" _ m2); simpl.
  - rewrite (update_if_present_fixed "address" _ m2); [done|]. intros v Hv.
    destruct (m1 !! "address") as [a|]; [|congruence].
    destruct A2 as (v' & Ha & Hv'). rewrite Hv' in Hv. injection Hv as <-.
    by apply (anonymize_address_again a).
  - intros v Hv. rewrite F2 in Hv by done.
    destruct (rec !! "diagnosis") as [d|]; [|congruence].
    destruct D1 as (v' & [= <-] & Hv'). congruence.
Qed.

Lemma mask_receptionist_idempotent_witness :
  ∃ r', mask_sensitive_data sample_patient "receptionist" = Ok r'
        ∧ mask_sensitive_data r' "receptionist" = Ok r'.
Proof.
  destruct sample_receptionist_view as [r' E].
  exists r'. split; [exact E|].
  exact (mask_receptionist_idempotent sample_patient r' E).
Defined.

(* ===================================================================== *)
(** ** Validators, sanitizer and diagnosis mask, run *)
(* ===================================================================== *)

Example validate_contact_run :
  List.map (fun s => validate_contact (VStr s))
    ["+923001234567"; "1234567890" +:+ nl; "1234567890" +:+ nl +:+ nl; "123456789";
     "1234567890123456"; "+1234567890"; "++1234567890"; "1234567890 ";
     nl +:+ "1234567890"; "+123456789012345"; "+1234567890123456";
     "12345678901234" +:+ nl +:+ "5"; "abc"]
  = List.map Ok [true; true; false; false; false; true; false; false; false; true;
                 false; false; false].
Proof. vm_compute. reflexivity. Qed.

Example validate_email_run :
  List.map (fun s => validate_email (VStr s))
    ["a@b.com"; "a@b"; "a@b.c"; "a@b.co" +:+ nl; "a@b@c.com"; "@b.com"; "a@.com";
     "a@b..com"; "a.b%c+d-e_f@x-y.z.org"; "a@b.c0m"; "a@b.com "; "A@B.COM"; "a@-.ab"]
  = List.map Ok [true; false; false; true; false; false; false; true; true; false;
                 false; true; true].
Proof. vm_compute. reflexivity. Qed.

Example sanitize_input_run :
  [sanitize_input (VStr (String "a" (String ";" (String "b" (String "'" (String "c"
      (String dquote (String "d" (String backslash "e"))))))))) 5;
   sanitize_input (VBytes (list_byte_of_string "a'b")) 500;
   sanitize_input (VStr "abcdef") (-2); sanitize_input (VStr "ab") (-5);
   sanitize_input (VInt 12345) 3; sanitize_input (VBool true) 500;
   sanitize_input VNone 500; sanitize_input (VInt 0) 500]
  = ["abcde"; "bab"; "abcd"; ""; "123"; "True"; ""; ""].
Proof. vm_compute. reflexivity. Qed.

Example py_str_run :
  [PyStr.str (VInt (-5)); PyStr.str (VDatetime (mkDatetime 2024 1 2 3 4 5 0));
   PyStr.str (VDatetime (mkDatetime 2024 1 2 3 4 5 7));
   PyStr.str (VDatetime (mkDatetime 5 1 2 0 0 0 0));
   PyStr.str (VBytes (list_byte_of_string "plain"));
   PyStr.str (VBytes (List.map Utf8.byte_of_Z [31; 32; 126; 128; 0; 10; 9; 13; 92; 127; 255]))]
  = ["-5"; "2024-01-02 03:04:05"; "2024-01-02 03:04:05.000007"; "0005-01-02 00:00:00";
     "b'plain'";
     String.concat (String backslash "")
       ["b'"; "x1f ~"; "x80"; "x00"; "n"; "t"; "r"; ""; ""; "x7f"; "xff'"]].
Proof. vm_compute. reflexivity. Qed.

Example mask_diagnosis_run :
  [mask_diagnosis (VStr "Type 2 Diabetes") (VStr "partial");
   mask_diagnosis (VStr "  Flu  ") (VStr "partial");
   mask_diagnosis (VStr "   ") (VStr "partial");
   mask_diagnosis (VStr ("Flu" +:+ String (Str.chr 9) "severe")) (VStr "partial");
   mask_diagnosis (VBytes (list_byte_of_string "a b")) (VStr "partial");
   mask_diagnosis (VBytes (list_byte_of_string "ab")) (VStr "partial");
   mask_diagnosis (VStr ("a" +:+ String (Str.chr 160) "b")) (VStr "partial");
   mask_diagnosis (VStr "Type 2 Diabetes") (VStr "full");
   mask_diagnosis (VStr "") (VStr "full");
   mask_diagnosis (VInt 5) (VStr "partial")]
  = [Ok (VStr "Type ***"); Ok (VStr "  Flu  "); Ok (VStr "   "); Ok (VStr "Flu ***");
     Ok (VStr "b'a' ***"); Ok (VBytes (list_byte_of_string "ab")); Ok (VStr "a ***");
     Ok (VStr "***CONFIDENTIAL***"); Ok VNone; Raise AttributeError].
Proof. vm_compute. reflexivity. Qed.

Example generate_anonymous_id_run :
  generate_anonymous_id (List.map Utf8.byte_of_Z [129; 43; 11; 2]) (VStr "PATIENT")
  = "PATIENT_812B0B02".
Proof. vm_compute. reflexivity. Qed.

(* ===================================================================== *)
(** ** [sanitize_input] *)
(* ===================================================================== *)

Lemma str_lacks_filter (p : ascii -> bool) (c : ascii) (s : string) :
  p c = false → str_lacks c (Str.filter p s).
Proof.
  intros Hc. induction s as [|x s IH]; [done|]. simpl.
  destruct (p x) eqn:E; [|exact IH].
  apply str_lacks_cons. split; [congruence|exact IH].
Qed.

Lemma str_lacks_take (c : ascii) (n : nat) (s : string) :
  str_lacks c s → str_lacks c (Str.take n s).
Proof.
  revert s. induction n as [|n IH]; intros [|x s] H; try done.
  apply str_lacks_cons in H as [Hx Hs]. simpl.
  apply str_lacks_cons. split; [done|by apply IH].
Qed.

Lemma str_take_length_le (n : nat) (s : string) :
  (String.length (Str.take n s) <= n)%nat ∧ (String.length (Str.take n s) <= String.length s)%nat.
Proof.
  revert s. induction n as [|n IH]; intros [|x s]; simpl; try lia.
  destruct (IH s). lia.
Qed.

Lemma str_take_take (n : nat) (s : string) : Str.take n (Str.take n s) = Str.take n s.
Proof. apply str_take_all. apply str_take_length_le. Qed.

(** [s[:n]] is the first [k] characters of [s], for some [k]. *)
Lemma slice_to_take (n : Z) (s : string) :
  ∃ k, PyStr.slice_to n s = Str.take k s ∧ (0 <= n → k = Z.to_nat n).
Proof.
  unfold PyStr.slice_to. destruct (Z.leb_spec 0 n).
  - by exists (Z.to_nat n).
  - exists (String.length s - Z.to_nat (- n))%nat. split; [done|lia].
Qed.

Lemma sanitize_input_length (text : pyval) (max_length : Z) :
  0 <= max_length →
  Z.of_nat (String.length (sanitize_input text max_length)) <= max_length.
Proof.
  intros Hn. unfold sanitize_input.
  destruct (truthy text); simpl negb; cbv iota; [|simpl; lia].
  destruct (slice_to_take max_length
              (Str.filter (fun c => negb (class_dangerous c)) (PyStr.str text)))
    as (k & -> & Hk).
  rewrite (Hk Hn).
  pose proof (str_take_length_le (Z.to_nat max_length)
                (Str.filter (fun c => negb (class_dangerous c)) (PyStr.str text))).
  lia.
Qed.





(* ===================================================================== *)
(** ** Regular expressions: the matcher against the language *)
(* ===================================================================== *)

Lemma str_app_eq_nil (a b : string) : a +:+ b = "" → a = "" ∧ b = "".
Proof. destruct a; [done|]. rewrite str_app_cons. discriminate. Qed.

Lemma nullable_lang (r : Re.regex) : Re.nullable r = true ↔ lang r "".
Proof.
  split.
  - induction r as [| |p|r1 IH1 r2 IH2|r1 IH1 r2 IH2|r IH]; simpl; try discriminate.
    + constructor.
    + intros [H1 H2]%andb_prop. apply (lang_seq r1 r2 "" ""); auto.
    + intros [H|H]%orb_prop; [apply lang_alt_l|apply lang_alt_r]; auto.
    + constructor.
  - intros H. remember "" as s eqn:Es.
    induction H as [|p c Hc|r1 r2 s1 s2 H1 IH1 H2 IH2|r1 r2 s H IH|r1 r2 s H IH|r
                    |r s1 s2 H1 IH1 H2 IH2]; simpl; try done.
    + apply str_app_eq_nil in Es as [-> ->]. by rewrite IH1, IH2.
    + by rewrite IH.
    + rewrite IH by done. apply orb_true_r.
Qed.

Lemma deriv_sound (c : ascii) (r : Re.regex) (s : string) :
  lang (Re.deriv c r) s → lang r (String c s).
Proof.
  revert s. induction r as [| |p|r1 IH1 r2 IH2|r1 IH1 r2 IH2|r IH]; intros s H; simpl in H.
  - inversion H.
  - inversion H.
  - destruct (p c) eqn:E; inversion H; subst. by constructor.
  - assert (Hseq : ∀ t, lang (Re.Seq (Re.deriv c r1) r2) t → lang (Re.Seq r1 r2) (String c t)).
    { intros t Ht. inversion Ht as [| |? ? s1 s2 Ha Hb| | | |]; subst.
      rewrite <- str_app_cons. constructor; auto. }
    destruct (Re.nullable r1) eqn:En; [|by apply Hseq].
    inversion H as [| | |? ? ? Ha|? ? ? Hb| |]; subst; [by apply Hseq|].
    apply (lang_seq r1 r2 "" (String c s)); [by apply nullable_lang|auto].
  - inversion H; subst; [apply lang_alt_l|apply lang_alt_r]; auto.
  - inversion H as [| |? ? s1 s2 Ha Hb| | | |]; subst.
    rewrite <- str_app_cons. constructor; auto.
Qed.

Lemma deriv_complete (c : ascii) (r : Re.regex) (s : string) :
  lang r (String c s) → lang (Re.deriv c r) s.
Proof.
  intros H. remember (String c s) as t eqn:Et. revert c s Et.
  induction H as [|p x Hx|r1 r2 s1 s2 H1 IH1 H2 IH2|r1 r2 t H IH|r1 r2 t H IH|r
                  |r s1 s2 H1 IH1 H2 IH2]; intros c s Et; simpl.
  - discriminate.
  - injection Et as -> <-. rewrite Hx. constructor.
  - destruct s1 as [|y s1].
    + change ("" +:+ s2) with s2 in Et. subst s2.
      rewrite (proj2 (nullable_lang r1) H1). apply lang_alt_r. by apply IH2.
    + rewrite str_app_cons in Et. injection Et as -> <-.
      assert (lang (Re.Seq (Re.deriv c r1) r2) (s1 +:+ s2))
        by (constructor; [by apply IH1|done]).
      destruct (Re.nullable r1); [by apply lang_alt_l|done].
  - apply lang_alt_l. by apply IH.
  - apply lang_alt_r. by apply IH.
  - discriminate.
  - destruct s1 as [|y s1].
    + change ("" +:+ s2) with s2 in Et. by apply IH2.
    + rewrite str_app_cons in Et. injection Et as -> <-.
      constructor; [by apply IH1|done].
Qed.

(** The matcher accepts [s] exactly when a prefix of [s] is in the language
    and what is left is nothing, or the one newline [$] lets through. *)
Lemma match_dollar_spec (r : Re.regex) (s : string) :
  Re.match_dollar r s = true
  ↔ ∃ p tail, s = p +:+ tail ∧ lang r p ∧ (tail = "" ∨ tail = nl).
Proof.
  assert (Hend : ∀ t, Re.at_end t = true ↔ (t = "" ∨ t = nl)).
  { intros t. unfold Re.at_end. rewrite orb_true_iff, !String.eqb_eq. done. }
  revert r. induction s as [|c s IH]; intros r; simpl.
  - rewrite orb_false_r, andb_true_r, nullable_lang. split.
    + intros H. exists "", "". auto.
    + intros (p & tail & [-> ->]%eq_sym%str_app_eq_nil & H & _). exact H.
  - rewrite orb_true_iff, andb_true_iff, Hend, nullable_lang, IH. split.
    + intros [[Hn He] | (p & tail & -> & Hp & Ht)].
      * exists "", (String c s). auto.
      * exists (String c p), tail. split; [done|]. split; [by apply deriv_sound|done].
    + intros (p & tail & E & Hp & Ht). destruct p as [|x p].
      * left. change ("" +:+ tail) with tail in E. by subst tail.
      * right. rewrite str_app_cons in E. injection E as <- ->.
        exists p, tail. split; [done|]. split; [by apply deriv_complete|done].
Qed.

Lemma lang_class_iff (p : ascii -> bool) (s : string) :
  lang (Re.Class p) s ↔ ∃ c, s = String c "" ∧ p c = true.
Proof.
  split.
  - intros H. inversion H; subst. eauto.
  - intros (c & -> & Hc). by constructor.
Qed.

Lemma lang_seq_iff (r1 r2 : Re.regex) (s : string) :
  lang (Re.Seq r1 r2) s ↔ ∃ s1 s2, s = s1 +:+ s2 ∧ lang r1 s1 ∧ lang r2 s2.
Proof.
  split.
  - intros H. inversion H; subst. eauto.
  - intros (s1 & s2 & -> & H1 & H2). by constructor.
Qed.

Lemma lang_chr_iff (c : ascii) (s : string) : lang (Re.Chr c) s ↔ s = String c "".
Proof.
  unfold Re.Chr. rewrite lang_class_iff. split.
  - intros (x & -> & Hx). apply Ascii.eqb_eq in Hx. by subst.
  - intros ->. exists c. split; [done|apply Ascii.eqb_refl].
Qed.

Lemma lang_star_class (p : ascii -> bool) (s : string) :
  lang (Re.Star (Re.Class p)) s ↔ str_all p s = true.
Proof.
  split.
  - intros H. remember (Re.Star (Re.Class p)) as r eqn:Er.
    induction H as [| | | | | |r s1 s2 H1 _ H2 IH2]; try discriminate; [done|].
    injection Er as ->. apply lang_class_iff in H1 as (c & -> & Hc).
    rewrite str_app_cons, str_app_nil_l. simpl. by rewrite Hc, IH2.
  - induction s as [|c s IH]; simpl; [constructor|].
    intros [Hc Hs]%andb_prop.
    apply (lang_star_cons (Re.Class p) (String c "") s); [by constructor|auto].
Qed.

Lemma lang_times_class (p : ascii -> bool) (n : nat) (s : string) :
  lang (Re.Times n (Re.Class p)) s ↔ str_all p s = true ∧ String.length s = n.
Proof.
  revert s. induction n as [|n IH]; intros s; simpl.
  - split.
    + intros H. by inversion H.
    + intros [_ H]. destruct s; [constructor|discriminate].
  - rewrite lang_seq_iff. split.
    + intros (s1 & s2 & -> & (c & -> & Hc)%lang_class_iff & [H2 Hl]%IH).
      rewrite str_app_cons, str_app_nil_l. simpl. by rewrite Hc, H2, Hl.
    + intros [Hall Hlen]. destruct s as [|c s]; [discriminate|].
      simpl in Hall. apply andb_prop in Hall as [Hc Hs]. injection Hlen as Hlen.
      exists (String c ""), s. split; [done|]. split; [by constructor|by apply IH].
Qed.

Lemma lang_upto_class (p : ascii -> bool) (n : nat) (s : string) :
  lang (Re.UpTo n (Re.Class p)) s ↔ str_all p s = true ∧ (String.length s <= n)%nat.
Proof.
  revert s. induction n as [|n IH]; intros s; simpl.
  - split.
    + intros H. inversion H. simpl. auto.
    + intros [_ H]. destruct s; [constructor|simpl in H; lia].
  - unfold Re.Opt. split.
    + intros H. inversion H as [| | |? ? ? Ha|? ? ? Hb| |]; subst.
      * apply lang_seq_iff in Ha
          as (s1 & s2 & -> & (c & -> & Hc)%lang_class_iff & [H2 Hl]%IH).
        rewrite str_app_cons, str_app_nil_l. simpl. rewrite Hc, H2. split; [done|lia].
      * inversion Hb. simpl. split; [done|lia].
    + intros [Hall Hlen]. destruct s as [|c s]; [apply lang_alt_r; constructor|].
      simpl in Hall, Hlen. apply andb_prop in Hall as [Hc Hs].
      apply lang_alt_l, lang_seq_iff. exists (String c ""), s.
      split; [done|]. split; [by constructor|]. apply IH. split; [done|lia].
Qed.

Lemma str_take_drop (n : nat) (s : string) : Str.take n s +:+ Str.drop n s = s.
Proof.
  revert s. induction n as [|n IH]; intros [|c s]; try done.
  simpl. by rewrite str_app_cons, IH.
Qed.

Lemma lang_between_class (p : ascii -> bool) (m n : nat) (s : string) :
  (m <= n)%nat →
  lang (Re.Between m n (Re.Class p)) s
  ↔ str_all p s = true ∧ (m <= String.length s <= n)%nat.
Proof.
  intros Hmn. unfold Re.Between. rewrite lang_seq_iff. split.
  - intros (s1 & s2 & -> & [H1 L1]%lang_times_class & [H2 L2]%lang_upto_class).
    rewrite str_all_app, str_app_length, H1, H2. split; [done|lia].
  - intros [Hall Hlen]. exists (Str.take m s), (Str.drop m s).
    split; [by rewrite str_take_drop|]. split.
    + apply lang_times_class. split; [by apply str_all_take|].
      apply str_take_length. lia.
    + apply lang_upto_class. split; [by apply str_all_drop|].
      rewrite str_drop_length. lia.
Qed.

Lemma lang_atleast_class (p : ascii -> bool) (m : nat) (s : string) :
  lang (Re.AtLeast m (Re.Class p)) s
  ↔ str_all p s = true ∧ (m <= String.length s)%nat.
Proof.
  unfold Re.AtLeast. rewrite lang_seq_iff. split.
  - intros (s1 & s2 & -> & [H1 L1]%lang_times_class & H2%lang_star_class).
    rewrite str_all_app, str_app_length, H1, H2. split; [done|lia].
  - intros [Hall Hlen]. exists (Str.take m s), (Str.drop m s).
    split; [by rewrite str_take_drop|]. split.
    + apply lang_times_class. split; [by apply str_all_take|].
      by apply str_take_length.
    + apply lang_star_class. by apply str_all_drop.
Qed.

Lemma lang_plus_class (p : ascii -> bool) (s : string) :
  lang (Re.Plus (Re.Class p)) s ↔ str_all p s = true ∧ s ≠ "".
Proof.
  unfold Re.Plus. rewrite lang_seq_iff. split.
  - intros (s1 & s2 & -> & (c & -> & Hc)%lang_class_iff & H2%lang_star_class).
    rewrite str_app_cons, str_app_nil_l. simpl. by rewrite Hc, H2.
  - intros [Hall Hne]. destruct s as [|c s]; [done|].
    simpl in Hall. apply andb_prop in Hall as [Hc Hs].
    exists (String c ""), s. split; [done|].
    split; [by constructor|by apply lang_star_class].
Qed.

(* ===================================================================== *)
(** ** [validate_contact] and [validate_email] *)
(* ===================================================================== *)

Lemma lang_opt_chr (c : ascii) (s : string) :
  lang (Re.Opt (Re.Chr c)) s ↔ (s = "" ∨ s = String c "").
Proof.
  unfold Re.Opt. split.
  - intros H. inversion H as [| | |? ? ? Ha|? ? ? Hb| |]; subst.
    + right. by apply lang_chr_iff.
    + left. by inversion Hb.
  - intros [-> | ->]; [apply lang_alt_r; constructor|by apply lang_alt_l, lang_chr_iff].
Qed.

(** The language of the contact pattern: an optional ["+"] and ten to
    fifteen digits. *)
Lemma contact_pattern_lang (p : string) :
  lang contact_pattern p
  ↔ ∃ sign digits, p = sign +:+ digits ∧ (sign = "" ∨ sign = "+")
      ∧ str_all class_digit digits = true
      ∧ (10 <= String.length digits <= 15)%nat.
Proof.
  unfold contact_pattern. rewrite lang_seq_iff. split.
  - intros (sign & ds & -> & Hs%lang_opt_chr & Hd).
    apply lang_between_class in Hd as [Hall Hlen]; [|lia]. by exists sign, ds.
  - intros (sign & ds & -> & Hs & Hall & Hlen). exists sign, ds.
    split; [done|]. split; [by apply lang_opt_chr|].
    apply lang_between_class; [lia|done].
Qed.

Lemma validate_contact_nonempty (c : ascii) (s : string) :
  validate_contact (VStr (String c s))
  = Ok (Re.match_dollar contact_pattern (String c s)).
Proof. reflexivity. Qed.

(** [validate_contact] accepts exactly: an optional ["+"], ten to fifteen
    ASCII digits, and nothing more except one newline at the very end,
    which [$] lets through. *)
Theorem validate_contact_accepts (s : string) :
  validate_contact (VStr s) = Ok true
  ↔ ∃ sign digits tail,
      s = sign +:+ digits +:+ tail ∧ (sign = "" ∨ sign = "+")
      ∧ str_all class_digit digits = true
      ∧ (10 <= String.length digits <= 15)%nat
      ∧ (tail = "" ∨ tail = nl).
Proof.
  assert (Hm : Re.match_dollar contact_pattern s = true
               ↔ ∃ sign digits tail,
                   s = sign +:+ digits +:+ tail ∧ (sign = "" ∨ sign = "+")
                   ∧ str_all class_digit digits = true
                   ∧ (10 <= String.length digits <= 15)%nat
                   ∧ (tail = "" ∨ tail = nl)).
  { rewrite match_dollar_spec. split.
    - intros (p & tail & -> & (sign & ds & -> & Hs & Hall & Hlen)%contact_pattern_lang & Ht).
      exists sign, ds, tail. by rewrite str_app_assoc.
    - intros (sign & ds & tail & -> & Hs & Hall & Hlen & Ht).
      exists (sign +:+ ds), tail. rewrite str_app_assoc. split; [done|].
      split; [|done]. apply contact_pattern_lang. by exists sign, ds. }
  destruct s as [|c s].
  - split; [discriminate|].
    intros (sign & ds & tail & E & _ & _ & Hlen & _).
    symmetry in E. apply str_app_eq_nil in E as [_ [-> _]%str_app_eq_nil].
    simpl in Hlen. lia.
  - rewrite validate_contact_nonempty, <- Hm.
    split; [intros H; by injection H|intros H; by f_equal].
Qed.

Lemma validate_contact_accepts_witness :
  validate_contact (VStr ("+" +:+ "923001234567" +:+ nl)) = Ok true.
Proof.
  apply (proj2 (validate_contact_accepts ("+" +:+ "923001234567" +:+ nl))).
  exists "+", "923001234567", nl. repeat split; auto. simpl; lia.
Defined.

Lemma str_all_lacks (p : ascii -> bool) (c : ascii) (s : string) :
  p c = false → str_all p s = true → str_lacks c s.
Proof.
  intros Hc. induction s as [|x s IH]; [done|]. simpl.
  intros [Hx Hs]%andb_prop. apply str_lacks_cons. split; [congruence|auto].
Qed.

Lemma str_all_ext (p q : ascii -> bool) (s : string) :
  (∀ c, p c = q c) → str_all p s = str_all q s.
Proof. intros H. induction s as [|c s IH]; simpl; [done|]. by rewrite H, IH. Qed.

Lemma filter_digits_contact (sign digits tail : string) :
  (sign = "" ∨ sign = "+") → str_all class_digit digits = true →
  (tail = "" ∨ tail = nl) →
  Str.filter Str.is_digit (sign +:+ digits +:+ tail) = digits.
Proof.
  intros Hs Hd Ht.
  assert (Hf : ∀ a b, Str.filter Str.is_digit (a +:+ b)
                      = Str.filter Str.is_digit a +:+ Str.filter Str.is_digit b).
  { intros a b. induction a as [|x a IH]; [done|].
    rewrite str_app_cons. simpl. destruct (Str.is_digit x); [|done].
    by rewrite str_app_cons, IH. }
  rewrite !Hf, (str_filter_all Str.is_digit digits) by exact Hd.
  destruct Hs as [-> | ->], Ht as [-> | ->]; simpl; by rewrite ?str_app_nil_r.
Qed.

(** A contact that [validate_contact] accepts is masked by [mask_contact]
    to ["XXX-XXX-"] and four of its digits, never to ["XXX-XXX-XXXX"]. *)
Theorem validated_contact_mask_shows_digits (s : string) :
  validate_contact (VStr s) = Ok true →
  ∃ t, mask_contact (VStr s) = Ok (VStr ("XXX-XXX-" +:+ t))
       ∧ String.length t = 4%nat ∧ str_all Str.is_digit t = true.
Proof.
  intros H.
  destruct s as [|c s]; [discriminate H|].
  rewrite validate_contact_nonempty in H.
  assert (Hm : Re.match_dollar contact_pattern (String c s) = true) by congruence.
  clear H. apply match_dollar_spec in Hm
    as (p & tail & E & (sign & ds & -> & Hs & Hall & Hlen)%contact_pattern_lang & Ht).
  rewrite mask_contact_str by done. rewrite E, str_app_assoc.
  rewrite (filter_digits_contact sign ds tail Hs Hall Ht).
  replace (4 <=? String.length ds)%nat with true by (symmetry; apply Nat.leb_le; lia).
  exists (Str.last_n 4 ds). split; [done|]. split.
  - unfold Str.last_n. rewrite str_drop_length. lia.
  - unfold Str.last_n. by apply str_all_drop.
Qed.

Lemma validated_contact_mask_shows_digits_witness :
  ∃ t, mask_contact (VStr "+923001234567") = Ok (VStr ("XXX-XXX-" +:+ t))
       ∧ String.length t = 4%nat ∧ str_all Str.is_digit t = true.
Proof.
  apply (validated_contact_mask_shows_digits "+923001234567"). vm_compute. reflexivity.
Defined.

(** The language of the email pattern: a local part, ["@"], a domain, a dot
    and at least two letters. *)
Lemma email_pattern_lang (p : string) :
  lang email_pattern p
  ↔ ∃ loc dom tld,
      p = loc +:+ "@" +:+ dom +:+ "." +:+ tld
      ∧ str_all class_local loc = true ∧ loc ≠ ""
      ∧ str_all class_domain dom = true ∧ dom ≠ ""
      ∧ str_all class_letter tld = true ∧ (2 <= String.length tld)%nat.
Proof.
  unfold email_pattern. split.
  - intros (loc & r1 & -> & [Hl Hln]%lang_plus_class
              & (at_ & r2 & -> & ->%lang_chr_iff
                 & (dom & r3 & -> & [Hd Hdn]%lang_plus_class
                    & (dot & tld & -> & ->%lang_chr_iff
                       & [Ht Htl]%lang_atleast_class)%lang_seq_iff)%lang_seq_iff)%lang_seq_iff
            )%lang_seq_iff.
    by exists loc, dom, tld.
  - intros (loc & dom & tld & -> & Hl & Hln & Hd & Hdn & Ht & Htl).
    apply lang_seq_iff. exists loc, ("@" +:+ dom +:+ "." +:+ tld).
    split; [done|]. split; [by apply lang_plus_class|].
    apply lang_seq_iff. exists "@", (dom +:+ "." +:+ tld).
    split; [done|]. split; [by apply lang_chr_iff|].
    apply lang_seq_iff. exists dom, ("." +:+ tld).
    split; [done|]. split; [by apply lang_plus_class|].
    apply lang_seq_iff. exists ".", tld.
    split; [done|]. split; [by apply lang_chr_iff|by apply lang_atleast_class].
Qed.

Lemma validate_email_nonempty (c : ascii) (s : string) :
  validate_email (VStr (String c s))
  = Ok (Re.match_dollar email_pattern (String c s)).
Proof. reflexivity. Qed.

(** [validate_email] accepts exactly: a non-empty local part of letters,
    digits and [._%+-], an ["@"], a non-empty domain of letters, digits,
    dots and hyphens, a dot, two or more letters, and nothing more except
    one newline at the very end, which [$] lets through. *)
Theorem validate_email_accepts (s : string) :
  validate_email (VStr s) = Ok true
  ↔ ∃ loc dom tld tail,
      s = loc +:+ "@" +:+ dom +:+ "." +:+ tld +:+ tail
      ∧ str_all class_local loc = true ∧ loc ≠ ""
      ∧ str_all class_domain dom = true ∧ dom ≠ ""
      ∧ str_all class_letter tld = true ∧ (2 <= String.length tld)%nat
      ∧ (tail = "" ∨ tail = nl).
Proof.
  assert (Hm : Re.match_dollar email_pattern s = true
               ↔ ∃ loc dom tld tail,
                   s = loc +:+ "@" +:+ dom +:+ "." +:+ tld +:+ tail
                   ∧ str_all class_local loc = true ∧ loc ≠ ""
                   ∧ str_all class_domain dom = true ∧ dom ≠ ""
                   ∧ str_all class_letter tld = true ∧ (2 <= String.length tld)%nat
                   ∧ (tail = "" ∨ tail = nl)).
  { rewrite match_dollar_spec. split.
    - intros (p & tail & -> & (loc & dom & tld & -> & H)%email_pattern_lang & Ht).
      exists loc, dom, tld, tail. split; [|tauto].
      by rewrite !str_app_assoc.
    - intros (loc & dom & tld & tail & -> & H).
      exists (loc +:+ "@" +:+ dom +:+ "." +:+ tld), tail.
      split; [by rewrite !str_app_assoc|]. split; [|tauto].
      apply email_pattern_lang. exists loc, dom, tld. tauto. }
  destruct s as [|c s].
  - split; [discriminate|].
    intros (loc & dom & tld & tail & E & _ & Hln & _).
    symmetry in E. by apply str_app_eq_nil in E as [-> _].
  - rewrite validate_email_nonempty, <- Hm.
    split; [intros H; by injection H|intros H; by f_equal].
Qed.

Lemma validate_email_accepts_witness :
  validate_email (VStr ("john.doe" +:+ "@" +:+ "email" +:+ "." +:+ "com" +:+ "")) = Ok true.
Proof.
  apply (proj2 (validate_email_accepts _)).
  exists "john.doe", "email", "com", "". repeat split; auto. simpl. lia.
Defined.

(** An address that [validate_email] accepts has a local part [String c u]
    and one ["@"]; [mask_email] returns its first character, the stars and
    the whole of what follows the ["@"]: it neither raises nor returns
    [None]. *)
Theorem validated_email_is_masked (s : string) :
  validate_email (VStr s) = Ok true →
  ∃ c u d, s = String c u +:+ "@" +:+ d ∧ str_lacks "@" d
           ∧ mask_email (VStr s)
             = Ok (VStr (String c (Str.repeat "*" (Nat.max 1 (String.length u)))
                         +:+ "@" +:+ d)).
Proof.
  intros H.
  destruct s as [|c0 s0]; [discriminate H|].
  rewrite validate_email_nonempty in H.
  assert (Hm : Re.match_dollar email_pattern (String c0 s0) = true) by congruence.
  clear H. apply match_dollar_spec in Hm
    as (p & tail & E & (loc & dom & tld & -> & Hl & Hln & Hd & _ & Ht & _)%email_pattern_lang
        & Htail).
  rewrite E. clear E.
  destruct loc as [|c u]; [done|].
  simpl in Hl. apply andb_prop in Hl as [Hc Hu].
  set (d := dom +:+ "." +:+ tld +:+ tail).
  assert (Hd' : str_lacks "@" d).
  { unfold d. apply str_lacks_app. split; [by apply (str_all_lacks class_domain)|].
    apply (str_lacks_app "@" "." (tld +:+ tail)). split; [done|].
    apply str_lacks_app. split; [by apply (str_all_lacks class_letter)|].
    by destruct Htail as [-> | ->]. }
  assert (Es : (String c u +:+ "@" +:+ dom +:+ "." +:+ tld) +:+ tail
               = String c u +:+ String "@" d).
  { unfold d. by rewrite !str_app_assoc. }
  exists c, u, d. split; [exact Es|]. split; [exact Hd'|].
  rewrite Es. apply (mask_email_split c u d d []).
  - by apply (str_all_lacks class_local).
  - intros ->. discriminate Hc.
  - by apply split_lacks.
Qed.

Lemma validated_email_is_masked_witness :
  ∃ c u d, "john.doe@email.com" = String c u +:+ "@" +:+ d ∧ str_lacks "@" d
           ∧ mask_email (VStr "john.doe@email.com")
             = Ok (VStr (String c (Str.repeat "*" (Nat.max 1 (String.length u)))
                         +:+ "@" +:+ d)).
Proof.
  apply (validated_email_is_masked "john.doe@email.com"). vm_compute. reflexivity.
Defined.

(* ===================================================================== *)
(** ** [mask_diagnosis] *)
(* ===================================================================== *)

Section Words.

Variable space : ascii -> bool.

Lemma split_whitespace_lead (lead s : string) :
  str_all space lead = true →
  split_whitespace space (lead +:+ s) = split_whitespace space s.
Proof.
  induction lead as [|c lead IH]; [done|]. simpl.
  intros [Hc Hl]%andb_prop. rewrite Hc. auto.
Qed.

Lemma split_whitespace_space (sp : ascii) (s : string) :
  space sp = true → split_whitespace space (String sp s) = split_whitespace space s.
Proof. intros H. simpl. by rewrite H. Qed.

Lemma split_whitespace_cons2 (c c' : ascii) (s : string) :
  split_whitespace space (String c (String c' s))
  = if space c then split_whitespace space (String c' s)
    else if space c' then String c "" :: split_whitespace space (String c' s)
    else match split_whitespace space (String c' s) with
         | w :: ws => String c w :: ws
         | [] => [String c ""]
         end.
Proof. reflexivity. Qed.

Lemma split_whitespace_word (word : string) :
  word ≠ "" → str_all (fun c => negb (space c)) word = true →
  split_whitespace space word = [word].
Proof.
  induction word as [|c w IH]; [done|]. intros _. simpl str_all.
  intros [Hc Hw]%andb_prop. apply negb_true_iff in Hc.
  destruct w as [|c' w]; [simpl; by rewrite Hc|].
  pose proof Hw as Hw'. simpl in Hw'. apply andb_prop in Hw' as [Hc' _].
  apply negb_true_iff in Hc'.
  by rewrite split_whitespace_cons2, Hc, Hc', (IH ltac:(discriminate) Hw).
Qed.

Lemma split_whitespace_word_then (word rest : string) (sp : ascii) :
  word ≠ "" → str_all (fun c => negb (space c)) word = true → space sp = true →
  split_whitespace space (word +:+ String sp rest) = word :: split_whitespace space rest.
Proof.
  intros Hne Hw Hsp. induction word as [|c w IH]; [done|].
  simpl in Hw. apply andb_prop in Hw as [Hc Hw]. apply negb_true_iff in Hc.
  rewrite str_app_cons.
  destruct w as [|c' w].
  - by rewrite str_app_nil_l, split_whitespace_cons2, Hc, Hsp, split_whitespace_space.
  - pose proof Hw as Hw'. simpl in Hw'. apply andb_prop in Hw' as [Hc' _].
    apply negb_true_iff in Hc'.
    specialize (IH ltac:(discriminate) Hw). rewrite str_app_cons in *.
    by rewrite split_whitespace_cons2, Hc, Hc', IH.
Qed.

Lemma split_whitespace_nil (s : string) :
  split_whitespace space s = [] ↔ str_all space s = true.
Proof.
  induction s as [|c s IH]; [done|]. simpl.
  destruct (space c) eqn:Hc; simpl; [exact IH|].
  split; [|discriminate].
  destruct s as [|c' s]; [discriminate|].
  destruct (space c'); [discriminate|].
  by destruct (split_whitespace space (String c' s)).
Qed.

End Words.

(** With a level other than ['full'], a diagnosis of one word comes back
    whole, with its surrounding whitespace: nothing of it is masked.  A
    diagnosis with a second word is cut to the first word and [" ***"]. *)
Theorem mask_diagnosis_partial (lead word rest : string) (sp : ascii) (level : pyval) :
  is_full level = false →
  str_all Str.is_space lead = true →
  word ≠ "" → str_all (fun c => negb (Str.is_space c)) word = true →
  Str.is_space sp = true →
  mask_diagnosis (VStr (lead +:+ word)) level = Ok (VStr (lead +:+ word))
  ∧ mask_diagnosis (VStr (lead +:+ word +:+ String sp rest)) level
    = Ok (VStr (if str_all Str.is_space rest
                then lead +:+ word +:+ String sp rest
                else word +:+ " ***")).
Proof.
  intros Hlevel Hlead Hne Hword Hsp.
  assert (Ht : ∀ tail, truthy (VStr (lead +:+ word +:+ tail)) = true).
  { intros tail. apply truthy_VStr. intros E.
    apply str_app_eq_nil in E as [_ [E _]%str_app_eq_nil]. done. }
  split.
  - unfold mask_diagnosis.
    pose proof (Ht "") as Ht0. rewrite str_app_nil_r in Ht0.
    rewrite Ht0, Hlevel. simpl negb. cbv iota.
    unfold py_split_whitespace. rewrite bind_Ok.
    by rewrite split_whitespace_lead, split_whitespace_word.
  - unfold mask_diagnosis. rewrite Ht, Hlevel. simpl negb. cbv iota.
    unfold py_split_whitespace. rewrite bind_Ok.
    rewrite split_whitespace_lead, split_whitespace_word_then by done.
    destruct (str_all Str.is_space rest) eqn:Hrest.
    + by rewrite (proj2 (split_whitespace_nil Str.is_space rest) Hrest).
    + destruct (split_whitespace Str.is_space rest) as [|w ws] eqn:E; [|done].
      apply split_whitespace_nil in E. congruence.
Qed.

Lemma mask_diagnosis_partial_witness :
  mask_diagnosis (VStr ("  " +:+ "Hypertension")) (VStr "partial")
  = Ok (VStr ("  " +:+ "Hypertension"))
  ∧ mask_diagnosis (VStr ("  " +:+ "Type" +:+ String " " "2 Diabetes")) (VStr "partial")
    = Ok (VStr "Type ***").
Proof.
  split.
  - apply (mask_diagnosis_partial "  " "Hypertension" "" " " (VStr "partial"));
      reflexivity || discriminate.
  - apply (mask_diagnosis_partial "  " "Type" "2 Diabetes" " " (VStr "partial"));
      reflexivity || discriminate.
Defined.

(* ===================================================================== *)
(** ** Hexadecimal labels: [anonymize_name] and [generate_anonymous_id] *)
(* ===================================================================== *)

Lemma hex_digit_upper (d : Z) :
  0 <= d < 16 →
  is_upper_hex (Str.upper_char (Md5.hex_digit d)) = true
  ∧ Bcrypt.index_in (Str.upper_char (Md5.hex_digit d)) "0123456789ABCDEF" = d.
Proof.
  intros H.
  assert (Hd : d = 0 ∨ d = 1 ∨ d = 2 ∨ d = 3 ∨ d = 4 ∨ d = 5 ∨ d = 6 ∨ d = 7 ∨ d = 8
               ∨ d = 9 ∨ d = 10 ∨ d = 11 ∨ d = 12 ∨ d = 13 ∨ d = 14 ∨ d = 15) by lia.
  repeat (destruct Hd as [-> | Hd]; [by vm_compute|]). subst d. by vm_compute.
Qed.

Lemma upper_hex_cons (x : Z) (l : list Z) :
  Str.upper (Md5.hex (x :: l))
  = String (Str.upper_char (Md5.hex_digit (x / 16)))
      (String (Str.upper_char (Md5.hex_digit (x mod 16))) (Str.upper (Md5.hex l))).
Proof. reflexivity. Qed.

Lemma upper_hex_digits (l : list Z) :
  Forall is_octet l → str_all is_upper_hex (Str.upper (Md5.hex l)) = true.
Proof.
  induction l as [|x l IH]; [done|]. intros [Hx Hl]%Forall_cons_1.
  unfold is_octet in Hx. rewrite upper_hex_cons. simpl str_all.
  destruct (hex_digit_upper (x / 16)) as [-> _]; [Z.div_mod_to_equations; lia|].
  destruct (hex_digit_upper (x mod 16)) as [-> _]; [Z.div_mod_to_equations; lia|].
  by rewrite IH.
Qed.

Lemma hex_values_cons2 (h l : ascii) (s : string) :
  hex_values (String h (String l s))
  = 16 * Bcrypt.index_in h "0123456789ABCDEF" + Bcrypt.index_in l "0123456789ABCDEF"
    :: hex_values s.
Proof. reflexivity. Qed.

Lemma hex_values_upper_hex (l : list Z) :
  Forall is_octet l → hex_values (Str.upper (Md5.hex l)) = l.
Proof.
  induction l as [|x l IH]; [done|]. intros [Hx Hl]%Forall_cons_1.
  unfold is_octet in Hx. rewrite upper_hex_cons, hex_values_cons2.
  destruct (hex_digit_upper (x / 16)) as [_ ->]; [Z.div_mod_to_equations; lia|].
  destruct (hex_digit_upper (x mod 16)) as [_ ->]; [Z.div_mod_to_equations; lia|].
  rewrite (IH Hl). f_equal. Z.div_mod_to_equations; lia.
Qed.

Lemma bytes_of_octets_inj (a b : bytes) :
  List.map Utf8.Z_of_byte a = List.map Utf8.Z_of_byte b → a = b.
Proof.
  intros H. apply (f_equal (List.map Utf8.byte_of_Z)) in H.
  rewrite !List.map_map in H.
  assert (Hid : ∀ l : bytes,
            List.map (fun x => Utf8.byte_of_Z (Utf8.Z_of_byte x)) l = l).
  { intros l. rewrite <- (List.map_id l) at 2.
    apply List.map_ext. intros x. apply byte_of_Z_of_byte. }
  by rewrite !Hid in H.
Qed.



Lemma md5_digest_octets (msg : bytes) : Forall is_octet (Md5.digest msg).
Proof.
  assert (Hle : ∀ n x, Forall is_octet (Md5.le_bytes n x)).
  { induction n as [|n IH]; intros x; simpl; constructor; [|apply IH].
    unfold is_octet. apply Z.mod_pos_bound. lia. }
  unfold Md5.digest. rewrite !Forall_app. auto.
Qed.

Lemma upper_take (n : nat) (s : string) : Str.upper (Str.take n s) = Str.take n (Str.upper s).
Proof.
  revert s. induction n as [|n IH]; intros [|c s]; try done.
  unfold Str.upper in *. simpl. by rewrite IH.
Qed.

(** Without an identifier (or with a falsy one), a non-empty name gets
    ["ANON_"] and eight upper-case hexadecimal digits: the first four bytes
    of the MD5 digest of the name's UTF-8 bytes. *)
Theorem anonymize_name_hash_label (name : string) (patient_id : pyval) :
  name ≠ "" → truthy patient_id = false →
  ∃ label, anonymize_name (VStr name) patient_id = Ok (VStr ("ANON_" +:+ label))
           ∧ String.length label = 8%nat
           ∧ str_all is_upper_hex label = true
           ∧ hex_values label = firstn 4 (Md5.digest (Utf8.encode name)).
Proof.
  intros Hn Hid.
  exists (Str.upper (Str.take 8 (Md5.hexdigest (Utf8.encode name)))).
  split; [|split; [|split]].
  - unfold anonymize_name. by rewrite (proj2 (truthy_VStr name) Hn), Hid.
  - unfold Str.upper. rewrite str_map_length, str_take_length; [done|].
    rewrite hexdigest_length. lia.
  - rewrite upper_take. apply str_all_take.
    apply upper_hex_digits, md5_digest_octets.
  - pose proof (md5_digest_octets (Utf8.encode name)) as Ho.
    unfold Md5.hexdigest.
    assert (Hlen : List.length (Md5.digest (Utf8.encode name)) = 16%nat)
      by (unfold Md5.digest; by rewrite !List.length_app).
    destruct (Md5.digest (Utf8.encode name)) as [|a [|b [|c [|d rest]]]];
      try discriminate Hlen.
    apply Forall_cons_1 in Ho as [Ha Ho]. apply Forall_cons_1 in Ho as [Hb Ho].
    apply Forall_cons_1 in Ho as [Hc Ho]. apply Forall_cons_1 in Ho as [Hd Ho].
    change (Str.upper (Str.take 8 (Md5.hex (a :: b :: c :: d :: rest))))
      with (Str.upper (Md5.hex [a; b; c; d])).
    rewrite hex_values_upper_hex; [done|].
    repeat (constructor; [done|]). constructor.
Qed.

Lemma anonymize_name_hash_label_witness :
  ∃ label, anonymize_name (VStr "John Doe") VNone = Ok (VStr ("ANON_" +:+ label))
           ∧ String.length label = 8%nat
           ∧ str_all is_upper_hex label = true
           ∧ hex_values label = firstn 4 (Md5.digest (Utf8.encode "John Doe")).
Proof.
  apply (anonymize_name_hash_label "John Doe" VNone); [discriminate|reflexivity].
Defined.

(** With an integer identifier from 1 to 9999 and any truthy name, the
    label is ["ANON_"] and exactly four decimal digits that read back as
    the identifier: it does not depend on the name, and different
    identifiers give different labels. *)
Theorem anonymize_name_id_label (name : pyval) (id : Z) :
  truthy name = true → 1 <= id <= 9999 →
  ∃ digits, anonymize_name name (VInt id) = Ok (VStr ("ANON_" +:+ digits))
            ∧ String.length digits = 4%nat
            ∧ str_all Str.is_digit digits = true
            ∧ digits_value digits = id.
Proof.
  intros Hn Hid. exists (format_04d_int id).
  split; [apply anonymize_name_with_id; [done|lia]|].
  exact (format_04d_int_digits id ltac:(lia)).
Qed.

Lemma anonymize_name_id_label_witness :
  ∃ digits, anonymize_name (VStr "John Doe") (VInt 1021) = Ok (VStr ("ANON_" +:+ digits))
            ∧ String.length digits = 4%nat
            ∧ str_all Str.is_digit digits = true
            ∧ digits_value digits = 1021.
Proof.
  apply (anonymize_name_id_label (VStr "John Doe") 1021); [reflexivity|lia].
Defined.

(* ===================================================================== *)
(** ** The key of an [EncryptionManager] *)
(* ===================================================================== *)

Lemma decode_lead_byte (x : byte) (rest : bytes) (s : string) :
  Utf8.is_ascii x = false → Utf8.decode (x :: rest) = Ok s →
  ∃ y rest' c s', rest = y :: rest' ∧ s = String c s'
                  ∧ Utf8.decode rest' = Ok s' ∧ Utf8.encode_char c = [x; y].
Proof.
  intros Hx H.
  destruct rest as [|y rest'].
  { destruct x; try discriminate Hx; discriminate H. }
  exists y, rest'.
  assert (Hlead : Utf8.Z_of_byte x = 194 ∨ Utf8.Z_of_byte x = 195).
  { destruct x; try discriminate Hx; try discriminate H; vm_compute; auto. }
  assert (Hcont : Utf8.is_continuation y = true).
  { destruct Hlead as [E|E]; destruct x; try discriminate E;
      simpl in H; by destruct (Utf8.is_continuation y). }
  destruct (Utf8.decode rest') as [s'|e] eqn:Ed.
  - destruct Hlead as [E|E]; destruct x; try discriminate E;
      simpl in H; rewrite Hcont, Ed in H; injection H as <-;
      eexists _, s'; (split; [done|]); (split; [done|]); (split; [done|]);
      destruct y; try discriminate Hcont; reflexivity.
  - destruct Hlead as [E|E]; destruct x; try discriminate E;
      simpl in H; rewrite Hcont, Ed in H; discriminate H.
Qed.

(** What decodes, encodes back to the same bytes. *)
Lemma encode_decode (b : bytes) (s : string) :
  Utf8.decode b = Ok s → Utf8.encode s = b.
Proof.
  remember (List.length b) as n eqn:En. revert b s En.
  induction n as [n IH] using lt_wf_ind. intros b s En H.
  destruct b as [|x rest]; [by injection H as <-|].
  destruct (Utf8.is_ascii x) eqn:Hx.
  - destruct (decode_ascii_byte x rest Hx) as [Hd He]. rewrite Hd in H.
    destruct (Utf8.decode rest) as [s'|e] eqn:Ed; [|discriminate H].
    injection H as <-. simpl Utf8.encode. rewrite He.
    rewrite (IH (List.length rest) ltac:(subst n; simpl; lia) rest s' eq_refl Ed). done.
  - destruct (decode_lead_byte x rest s Hx H) as (y & rest' & c & s' & -> & -> & Ed & Ec).
    simpl Utf8.encode. rewrite Ec.
    rewrite (IH (List.length rest') ltac:(subst n; simpl; lia) rest' s' eq_refl Ed). done.
Qed.

(** A manager built from the string that [get_key] returns is the manager
    the key was read from: same key bytes, same cipher. *)
Theorem get_key_rebuilds_manager (lib : FernetLib) (urandom urandom' : bytes)
    (key_arg : pyval) (em : EncryptionManager.t lib) (k : string) :
  EncryptionManager.init lib urandom key_arg = Ok em →
  EncryptionManager.get_key lib em = Ok (VStr k) →
  EncryptionManager.init lib urandom' (VStr k) = Ok em.
Proof.
  unfold EncryptionManager.init, EncryptionManager.get_key. intros Hinit Hkey.
  destruct (match key_arg with
            | VNone => Ok (Fernet_generate_key lib urandom)
            | VBytes b => Ok b
            | v => py_encode v
            end) as [k0|e]; [|discriminate Hinit].
  rewrite bind_Ok in Hinit.
  destruct (Fernet_new lib k0) as [c|e] eqn:Ec; [|discriminate Hinit].
  injection Hinit as <-. simpl in Hkey.
  destruct (Utf8.decode k0) as [text|e] eqn:Ed; [|discriminate Hkey].
  injection Hkey as ->.
  simpl py_encode. rewrite bind_Ok, (encode_decode k0 k Ed), Ec. reflexivity.
Qed.

Lemma get_key_rebuilds_manager_witness :
  EncryptionManager.init SampleFernet.lib [] (VStr "A") = Ok (SampleFernet.manager true).
Proof.
  apply (get_key_rebuilds_manager SampleFernet.lib [] []
           (VBytes [SampleFernet.tag true]) (SampleFernet.manager true) "A");
    reflexivity.
Defined.

(* ===================================================================== *)
(** ** Passwords that do not verify *)
(* ===================================================================== *)

Lemma encode_char_free (c : ascii) :
  c ≠ "$"%char →
  forallb (fun b => negb (Byte.eqb b Bcrypt.dollar)) (Utf8.encode_char c) = true.
Proof.
  destruct c as [[] [] [] [] [] [] [] []]; intros H; first [reflexivity | by destruct H].
Qed.

Lemma encode_free (s : string) :
  str_lacks "$" s →
  forallb (fun b => negb (Byte.eqb b Bcrypt.dollar)) (Utf8.encode s) = true.
Proof.
  induction s as [|c s IH]; [done|].
  intros [Hc Hs]%str_lacks_cons. simpl Utf8.encode.
  by rewrite List.forallb_app, (encode_char_free c Hc), (IH Hs).
Qed.

(** Bytes without a dollar sign are no salt and no hash. *)
Lemma parse_setting_free (s : bytes) :
  forallb (fun b => negb (Byte.eqb b Bcrypt.dollar)) s = true →
  Bcrypt.parse_setting s = None.
Proof.
  intros H. unfold Bcrypt.parse_setting. rewrite (split_dollar_free s H).
  cbn [List.filter]. by destruct (Bcrypt.nonempty s).
Qed.



(* ===================================================================== *)
(** ** Retention dates given as text *)
(* ===================================================================== *)

Lemma Z_range_In (lo : Z) (n : nat) (z : Z) :
  lo <= z < lo + Z.of_nat n → In z (Z_range lo n).
Proof.
  intros H. unfold Z_range. apply List.in_map_iff.
  exists (Z.to_nat (z - lo)). split; [lia|]. apply List.in_seq. lia.
Qed.

Lemma digit_range (lo hi : Z) (c : ascii) (n : Z) :
  Strptime.digit lo hi c = Some n → lo <= n <= hi.
Proof.
  unfold Strptime.digit. intros H.
  destruct (lo <=? Str.code c - 48) eqn:H1; [|discriminate H].
  destruct (Str.code c - 48 <=? hi) eqn:H2; [|discriminate H].
  simpl in H. injection H as <-. lia.
Qed.

Lemma two_range (l1 h1 l2 h2 : Z) (s : string) (v : Z) (r : string) :
  In (v, r) (Strptime.two l1 h1 l2 h2 s) → 10 * l1 + l2 <= v <= 10 * h1 + h2.
Proof.
  unfold Strptime.two. destruct s as [|c1 [|c2 rest]]; try done.
  destruct (Strptime.digit l1 h1 c1) as [a|] eqn:Ha; [|done].
  destruct (Strptime.digit l2 h2 c2) as [b|] eqn:Hb; [|done].
  apply digit_range in Ha, Hb.
  intros [H|[]]. injection H as <- _. lia.
Qed.

Lemma one_range (lo hi : Z) (s : string) (v : Z) (r : string) :
  In (v, r) (Strptime.one lo hi s) → lo <= v <= hi.
Proof.
  unfold Strptime.one. destruct s as [|c rest]; [done|].
  destruct (Strptime.digit lo hi c) as [a|] eqn:Ha; [|done].
  apply digit_range in Ha.
  intros [H|[]]. injection H as <- _. lia.
Qed.

Lemma space_one_range (s : string) (v : Z) (r : string) :
  In (v, r) (Strptime.space_one s) → 1 <= v <= 9.
Proof.
  unfold Strptime.space_one. destruct s as [|c rest]; [done|].
  destruct (Ascii.eqb_spec c " ") as [->|Hc].
  - apply one_range.
  - destruct c as [[] [] [] [] [] [] [] []]; first [done | by destruct Hc].
Qed.

Lemma month_field_range (s : string) (v : Z) (r : string) :
  In (v, r) (Strptime.month_field s) → 1 <= v <= 12.
Proof.
  unfold Strptime.month_field. rewrite !List.in_app_iff.
  intros [H|[H|H]]; [apply two_range in H|apply two_range in H|apply one_range in H]; lia.
Qed.

Lemma day_field_range (s : string) (v : Z) (r : string) :
  In (v, r) (Strptime.day_field s) → 1 <= v <= 31.
Proof.
  unfold Strptime.day_field. rewrite !List.in_app_iff.
  intros [H|[H|[H|[H|H]]]];
    [apply two_range in H|apply two_range in H|apply two_range in H
    |apply one_range in H|apply space_one_range in H]; lia.
Qed.

Lemma first_some_In {A B} (f : A -> option B) (l : list A) (y : B) :
  Strptime.first_some f l = Some y → ∃ x, In x l ∧ f x = Some y.
Proof.
  induction l as [|x l IH]; simpl; [done|].
  destruct (f x) as [y'|] eqn:Hx.
  - intros [= ->]. exists x. auto.
  - intros H. destruct (IH H) as (x' & Hin & Hx'). exists x'. auto.
Qed.

Lemma year_field_range (s : string) (y : Z) (rest : string) :
  Strptime.year_field s = Some (y, rest) → 0 <= y <= 9999.
Proof.
  unfold Strptime.year_field.
  destruct s as [|c1 [|c2 [|c3 [|c4 s]]]]; try done.
  destruct (Strptime.digit 0 9 c1) as [a|] eqn:Ha; [|done].
  destruct (Strptime.digit 0 9 c2) as [b|] eqn:Hb; [|done].
  destruct (Strptime.digit 0 9 c3) as [c|] eqn:Hc; [|done].
  destruct (Strptime.digit 0 9 c4) as [d|] eqn:Hd; [|done].
  apply digit_range in Ha, Hb, Hc, Hd.
  intros H. injection H as <- _. lia.
Qed.

Lemma regex_match_range (s : string) (y m d : Z) (rest : string) :
  Strptime.regex_match s = Some (y, m, d, rest) →
  0 <= y <= 9999 ∧ 1 <= m <= 12 ∧ 1 <= d <= 31.
Proof.
  unfold Strptime.regex_match.
  destruct (Strptime.year_field s) as [[y' s1]|] eqn:Hy; [|done].
  destruct (Strptime.dash s1) as [s2|]; [|done].
  destruct (Strptime.first_some _ _) as [[[m' d'] rest']|] eqn:Hm; [|done].
  intros H. injection H as -> -> -> ->.
  apply year_field_range in Hy.
  apply first_some_In in Hm as ([m0 s3] & Hin & Ha).
  apply month_field_range in Hin.
  unfold Strptime.after_month in Ha. simpl in Ha.
  destruct (Strptime.dash s3) as [s4|]; [|done].
  destruct (Strptime.day_field s4) as [|[d0 r0] l] eqn:Hd; [done|].
  injection Ha as -> -> ->.
  assert (In (d, rest) (Strptime.day_field s4)) as Hin' by (rewrite Hd; by left).
  apply day_field_range in Hin'. lia.
Qed.

Lemma days_in_month_le_31 (y m : Z) : 28 <= Strptime.days_in_month y m <= 31.
Proof.
  unfold Strptime.days_in_month.
  repeat case_if; lia.
Qed.

(** What [strptime] accepts is midnight of a day of the calendar. *)
Lemma strptime_valid (s : string) (dt : datetime) :
  Strptime.strptime s = Ok dt → valid_midnight dt.
Proof.
  unfold Strptime.strptime.
  destruct (Strptime.regex_match s) as [[[[y m] d] rest]|] eqn:Hm; [|done].
  apply regex_match_range in Hm.
  destruct (negb (String.eqb rest "")); [done|].
  destruct (y <? 1) eqn:Hy; [done|].
  destruct (Strptime.days_in_month y m <? d) eqn:Hd; [done|].
  intros H. injection H as <-. unfold valid_midnight. simpl. lia.
Qed.

Lemma strptime_error (s : string) (e : exn) :
  Strptime.strptime s = Raise e → e = ValueError.
Proof.
  unfold Strptime.strptime.
  destruct (Strptime.regex_match s) as [[[[y m] d] rest]|]; [|congruence].
  repeat case_if; congruence.
Qed.

(** Given text, the check returns [False] on the empty string, raises
    [ValueError] when the text is no date, and otherwise compares the clock
    with midnight of a day that exists in the calendar (year 1 to 9999,
    month 1 to 12, day within the month). *)
Theorem check_retention_expired_text (now : datetime) (s : string) :
  match check_retention_expired now (VStr s) with
  | Ok b =>
      (s = "" ∧ b = false)
      ∨ (∃ d, Strptime.strptime s = Ok d ∧ valid_midnight d ∧ b = dt_ltb d now)
  | Raise e => s ≠ "" ∧ e = ValueError
  end.
Proof.
  unfold check_retention_expired.
  destruct (truthy (VStr s)) eqn:Ht; simpl negb; cbv iota.
  - apply truthy_VStr in Ht.
    destruct (Strptime.strptime s) as [d|e] eqn:Hs.
    + rewrite !bind_Ok. simpl. right. exists d.
      split; [done|]. split; [by apply strptime_valid in Hs|done].
    + rewrite !bind_Raise. split; [done|]. by apply strptime_error in Hs.
  - left. split; [|done].
    destruct (decide (s = "")) as [->|Hne]; [done|].
    apply truthy_VStr in Hne. congruence.
Qed.

Lemma is_digit_digit (c : ascii) :
  Str.is_digit c = true → Strptime.digit 0 9 c = Some (Str.code c - 48).
Proof.
  unfold Str.is_digit, Strptime.digit. intros [H1 H2]%andb_prop.
  apply Z.leb_le in H1, H2.
  destruct (Z.leb_spec 0 (Str.code c - 48)); [|lia].
  destruct (Z.leb_spec (Str.code c - 48) 9); [|lia]. done.
Qed.

(** Four digits are read as the year they spell. *)
Lemma year_field_digits (s rest : string) :
  String.length s = 4%nat → str_all Str.is_digit s = true →
  Strptime.year_field (s +:+ rest) = Some (digits_value s, rest).
Proof.
  destruct s as [|c1 [|c2 [|c3 [|c4 [|c5 s]]]]]; try done.
  intros _ H. simpl in H.
  apply andb_prop in H as [H1 H]. apply andb_prop in H as [H2 H].
  apply andb_prop in H as [H3 H]. apply andb_prop in H as [H4 _].
  rewrite !str_app_cons, str_app_nil_l. unfold Strptime.year_field.
  rewrite (is_digit_digit _ H1), (is_digit_digit _ H2),
    (is_digit_digit _ H3), (is_digit_digit _ H4).
  unfold digits_value. simpl digits_value_from. f_equal. f_equal. lia.
Qed.

(** Two-digit month and day, a dash between them, read back. *)
Lemma month_day_parse (m d : Z) :
  1 <= m <= 12 → 1 <= d <= 31 →
  Strptime.first_some Strptime.after_month
    (Strptime.month_field (two_decimals m +:+ "-" +:+ two_decimals d))
  = Some (m, d, "").
Proof.
  intros Hm Hd.
  assert (Hall : forallb (fun m => forallb (fun d =>
            match Strptime.first_some Strptime.after_month
                    (Strptime.month_field (two_decimals m +:+ "-" +:+ two_decimals d)) with
            | Some (m', d', rest) => (m' =? m) && (d' =? d) && String.eqb rest ""
            | None => false
            end) (Z_range 1 31)) (Z_range 1 12) = true) by (vm_compute; reflexivity).
  rewrite List.forallb_forall in Hall.
  specialize (Hall m (Z_range_In 1 12 m ltac:(lia))).
  rewrite List.forallb_forall in Hall.
  specialize (Hall d (Z_range_In 1 31 d ltac:(lia))).
  destruct (Strptime.first_some _ _) as [[[m' d'] rest]|]; [|discriminate Hall].
  apply andb_prop in Hall as [Hall H3]. apply andb_prop in Hall as [H1 H2].
  apply Z.eqb_eq in H1, H2. apply String.eqb_eq in H3. by subst.
Qed.

Lemma lex_ltb_cons (x y : Z) (a b : list Z) :
  lex_ltb (x :: a) (y :: b) = (x <? y) || ((x =? y) && lex_ltb a b).
Proof. reflexivity. Qed.

(** The text ['YYYY-MM-DD'] of a day of the calendar is read as midnight of
    that day, so the check compares the clock with midnight: from the first
    instant after it, during the whole of the day named, the record counts
    as expired. *)
Theorem check_retention_expired_iso_date (now : datetime) (y m d : Z) :
  1 <= y <= 9999 → 1 <= m <= 12 → 1 <= d <= Strptime.days_in_month y m →
  Strptime.strptime (iso_date y m d) = Ok (midnight y m d)
  ∧ check_retention_expired now (VStr (iso_date y m d)) = Ok (dt_ltb (midnight y m d) now)
  ∧ (dt_year now = y → dt_month now = m → dt_day now = d →
     0 <= dt_hour now → 0 <= dt_minute now → 0 <= dt_second now →
     0 <= dt_microsecond now →
     0 < dt_hour now + dt_minute now + dt_second now + dt_microsecond now →
     check_retention_expired now (VStr (iso_date y m d)) = Ok true).
Proof.
  intros Hy Hm Hd.
  pose proof (days_in_month_le_31 y m) as H31.
  destruct (format_04d_int_digits y ltac:(lia)) as (Hl & Hdig & Hv).
  assert (Hs : Strptime.strptime (iso_date y m d) = Ok (midnight y m d)).
  { unfold Strptime.strptime, Strptime.regex_match, iso_date.
    rewrite (year_field_digits _ _ Hl Hdig), Hv.
    rewrite str_app_cons, str_app_nil_l. simpl Strptime.dash. cbv iota.
    rewrite (month_day_parse m d) by lia.
    simpl negb. cbv iota.
    destruct (Z.ltb_spec y 1); [lia|].
    destruct (Z.ltb_spec (Strptime.days_in_month y m) d); [lia|]. done. }
  assert (Ht : truthy (VStr (iso_date y m d)) = true).
  { apply truthy_VStr. intros E. rewrite E in Hs. discriminate Hs. }
  assert (Hc : check_retention_expired now (VStr (iso_date y m d))
               = Ok (dt_ltb (midnight y m d) now)).
  { unfold check_retention_expired. rewrite Ht, Hs. reflexivity. }
  split; [exact Hs|]. split; [exact Hc|].
  intros <- <- <- Hh Hmi Hsec Hus Hpos. rewrite Hc. f_equal.
  unfold dt_ltb, midnight, fields. simpl dt_year. simpl dt_month. simpl dt_day.
  simpl dt_hour. simpl dt_minute. simpl dt_second. simpl dt_microsecond.
  rewrite !lex_ltb_cons, !Z.ltb_irrefl, !Z.eqb_refl. cbn [orb andb].
  destruct (Z.ltb_spec 0 (dt_hour now)); [done|].
  destruct (Z.eqb_spec 0 (dt_hour now)); [|lia]. cbn [orb andb].
  destruct (Z.ltb_spec 0 (dt_minute now)); [done|].
  destruct (Z.eqb_spec 0 (dt_minute now)); [|lia]. cbn [orb andb].
  destruct (Z.ltb_spec 0 (dt_second now)); [done|].
  destruct (Z.eqb_spec 0 (dt_second now)); [|lia]. cbn [orb andb].
  destruct (Z.ltb_spec 0 (dt_microsecond now)); [done|]. lia.
Qed.

Lemma check_retention_expired_iso_date_witness :
  Strptime.strptime (iso_date 2024 2 29) = Ok (midnight 2024 2 29)
  ∧ check_retention_expired (mkDatetime 2024 2 29 9 30 0 0) (VStr (iso_date 2024 2 29))
    = Ok true.
Proof.
  destruct (check_retention_expired_iso_date (mkDatetime 2024 2 29 9 30 0 0) 2024 2 29)
    as (H1 & _ & H3); [lia|lia|vm_compute; split; discriminate|].
  split; [exact H1|]. apply H3; simpl; lia.
Defined.

Lemma lex_ltb_le_trans (a b c : list Z) :
  List.length b = List.length c →
  lex_ltb a b = true → lex_ltb c b = false → lex_ltb a c = true.
Proof.
  revert b c. induction a as [|x a IH]; intros [|y b] [|z c]; simpl; try done.
  intros [= Hlen] Hab Hcb.
  apply orb_prop in Hab. apply orb_false_elim in Hcb as [Hzy Hcb].
  apply Z.ltb_ge in Hzy.
  destruct (Z.ltb_spec x z) as [|Hxz]; [done|]. simpl.
  destruct Hab as [Hxy%Z.ltb_lt|[Hxy%Z.eqb_eq Hab]%andb_prop]; [lia|].
  subst y. assert (z = x) as -> by lia.
  rewrite Z.eqb_refl in Hcb |- *. simpl in Hcb |- *. by apply (IH b c).
Qed.

Lemma lex_ltb_trans (a b c : list Z) :
  lex_ltb a b = true → lex_ltb b c = true → lex_ltb a c = true.
Proof.
  revert b c. induction a as [|x a IH]; intros [|y b] [|z c]; simpl; try done.
  intros Hab Hbc. apply orb_prop in Hab, Hbc.
  destruct (Z.ltb_spec x z) as [|Hxz]; [done|]. simpl.
  destruct Hab as [Hxy%Z.ltb_lt|[Hxy%Z.eqb_eq Hab]%andb_prop];
    destruct Hbc as [Hyz%Z.ltb_lt|[Hyz%Z.eqb_eq Hbc]%andb_prop]; try lia.
  subst. rewrite Z.eqb_refl. simpl. by apply (IH b c).
Qed.

(** Expiry is monotone in the clock and in the deadline: a record expired
    at one time is expired at every later time, and a record expired for
    one deadline is expired for every earlier one. *)
Theorem check_retention_expired_monotone (now now' d d' : datetime) :
  check_retention_expired now (VDatetime d) = Ok true →
  dt_leb now now' = true → dt_leb d' d = true →
  check_retention_expired now' (VDatetime d') = Ok true.
Proof.
  rewrite !check_retention_expired_datetime. unfold dt_leb, dt_ltb.
  intros [= H] Hn Hd. apply negb_true_iff in Hn, Hd. f_equal.
  assert (lex_ltb (fields d) (fields now') = true) as H'
    by (by apply (lex_ltb_le_trans _ (fields now) _)).
  destruct (lex_ltb (fields d') (fields now')) eqn:E; [done|].
  assert (lex_ltb (fields d) (fields d') = true) as H''
    by (by apply (lex_ltb_le_trans _ (fields now') _)).
  congruence.
Qed.

Lemma check_retention_expired_monotone_witness :
  check_retention_expired (mkDatetime 2025 1 1 0 0 0 1)
    (VDatetime (mkDatetime 2024 12 31 0 0 0 0)) = Ok true.
Proof.
  apply (check_retention_expired_monotone (mkDatetime 2025 1 1 0 0 0 0) _
           (mkDatetime 2024 12 31 23 59 59 999999) _); reflexivity.
Defined.

(* ===================================================================== *)
(** ** What [encrypt] does with each kind of value *)
(* ===================================================================== *)



(* ===================================================================== *)
(** ** Retention dates *)
(* ===================================================================== *)

Example ord2ymd_ex :
  List.map Calendar.ord2ymd [1; 365; 366; 1461; 36524; 36525; 146097; 146098; 738945; 3652059]
  = [(1, 1, 1); (1, 12, 31); (2, 1, 1); (4, 12, 31); (100, 12, 31); (101, 1, 1);
     (400, 12, 31); (401, 1, 1); (2024, 2, 29); (9999, 12, 31)].
Proof. vm_compute. reflexivity. Qed.

Example ymd2ord_ex :
  (Calendar.ymd2ord 1 1 1, Calendar.ymd2ord 2024 2 29, Calendar.ymd2ord 9999 12 31)
  = (1, 738945, 3652059).
Proof. vm_compute. reflexivity. Qed.

(* ===================================================================== *)
(** ** The calendar behind [calculate_retention_date] *)
(* ===================================================================== *)

Lemma days_before_year_cycles (n400 n100 n4 n1 : Z) :
  0 <= n100 <= 3 → 0 <= n4 <= 24 → 0 <= n1 <= 3 →
  Calendar.days_before_year (n400 * 400 + 1 + (n100 * 100 + n4 * 4 + n1))
  = n400 * 146097 + n100 * 36524 + n4 * 1461 + n1 * 365.
Proof.
  intros H100 H4 H1. unfold Calendar.days_before_year. cbv zeta.
  Z.div_mod_to_equations; lia.
Qed.

Lemma is_leap_cycles (n400 n100 n4 n1 : Z) :
  0 <= n100 <= 3 → 0 <= n4 <= 24 → 0 <= n1 <= 3 →
  Strptime.is_leap (n400 * 400 + 1 + (n100 * 100 + n4 * 4 + n1))
  = (n1 =? 3) && (negb (n4 =? 24) || (n100 =? 3)).
Proof.
  intros H100 H4 H1. unfold Strptime.is_leap.
  (destruct (Z.eqb_spec n1 3); destruct (Z.eqb_spec n4 24); destruct (Z.eqb_spec n100 3);
  destruct (Z.eqb_spec ((n400 * 400 + 1 + (n100 * 100 + n4 * 4 + n1)) mod 4) 0);
  destruct (Z.eqb_spec ((n400 * 400 + 1 + (n100 * 100 + n4 * 4 + n1)) mod 100) 0);
  destruct (Z.eqb_spec ((n400 * 400 + 1 + (n100 * 100 + n4 * 4 + n1)) mod 400) 0);
  simpl; try reflexivity; exfalso; Z.div_mod_to_equations; lia).
Qed.

Lemma days_in_month_by_leap (y m : Z) :
  Strptime.days_in_month y m
  = Strptime.days_in_month (if Strptime.is_leap y then 4 else 1) m.
Proof. unfold Strptime.days_in_month. by destruct (Strptime.is_leap y). Qed.

Lemma month_and_day_spec (leapyear : bool) (n : Z) :
  0 <= n < 365 →
  1 <= fst (Calendar.month_and_day leapyear n) <= 12
  ∧ 1 <= snd (Calendar.month_and_day leapyear n)
    <= Strptime.days_in_month (if leapyear then 4 else 1)
         (fst (Calendar.month_and_day leapyear n))
  ∧ Calendar.item Calendar.DAYS_BEFORE_MONTH (fst (Calendar.month_and_day leapyear n))
    + Calendar.int_of_bool ((2 <? fst (Calendar.month_and_day leapyear n)) && leapyear)
    + snd (Calendar.month_and_day leapyear n) = n + 1.
Proof.
  intros Hn.
  assert (Hall : forallb (fun n => forallb (fun b =>
            let md := Calendar.month_and_day b n in
            (1 <=? fst md) && (fst md <=? 12) && (1 <=? snd md)
            && (snd md <=? Strptime.days_in_month (if b then 4 else 1) (fst md))
            && (Calendar.item Calendar.DAYS_BEFORE_MONTH (fst md)
                + Calendar.int_of_bool ((2 <? fst md) && b) + snd md =? n + 1))
            [true; false]) (Z_range 0 365) = true) by (vm_compute; reflexivity).
  rewrite List.forallb_forall in Hall.
  specialize (Hall n (Z_range_In 0 365 n ltac:(lia))).
  rewrite List.forallb_forall in Hall.
  assert (In leapyear [true; false]) as Hin by (destruct leapyear; simpl; auto).
  specialize (Hall leapyear Hin). cbv zeta in Hall.
  apply andb_prop in Hall as [Hall H5]. apply andb_prop in Hall as [Hall H4].
  apply andb_prop in Hall as [Hall H3]. apply andb_prop in Hall as [H1 H2].
  apply Z.leb_le in H1, H2, H3, H4. apply Z.eqb_eq in H5. lia.
Qed.

(** The day an ordinal names is a day of the calendar, and its ordinal is
    the one given. *)
Lemma ord2ymd_ymd2ord (n : Z) :
  1 <= n →
  ∃ y m d, Calendar.ord2ymd n = (y, m, d)
           ∧ 1 <= y ∧ 1 <= m <= 12 ∧ 1 <= d <= Strptime.days_in_month y m
           ∧ Calendar.ymd2ord y m d = n.
Proof.
  intros Hn. unfold Calendar.ord2ymd. cbv zeta.
  unfold Calendar.DI400Y, Calendar.DI100Y, Calendar.DI4Y.
  pose proof (Z.div_mod (n - 1) 146097 ltac:(lia)) as E400.
  pose proof (Z.mod_pos_bound (n - 1) 146097 ltac:(lia)) as B400.
  set (n400 := (n - 1) / 146097) in *. set (r1 := (n - 1) mod 146097) in *.
  assert (0 <= n400) as P400 by (apply Z.div_pos; lia).
  pose proof (Z.div_mod r1 36524 ltac:(lia)) as E100.
  pose proof (Z.mod_pos_bound r1 36524 ltac:(lia)) as B100.
  set (n100 := r1 / 36524) in *. set (r2 := r1 mod 36524) in *.
  pose proof (Z.div_mod r2 1461 ltac:(lia)) as E4.
  pose proof (Z.mod_pos_bound r2 1461 ltac:(lia)) as B4.
  set (n4 := r2 / 1461) in *. set (r3 := r2 mod 1461) in *.
  pose proof (Z.div_mod r3 365 ltac:(lia)) as E1.
  pose proof (Z.mod_pos_bound r3 365 ltac:(lia)) as B1.
  set (n1 := r3 / 365) in *. set (r4 := r3 mod 365) in *.
  clearbody n400 r1 n100 r2 n4 r3 n1 r4.
  assert (0 <= n100 <= 4) as H100 by lia.
  assert (0 <= n4 <= 24) as H4 by lia.
  assert (0 <= n1 <= 4) as H1 by lia.
  destruct (Z.eqb_spec n1 4) as [E|N1]; [|destruct (Z.eqb_spec n100 4) as [E|N100]];
    cbn [orb].
  - (* the last day of a leap year *)
    exists (n400 * 400 + 1 + (n100 * 100 + n4 * 4 + n1) - 1), 12, 31.
    split; [done|].
    assert (n100 <= 3 ∧ n4 <= 23) as [? ?] by lia.
    replace (n400 * 400 + 1 + (n100 * 100 + n4 * 4 + n1) - 1)
      with (n400 * 400 + 1 + (n100 * 100 + n4 * 4 + 3)) by lia.
    split; [lia|]. split; [lia|]. split; [by vm_compute|].
    unfold Calendar.ymd2ord, Calendar.days_before_month.
    rewrite days_before_year_cycles, is_leap_cycles by lia.
    destruct (Z.eqb_spec n4 24); [lia|].
    change (Calendar.item Calendar.DAYS_BEFORE_MONTH 12) with 334.
    simpl. lia.
  - (* the last day of a cycle of 400 years *)
    exists (n400 * 400 + 1 + (n100 * 100 + n4 * 4 + n1) - 1), 12, 31.
    split; [done|].
    assert (n4 = 0 ∧ n1 = 0 ∧ r4 = 0) as (-> & -> & ->) by lia.
    replace (n400 * 400 + 1 + (n100 * 100 + 0 * 4 + 0) - 1)
      with (n400 * 400 + 1 + (3 * 100 + 24 * 4 + 3)) by lia.
    split; [lia|]. split; [lia|]. split; [by vm_compute|].
    unfold Calendar.ymd2ord, Calendar.days_before_month.
    rewrite days_before_year_cycles, is_leap_cycles by lia.
    change (Calendar.item Calendar.DAYS_BEFORE_MONTH 12) with 334.
    simpl. lia.
  - set (leapyear := (n1 =? 3) && (negb (n4 =? 24) || (n100 =? 3))).
    destruct (month_and_day_spec leapyear r4 ltac:(lia)) as (Hm & Hd & Hsum).
    destruct (Calendar.month_and_day leapyear r4) as [m d]. simpl in Hm, Hd, Hsum.
    exists (n400 * 400 + 1 + (n100 * 100 + n4 * 4 + n1)), m, d.
    split; [done|]. split; [lia|]. split; [lia|].
    assert (Hleap : Strptime.is_leap (n400 * 400 + 1 + (n100 * 100 + n4 * 4 + n1)) = leapyear)
      by (apply is_leap_cycles; lia).
    split.
    + by rewrite days_in_month_by_leap, Hleap.
    + unfold Calendar.ymd2ord, Calendar.days_before_month.
      rewrite days_before_year_cycles, Hleap by lia. lia.
Qed.

Lemma days_before_year_mono (a b : Z) :
  a <= b → Calendar.days_before_year a <= Calendar.days_before_year b.
Proof.
  intros H. unfold Calendar.days_before_year. cbv zeta.
  Z.div_mod_to_equations. lia.
Qed.

Lemma days_before_year_succ (y : Z) :
  Calendar.days_before_year (y + 1)
  = Calendar.days_before_year y + 365 + Calendar.int_of_bool (Strptime.is_leap y).
Proof.
  unfold Calendar.days_before_year, Strptime.is_leap, Calendar.int_of_bool. cbv zeta.
  replace (y + 1 - 1) with y by lia.
  destruct (Z.eqb_spec (y mod 4) 0); destruct (Z.eqb_spec (y mod 100) 0);
    destruct (Z.eqb_spec (y mod 400) 0); cbn [andb orb negb];
    Z.div_mod_to_equations; lia.
Qed.

(** Within a year: the days before a month are not negative, a day of one
    month comes before the first day of every later month, and the last
    day of December is day 365 (366 in a leap year). *)
Lemma days_before_month_facts (y m m' d : Z) :
  1 <= m <= 12 → d <= Strptime.days_in_month y m →
  0 <= Calendar.days_before_month y m
  ∧ Calendar.days_before_month y m + d
    <= 365 + Calendar.int_of_bool (Strptime.is_leap y)
  ∧ (m < m' <= 12 → Calendar.days_before_month y m + d <= Calendar.days_before_month y m').
Proof.
  intros Hm Hd. rewrite days_in_month_by_leap in Hd.
  unfold Calendar.days_before_month. set (leap := Strptime.is_leap y) in *. clearbody leap.
  assert (Hall : forallb (fun b => forallb (fun m =>
            let before m := Calendar.item Calendar.DAYS_BEFORE_MONTH m
                            + Calendar.int_of_bool ((2 <? m) && b) in
            let dim := Strptime.days_in_month (if b then 4 else 1) m in
            (0 <=? before m) && (before m + dim <=? 365 + Calendar.int_of_bool b)
            && forallb (fun m' => negb (m <? m') || (before m + dim <=? before m'))
                 (Z_range 1 12))
            (Z_range 1 12)) [true; false] = true) by (vm_compute; reflexivity).
  rewrite List.forallb_forall in Hall.
  assert (In leap [true; false]) as Hin by (destruct leap; simpl; auto).
  specialize (Hall leap Hin). rewrite List.forallb_forall in Hall.
  specialize (Hall m (Z_range_In 1 12 m ltac:(lia))). cbv zeta in Hall.
  apply andb_prop in Hall as [Hall H3]. apply andb_prop in Hall as [H1 H2].
  apply Z.leb_le in H1, H2.
  split; [lia|]. split; [lia|]. intros Hm'.
  rewrite List.forallb_forall in H3.
  specialize (H3 m' (Z_range_In 1 12 m' ltac:(lia))).
  destruct (Z.ltb_spec m m'); [|lia]. cbn [negb orb] in H3.
  apply Z.leb_le in H3. lia.
Qed.

(** The ordinal orders the days of the calendar as year, month and day do. *)
Lemma ymd2ord_lt (y m d y' m' d' : Z) :
  1 <= m <= 12 → 1 <= d <= Strptime.days_in_month y m →
  1 <= m' <= 12 → 1 <= d' <= Strptime.days_in_month y' m' →
  lex_ltb [y; m; d] [y'; m'; d'] = true →
  Calendar.ymd2ord y m d < Calendar.ymd2ord y' m' d'.
Proof.
  intros Hm Hd Hm' Hd' Hlt. unfold Calendar.ymd2ord.
  destruct (days_before_month_facts y m m' d Hm ltac:(lia)) as (_ & Hyear & Hmonth).
  destruct (days_before_month_facts y' m' m' d' Hm' ltac:(lia)) as (Hpos & _ & _).
  rewrite !lex_ltb_cons in Hlt.
  apply orb_prop in Hlt as [Hy%Z.ltb_lt|[Hy%Z.eqb_eq Hlt]%andb_prop].
  - pose proof (days_before_year_mono (y + 1) y' ltac:(lia)) as Hmono.
    rewrite days_before_year_succ in Hmono. lia.
  - subst y'. apply orb_prop in Hlt as [Hmm%Z.ltb_lt|[Hmm%Z.eqb_eq Hlt]%andb_prop].
    + specialize (Hmonth ltac:(lia)). lia.
    + subst m'. apply orb_prop in Hlt as [Hdd%Z.ltb_lt|[_ Hlt]%andb_prop]; [lia|].
      discriminate Hlt.
Qed.

Lemma lex_ltb_total (a b : list Z) :
  List.length a = List.length b → lex_ltb a b = false → lex_ltb b a = false → a = b.
Proof.
  revert b. induction a as [|x a IH]; intros [|y b]; simpl; try done.
  intros [= Hlen] Hab Hba.
  apply orb_false_elim in Hab as [Hxy Hab]. apply orb_false_elim in Hba as [Hyx Hba].
  apply Z.ltb_ge in Hxy, Hyx. assert (x = y) as -> by lia.
  rewrite Z.eqb_refl in Hab, Hba. simpl in Hab, Hba. by rewrite (IH b).
Qed.

(** The ordinal of a day of the years 1 to 9999. *)
Lemma ymd2ord_range (y m d : Z) :
  valid_date y m d → 1 <= Calendar.ymd2ord y m d <= Calendar.MAXORDINAL.
Proof.
  intros (Hy & Hm & Hd). unfold Calendar.ymd2ord.
  destruct (days_before_month_facts y m m d Hm ltac:(lia)) as (Hpos & Hyear & _).
  pose proof (days_before_year_mono 1 y ltac:(lia)) as Hlo.
  pose proof (days_before_year_mono (y + 1) 10000 ltac:(lia)) as Hhi.
  rewrite days_before_year_succ in Hhi.
  change (Calendar.days_before_year 1) with 0 in Hlo.
  change (Calendar.days_before_year 10000) with 3652059 in Hhi.
  unfold Calendar.MAXORDINAL. lia.
Qed.

(** An ordinal from 1 to [MAXORDINAL] names a day of the years 1 to 9999. *)
Lemma ord2ymd_valid (n : Z) :
  1 <= n <= Calendar.MAXORDINAL →
  ∃ y m d, Calendar.ord2ymd n = (y, m, d) ∧ valid_date y m d ∧ Calendar.ymd2ord y m d = n.
Proof.
  intros [Hlo Hhi].
  destruct (ord2ymd_ymd2ord n Hlo) as (y & m & d & E & Hy & Hm & Hd & Ho).
  exists y, m, d. split; [done|]. split; [|done].
  split; [|done]. split; [done|].
  destruct (Z.le_gt_cases y 9999) as [|Hbig]; [done|].
  pose proof (days_before_year_mono 10000 y ltac:(lia)) as Hmono.
  change (Calendar.days_before_year 10000) with 3652059 in Hmono.
  destruct (days_before_month_facts y m m d Hm ltac:(lia)) as (Hpos & _ & _).
  unfold Calendar.ymd2ord, Calendar.MAXORDINAL in *. lia.
Qed.

(** On a [datetime] that exists, the sum keeps the time of day and moves
    the ordinal of the day by [days]. *)
Lemma add_days_valid (now : datetime) (days : Z) :
  valid_datetime now →
  calculate_retention_date now days
  = if (1 <=? Calendar.toordinal now + days)
       && (Calendar.toordinal now + days <=? Calendar.MAXORDINAL)
    then
      let '(y, m, d) := Calendar.ord2ymd (Calendar.toordinal now + days) in
      Calendar.InRange (mkDatetime y m d (dt_hour now) (dt_minute now) (dt_second now)
                          (dt_microsecond now))
    else Calendar.OverflowError.
Proof.
  intros (Hdate & Hh & Hmi & Hs & Hus).
  pose proof (ymd2ord_range _ _ _ Hdate) as Ho. fold (Calendar.toordinal now) in Ho.
  unfold calculate_retention_date, Calendar.add_days, Calendar.timedelta. cbv zeta.
  set (o := Calendar.toordinal now) in *. clearbody o.
  unfold Calendar.MAXORDINAL in *.
  rewrite (Z.div_small (dt_microsecond now)), (Z.mod_small (dt_microsecond now)), Z.add_0_r
    by lia.
  set (s := dt_hour now * 3600 + dt_minute now * 60 + dt_second now).
  assert (s / 86400 = 0) as -> by (apply Z.div_small; lia).
  assert (s mod 86400 = s) as -> by (apply Z.mod_small; lia).
  assert (s / 3600 = dt_hour now) as -> by (subst s; Z.div_mod_to_equations; lia).
  assert (s mod 3600 = dt_minute now * 60 + dt_second now) as ->
    by (subst s; Z.div_mod_to_equations; lia).
  assert ((dt_minute now * 60 + dt_second now) / 60 = dt_minute now) as ->
    by (Z.div_mod_to_equations; lia).
  assert ((dt_minute now * 60 + dt_second now) mod 60 = dt_second now) as ->
    by (Z.div_mod_to_equations; lia).
  rewrite Z.add_0_r.
  destruct (Z.ltb_spec 999999999 (Z.abs days)) as [Hbig|_].
  - destruct (Z.leb_spec 1 (o + days)); destruct (Z.leb_spec (o + days) 3652059);
      cbn [andb]; try done. lia.
  - destruct (Z.ltb_spec 0 (o + days)); destruct (Z.leb_spec 1 (o + days)); try lia; done.
Qed.

(** A date the function returns exists, lies [days] days from the clock's
    reading and has its time of day. *)
Lemma add_days_in_range (now d : datetime) (days : Z) :
  valid_datetime now →
  calculate_retention_date now days = Calendar.InRange d →
  valid_datetime d
  ∧ Calendar.toordinal d = Calendar.toordinal now + days
  ∧ time_of_day d = time_of_day now.
Proof.
  intros Hv. rewrite (add_days_valid now days Hv).
  destruct Hv as (Hdate & Htime).
  destruct (Z.leb_spec 1 (Calendar.toordinal now + days)) as [Hlo|Hlo];
    [destruct (Z.leb_spec (Calendar.toordinal now + days) Calendar.MAXORDINAL) as [Hhi|Hhi]|];
    cbn [andb]; [|done|done].
  destruct (ord2ymd_valid _ (conj Hlo Hhi)) as (y & m & dd & -> & Hd & Ho).
  intros [= <-]. split; [|split]; [|exact Ho|reflexivity].
  split; [exact Hd|exact Htime].
Qed.

(** [calculate_retention_date] returns the same time of day [days] days
    after (before, when [days] is negative) the clock's reading, as a
    [datetime] that exists; it raises [OverflowError] exactly when that day
    falls outside the years 1 to 9999. *)
Theorem calculate_retention_date_days_later (now : datetime) (days : Z) :
  valid_datetime now →
  match calculate_retention_date now days with
  | Calendar.InRange d =>
      valid_datetime d
      ∧ Calendar.toordinal d = Calendar.toordinal now + days
      ∧ time_of_day d = time_of_day now
      ∧ 1 <= Calendar.toordinal now + days <= Calendar.MAXORDINAL
  | Calendar.OverflowError =>
      ¬ (1 <= Calendar.toordinal now + days <= Calendar.MAXORDINAL)
  end.
Proof.
  intros Hv. destruct (calculate_retention_date now days) as [d|] eqn:E.
  - destruct (add_days_in_range now d days Hv E) as (Hd & Ho & Ht).
    split; [exact Hd|]. split; [exact Ho|]. split; [exact Ht|].
    rewrite <- Ho. destruct Hd as (Hdate & _). exact (ymd2ord_range _ _ _ Hdate).
  - intros [Hlo Hhi]. revert E. rewrite (add_days_valid now days Hv).
    destruct (ord2ymd_valid _ (conj Hlo Hhi)) as (y & m & dd & -> & _).
    destruct (Z.leb_spec 1 (Calendar.toordinal now + days)); [|lia].
    destruct (Z.leb_spec (Calendar.toordinal now + days) Calendar.MAXORDINAL); [|lia].
    cbn [andb]. discriminate.
Qed.

Lemma calculate_retention_date_days_later_witness :
  match calculate_retention_date (mkDatetime 2024 2 29 9 30 0 0) 365 with
  | Calendar.InRange d =>
      valid_datetime d
      ∧ Calendar.toordinal d = Calendar.toordinal (mkDatetime 2024 2 29 9 30 0 0) + 365
      ∧ time_of_day d = time_of_day (mkDatetime 2024 2 29 9 30 0 0)
      ∧ 1 <= Calendar.toordinal (mkDatetime 2024 2 29 9 30 0 0) + 365
        <= Calendar.MAXORDINAL
  | Calendar.OverflowError =>
      ¬ (1 <= Calendar.toordinal (mkDatetime 2024 2 29 9 30 0 0) + 365
         <= Calendar.MAXORDINAL)
  end.
Proof.
  apply (calculate_retention_date_days_later (mkDatetime 2024 2 29 9 30 0 0) 365).
  unfold valid_datetime, valid_date. simpl. vm_compute. intuition discriminate.
Defined.

(** A retention date computed from the clock's reading [now] is, at that
    same reading, expired exactly when [days] is negative: with no days at
    all the record is not yet expired, the comparison being strict. *)
Theorem new_retention_date_expired_iff_negative (now d : datetime) (days : Z) :
  valid_datetime now →
  calculate_retention_date now days = Calendar.InRange d →
  check_retention_expired now (VDatetime d) = Ok (days <? 0).
Proof.
  intros Hv. rewrite (add_days_valid now days Hv).
  pose proof Hv as (Hdate & Htime).
  destruct (Z.leb_spec 1 (Calendar.toordinal now + days)) as [Hlo|Hlo];
    [destruct (Z.leb_spec (Calendar.toordinal now + days) Calendar.MAXORDINAL) as [Hhi|Hhi]|];
    cbn [andb]; [|done|done].
  destruct (ord2ymd_valid _ (conj Hlo Hhi)) as (y & m & dd & -> & (Hy & Hm & Hd) & Ho).
  intros [= <-]. rewrite check_retention_expired_datetime. f_equal.
  destruct Hdate as (Hy0 & Hm0 & Hd0).
  unfold Calendar.toordinal in Ho.
  unfold dt_ltb, fields. simpl.
  set (t := [dt_hour now; dt_minute now; dt_second now; dt_microsecond now]).
  destruct (lex_ltb [y; m; dd] [dt_year now; dt_month now; dt_day now]) eqn:E1.
  - (* the new day is earlier *)
    pose proof (ymd2ord_lt _ _ _ _ _ _ Hm Hd Hm0 Hd0 E1) as Hlt.
    destruct (Z.ltb_spec days 0); [|lia].
    revert E1. rewrite !lex_ltb_cons.
    repeat (destruct (_ <? _); cbn [orb]; [done|];
            destruct (_ =? _); cbn [andb]; [|done]).
    done.
  - destruct (lex_ltb [dt_year now; dt_month now; dt_day now] [y; m; dd]) eqn:E2.
    + (* the new day is later *)
      pose proof (ymd2ord_lt _ _ _ _ _ _ Hm0 Hd0 Hm Hd E2) as Hlt.
      destruct (Z.ltb_spec days 0); [lia|].
      revert E1 E2. rewrite !lex_ltb_cons.
      destruct (Z.ltb_spec y (dt_year now)); cbn [orb]; [done|].
      destruct (Z.ltb_spec (dt_year now) y); cbn [orb].
      { destruct (Z.eqb_spec y (dt_year now)); [lia|done]. }
      destruct (Z.eqb_spec y (dt_year now)); [|lia]. cbn [andb].
      destruct (Z.eqb_spec (dt_year now) y); [|lia]. cbn [andb].
      destruct (Z.ltb_spec m (dt_month now)); cbn [orb]; [done|].
      destruct (Z.ltb_spec (dt_month now) m); cbn [orb].
      { destruct (Z.eqb_spec m (dt_month now)); [lia|done]. }
      destruct (Z.eqb_spec m (dt_month now)); [|lia]. cbn [andb].
      destruct (Z.eqb_spec (dt_month now) m); [|lia]. cbn [andb].
      destruct (Z.ltb_spec dd (dt_day now)); cbn [orb]; [done|].
      destruct (Z.ltb_spec (dt_day now) dd); cbn [orb].
      { destruct (Z.eqb_spec dd (dt_day now)); [lia|done]. }
      intros _. destruct (Z.eqb_spec (dt_day now) dd); cbn [andb lex_ltb]; done.
    + (* the same day *)
      pose proof (lex_ltb_total [y; m; dd] [dt_year now; dt_month now; dt_day now]
                    eq_refl E1 E2) as [= -> -> ->].
      assert (days = 0) as -> by lia.
      change (lex_ltb (dt_year now :: dt_month now :: dt_day now :: t)
                (dt_year now :: dt_month now :: dt_day now :: t) = false).
      apply lex_ltb_irrefl.
Qed.

Lemma new_retention_date_expired_iff_negative_witness :
  check_retention_expired (mkDatetime 2024 2 29 9 30 0 0)
    (VDatetime (mkDatetime 2025 2 28 9 30 0 0)) = Ok (365 <? 0).
Proof.
  apply (new_retention_date_expired_iff_negative (mkDatetime 2024 2 29 9 30 0 0) _ 365).
  - unfold valid_datetime, valid_date. simpl. vm_compute. intuition discriminate.
  - vm_compute. reflexivity.
Defined.

Lemma ymd2ord_inj (y m d y' m' d' : Z) :
  1 <= m <= 12 → 1 <= d <= Strptime.days_in_month y m →
  1 <= m' <= 12 → 1 <= d' <= Strptime.days_in_month y' m' →
  Calendar.ymd2ord y m d = Calendar.ymd2ord y' m' d' →
  (y, m, d) = (y', m', d').
Proof.
  intros Hm Hd Hm' Hd' E.
  destruct (lex_ltb [y; m; d] [y'; m'; d']) eqn:E1.
  { pose proof (ymd2ord_lt _ _ _ _ _ _ Hm Hd Hm' Hd' E1). lia. }
  destruct (lex_ltb [y'; m'; d'] [y; m; d]) eqn:E2.
  { pose proof (ymd2ord_lt _ _ _ _ _ _ Hm' Hd' Hm Hd E2). lia. }
  by pose proof (lex_ltb_total [y; m; d] [y'; m'; d'] eq_refl E1 E2) as [= -> -> ->].
Qed.

(** Retention dates add up: no days at all give the clock's reading back,
    and moving a computed date by [b] more days is computing it with
    [a + b] days in one step (both raise [OverflowError] together). *)
Theorem calculate_retention_date_additive (now d : datetime) (a b : Z) :
  valid_datetime now →
  calculate_retention_date now 0 = Calendar.InRange now
  ∧ (calculate_retention_date now a = Calendar.InRange d →
     calculate_retention_date d b = calculate_retention_date now (a + b)).
Proof.
  intros Hv. split.
  - rewrite (add_days_valid now 0 Hv). rewrite Z.add_0_r.
    destruct Hv as (Hdate & _).
    pose proof (ymd2ord_range _ _ _ Hdate) as Ho. fold (Calendar.toordinal now) in Ho.
    destruct (Z.leb_spec 1 (Calendar.toordinal now)); [|lia].
    destruct (Z.leb_spec (Calendar.toordinal now) Calendar.MAXORDINAL); [|lia].
    cbn [andb].
    destruct (ord2ymd_valid _ Ho) as (y & m & dd & -> & (Hy & Hm & Hd) & E).
    destruct Hdate as (Hy0 & Hm0 & Hd0).
    apply (ymd2ord_inj _ _ _ _ _ _ Hm Hd Hm0 Hd0) in E as [= -> -> ->].
    by destruct now.
  - intros Ha.
    destruct (add_days_in_range now d a Hv Ha) as (Hvd & Ho & [= Hh Hmi Hsec Hus]).
    rewrite (add_days_valid d b Hvd), (add_days_valid now (a + b) Hv).
    rewrite Ho, Hh, Hmi, Hsec, Hus, Z.add_assoc. reflexivity.
Qed.

Lemma calculate_retention_date_additive_witness :
  calculate_retention_date (mkDatetime 2024 2 29 9 30 0 0) 0
  = Calendar.InRange (mkDatetime 2024 2 29 9 30 0 0)
  ∧ calculate_retention_date (mkDatetime 2025 2 28 9 30 0 0) 30
    = calculate_retention_date (mkDatetime 2024 2 29 9 30 0 0) (365 + 30).
Proof.
  destruct (calculate_retention_date_additive (mkDatetime 2024 2 29 9 30 0 0)
              (mkDatetime 2025 2 28 9 30 0 0) 365 30) as [H0 H1].
  - unfold valid_datetime, valid_date. simpl. vm_compute. intuition discriminate.
  - split; [exact H0|]. apply H1. vm_compute. reflexivity.
Defined.

(** With the default of 365 days the function returns for every reading of
    the clock up to the end of year 9998, and raises [OverflowError] for
    every reading in year 9999. *)
Theorem calculate_retention_date_default_returns (now : datetime) :
  valid_datetime now →
  (∃ d, calculate_retention_date now 365 = Calendar.InRange d) ↔ dt_year now <= 9998.
Proof.
  intros Hv. rewrite (add_days_valid now 365 Hv).
  destruct Hv as ((Hy & Hm & Hd) & _).
  unfold Calendar.toordinal, Calendar.ymd2ord, Calendar.MAXORDINAL.
  destruct (days_before_month_facts (dt_year now) (dt_month now) (dt_month now) (dt_day now)
              Hm ltac:(lia)) as (Hpos & Hyear & _).
  pose proof (days_before_year_mono 1 (dt_year now) ltac:(lia)) as Hlo.
  change (Calendar.days_before_year 1) with 0 in Hlo.
  set (o := Calendar.days_before_year (dt_year now)
            + Calendar.days_before_month (dt_year now) (dt_month now) + dt_day now) in *.
  destruct (Z.leb_spec 1 (o + 365)); [|lia]. cbn [andb].
  destruct (Z.leb_spec (o + 365) 3652059) as [Hhi|Hhi].
  - split.
    + intros _. destruct (Z.le_gt_cases (dt_year now) 9998) as [|Hbig]; [done|].
      pose proof (days_before_year_mono 9999 (dt_year now) ltac:(lia)) as Hmono.
      change (Calendar.days_before_year 9999) with 3651694 in Hmono. lia.
    + intros _. destruct (Calendar.ord2ymd (o + 365)) as [[y m] d]. by eexists.
  - split; [by intros [d Hd']|]. intros Hle.
    pose proof (days_before_year_mono (dt_year now + 1) 9999 ltac:(lia)) as Hmono.
    rewrite days_before_year_succ in Hmono.
    change (Calendar.days_before_year 9999) with 3651694 in Hmono. lia.
Qed.

Lemma calculate_retention_date_default_returns_witness :
  (∃ d, calculate_retention_date (mkDatetime 9998 12 31 23 59 59 999999) 365
        = Calendar.InRange d) ↔ 9998 <= 9998.
Proof.
  apply (calculate_retention_date_default_returns (mkDatetime 9998 12 31 23 59 59 999999)).
  unfold valid_datetime, valid_date. simpl. vm_compute. intuition discriminate.
Defined.

(* ===================================================================== *)
(** ** The label of a patient *)
(* ===================================================================== *)

Lemma string_of_uint_digits (d : Decimal.uint) :
  str_all Str.is_digit (NilEmpty.string_of_uint d) = true.
Proof. induction d as [|d IH|d IH|d IH|d IH|d IH|d IH|d IH|d IH|d IH|d IH]; simpl; done. Qed.

Lemma digits_value_from_acc (d : Decimal.uint) (acc : positive) :
  digits_value_from (Z.pos acc) (NilEmpty.string_of_uint d) = Z.pos (Pos.of_uint_acc d acc).
Proof.
  revert acc.
  induction d as [|d IH|d IH|d IH|d IH|d IH|d IH|d IH|d IH|d IH|d IH]; intros acc;
    [reflexivity|..];
    cbn [Pos.of_uint_acc]; rewrite <- IH;
    cbn [NilEmpty.string_of_uint digits_value_from]; f_equal.
  all: match goal with
       | |- context [Str.code ?c] =>
           let v := eval vm_compute in (Str.code c) in change (Str.code c) with v
       end; lia.
Qed.

Lemma digits_value_uint (d : Decimal.uint) :
  digits_value (NilEmpty.string_of_uint d) = Z.of_N (Pos.of_uint d).
Proof.
  unfold digits_value.
  induction d as [|d IH|d IH|d IH|d IH|d IH|d IH|d IH|d IH|d IH|d IH];
    [reflexivity|exact IH|..];
    cbn [Pos.of_uint Z.of_N]; rewrite <- digits_value_from_acc; reflexivity.
Qed.

(** The decimal digits of a number are digits, and read back as the number. *)
Lemma decimal_spec (n : N) :
  str_all Str.is_digit (decimal n) = true ∧ digits_value (decimal n) = Z.of_N n.
Proof.
  unfold decimal. pose proof (DecimalN.Unsigned.of_to n) as Hn.
  destruct (N.to_uint n) as [|d|d|d|d|d|d|d|d|d|d] eqn:E;
    [split; [reflexivity|by rewrite <- Hn]|..];
    (split; [apply string_of_uint_digits|rewrite <- Hn; apply digits_value_uint]).
Qed.

Lemma is_digit_value (c : ascii) : Str.is_digit c = true → 0 <= Str.code c - 48 <= 9.
Proof. unfold Str.is_digit. intros [H1 H2]%andb_prop. lia. Qed.

(** Four digits or fewer stand for a number below 10000. *)
Lemma digits_value_small (s : string) :
  str_all Str.is_digit s = true → (String.length s <= 4)%nat → digits_value s <= 9999.
Proof.
  unfold digits_value.
  destruct s as [|c1 [|c2 [|c3 [|c4 [|c5 s]]]]]; cbn [str_all String.length digits_value_from];
    intros H Hlen; try (simpl in Hlen; lia).
  - apply andb_prop in H as [H1%is_digit_value _]. lia.
  - apply andb_prop in H as [H1%is_digit_value H].
    apply andb_prop in H as [H2%is_digit_value _]. lia.
  - apply andb_prop in H as [H1%is_digit_value H].
    apply andb_prop in H as [H2%is_digit_value H].
    apply andb_prop in H as [H3%is_digit_value _]. lia.
  - apply andb_prop in H as [H1%is_digit_value H].
    apply andb_prop in H as [H2%is_digit_value H].
    apply andb_prop in H as [H3%is_digit_value H].
    apply andb_prop in H as [H4%is_digit_value _]. lia.
Qed.

(** Above 9999 nothing is padded and nothing is cut: the label holds all
    the digits of the identifier, five or more. *)
Lemma format_04d_int_wide_digits (id : Z) :
  9999 < id →
  str_all Str.is_digit (format_04d_int id) = true
  ∧ digits_value (format_04d_int id) = id
  ∧ (4 < String.length (format_04d_int id))%nat.
Proof.
  intros Hid. destruct (decimal_spec (Z.abs_N id)) as [Hd Hv].
  assert (Hlen : (4 < String.length (decimal (Z.abs_N id)))%nat).
  { destruct (Nat.lt_ge_cases 4 (String.length (decimal (Z.abs_N id)))) as [|Hle]; [done|].
    pose proof (digits_value_small _ Hd Hle). lia. }
  assert (E : format_04d_int id = decimal (Z.abs_N id)).
  { unfold format_04d_int. cbv zeta.
    destruct (Z.ltb_spec id 0); [lia|].
    rewrite str_app_nil_l. cbn [String.length Nat.add].
    replace (4 - String.length (decimal (Z.abs_N id)))%nat with 0%nat by lia.
    reflexivity. }
  rewrite E. split; [exact Hd|]. split; [lia|exact Hlen].
Qed.



